(** * Pontoon repository-to-database sync: a shallow embedding

    The development follows [pontoon/sync]:
    - [sync_entities_from_repo.py]  (resources and entities),
    - [sync_translations_from_repo.py]  (translations and the action log),
    - [sync_project.py]  (the driver).

    Python objects are records, Django tables are lists of rows in insertion
    order, Python dictionaries are insertion-ordered association lists, and a
    raised exception is the [Raise] branch of an error monad. *)

From Stdlib Require Import ZArith List String Ascii Bool Lia Permutation Sorted.
Import ListNotations.
Open Scope string_scope.
Open Scope Z_scope.

Set Implicit Arguments.

(* ================================================================== *)
(** * Exceptions and the error monad *)
(* ================================================================== *)

(** The exceptions the modelled code can raise, by Python class name. *)
Inductive exn : Type :=
| AttributeError        (* attribute access on [None] *)
| TypeError             (* [str.join(None)] *)
| KeyError              (* [d[k]] and [del d[k]] on a missing key *)
| ValueError            (* Django: [bulk_update] argument checks *)
| FieldDoesNotExist     (* Django: unknown column name *)
| DoesNotExist          (* Django: [get] and forward relations *)
| MultipleObjectsReturned
| ParseError
| MissingSourceDirectoryError
| MissingLocaleDirectoryError
| StopIteration
| NoRepositories.       (* [Exception("No repositories found ...")] *)

Inductive result (A : Type) : Type :=
| Ok (a : A)
| Raise (e : exn).
Arguments Ok {A} a.
Arguments Raise {A} e.

Definition bind {A B} (m : result A) (k : A -> result B) : result B :=
  match m with
  | Ok a => k a
  | Raise e => Raise e
  end.

Notation "x <- m ;; k" := (bind m (fun x => k))
  (at level 61, m at next level, right associativity).
Notation "' p <- m ;; k" := (bind m (fun x => match x with p => k end))
  (at level 61, p pattern, m at next level, right associativity).

Definition is_ok {A} (m : result A) : bool :=
  match m with Ok _ => true | Raise _ => false end.

(** [for x in xs: body] where the body may raise and threads a state. *)
Fixpoint for_each {A S} (body : S -> A -> result S) (xs : list A) (s : S)
  : result S :=
  match xs with
  | [] => Ok s
  | x :: xs' => s' <- body s x ;; for_each body xs' s'
  end.

(** A comprehension whose element expression may raise. *)
Fixpoint map_result {A B} (f : A -> result B) (xs : list A) : result (list B) :=
  match xs with
  | [] => Ok []
  | x :: xs' => y <- f x ;; ys <- map_result f xs' ;; Ok (y :: ys)
  end.

(* ================================================================== *)
(** * Keys with decidable equality *)
(* ================================================================== *)

Class EqKey (K : Type) : Type := {
  keqb : K -> K -> bool;
  keqb_eq : forall a b, keqb a b = true <-> a = b
}.

#[export, refine] Instance EqKey_string : EqKey string :=
  {| keqb := String.eqb |}.
Proof. intros a b. apply String.eqb_eq. Defined.

#[export, refine] Instance EqKey_Z : EqKey Z := {| keqb := Z.eqb |}.
Proof. intros a b. apply Z.eqb_eq. Defined.

#[export, refine] Instance EqKey_option {K} `{EqKey K} : EqKey (option K) :=
  {| keqb := fun a b =>
       match a, b with
       | Some x, Some y => keqb x y
       | None, None => true
       | _, _ => false
       end |}.
Proof.
  intros [x|] [y|]; split; intro E; try discriminate; try reflexivity.
  - apply keqb_eq in E. now subst.
  - inversion E. now apply keqb_eq.
Defined.

#[export, refine] Instance EqKey_pair {K1 K2} `{EqKey K1} `{EqKey K2}
  : EqKey (K1 * K2) :=
  {| keqb := fun a b => keqb (fst a) (fst b) && keqb (snd a) (snd b) |}.
Proof.
  intros [a1 a2] [b1 b2]; simpl. rewrite andb_true_iff, !keqb_eq.
  split; [intros [-> ->]; reflexivity | intro E; inversion E; auto].
Defined.



(** [x in xs] for a list or a set of keys. *)
Definition mem {K} `{EqKey K} (k : K) (ks : list K) : bool :=
  existsb (keqb k) ks.


(* ================================================================== *)
(** * Python dictionaries

    A [dict] keeps its keys in insertion order; assigning to a key already
    present replaces the value where it stands. *)
(* ================================================================== *)

Definition dict (K V : Type) : Type := list (K * V).

Section Dict.
Context {K V : Type} `{EqKey K}.

(** [d.get(k, None)] *)
Fixpoint dict_get (d : dict K V) (k : K) : option V :=
  match d with
  | [] => None
  | (k', v) :: d' => if keqb k k' then Some v else dict_get d' k
  end.

(** [d[k] = v] *)
Fixpoint dict_set (d : dict K V) (k : K) (v : V) : dict K V :=
  match d with
  | [] => [(k, v)]
  | (k', v') :: d' =>
      if keqb k k' then (k', v) :: d' else (k', v') :: dict_set d' k v
  end.

(** The rows left by [del d[k]] (the caller checks that [k] is a key). *)
Definition dict_remove (d : dict K V) (k : K) : dict K V :=
  filter (fun kv => negb (keqb k (fst kv))) d.

(** [d[k]] *)
Definition dict_item (d : dict K V) (k : K) : result V :=
  match dict_get d k with
  | Some v => Ok v
  | None => Raise KeyError
  end.

(** [del d[k]] *)
Definition dict_del (d : dict K V) (k : K) : result (dict K V) :=
  match dict_get d k with
  | Some _ => Ok (dict_remove d k)
  | None => Raise KeyError
  end.

(** [k in d] *)
Definition dict_has (d : dict K V) (k : K) : bool :=
  match dict_get d k with Some _ => true | None => false end.

(** [d.keys()] *)
Definition dict_keys (d : dict K V) : list K := map fst d.

(** [dict(pairs)], [d.update(pairs)] and dictionary comprehensions. *)
Definition dict_update (d : dict K V) (kvs : list (K * V)) : dict K V :=
  fold_left (fun acc kv => dict_set acc (fst kv) (snd kv)) kvs d.

Definition dict_of (kvs : list (K * V)) : dict K V := dict_update [] kvs.
End Dict.

(* ================================================================== *)
(** * Strings and paths *)
(* ================================================================== *)

Definition newline : string := String (ascii_of_nat 10) EmptyString.

(** ["\n".join(xs)] *)
Definition join_lines (xs : list string) : string := String.concat newline xs.

(** [s.endswith(suffix)] *)
Definition endswith (s suffix : string) : bool :=
  let n := String.length s in
  let m := String.length suffix in
  (m <=? n)%nat && String.eqb (substring (n - m) m s) suffix.

(** [s[:-1]] *)
Definition drop_last (s : string) : string :=
  substring 0 (String.length s - 1) s.

(** [path[:-1] if path.endswith(".pot") else path] *)
Definition strip_pot (path : string) : string :=
  if endswith path ".pot" then drop_last path else path.

(** [a or b] on strings: the empty string is falsy. *)
Definition str_or (a b : string) : string :=
  if String.eqb a "" then b else a.

(** A point in time; only equality matters. *)
Definition datetime : Type := Z.

(* ================================================================== *)
(** * Data model

    One record per Django model, with the columns the sync reads or writes.
    A primary key is [None] on an object that was built in memory and not
    saved yet.  The audit columns that name a user ([approved_user],
    [rejected_user], ...) are only ever assigned [None] by the sync and are
    left out. *)
(* ================================================================== *)

Record Locale : Type := {
  loc_id : Z;
  loc_code : string
}.

Record User : Type := {
  user_id : Z;
  username : string
}.

Record Resource : Type := {
  res_id : option Z;
  res_project : option Z;
  res_path : string;
  res_format : string;
  res_total_strings : Z;
  res_order : Z
}.

Record Entity : Type := {
  ent_id : option Z;
  ent_resource : option Z;
  ent_string : string;
  ent_string_plural : string;
  ent_key : string;
  ent_comment : string;
  ent_order : Z;
  ent_source : string;
  ent_group_comment : string;
  ent_resource_comment : string;
  ent_context : string;
  ent_obsolete : bool;
  ent_date_obsoleted : option datetime;
  ent_date_created : datetime
}.

Record Translation : Type := {
  tr_id : option Z;
  tr_entity : Z;
  tr_locale : Z;
  tr_string : string;
  tr_plural_form : option Z;
  tr_date : datetime;
  tr_active : bool;
  tr_approved : bool;
  tr_approved_date : option datetime;
  tr_unapproved_date : option datetime;
  tr_pretranslated : bool;
  tr_fuzzy : bool;
  tr_rejected : bool;
  tr_rejected_date : option datetime;
  tr_unrejected_date : option datetime
}.

Definition with_res_id (v : option Z) (x : Resource) : Resource :=
  Build_Resource v (res_project x) (res_path x) (res_format x)
    (res_total_strings x) (res_order x).

Definition with_res_total_strings (v : Z) (x : Resource) : Resource :=
  Build_Resource (res_id x) (res_project x) (res_path x) (res_format x) v
    (res_order x).

Definition with_res_order (v : Z) (x : Resource) : Resource :=
  Build_Resource (res_id x) (res_project x) (res_path x) (res_format x)
    (res_total_strings x) v.

Definition with_ent_id (v : option Z) (x : Entity) : Entity :=
  Build_Entity v (ent_resource x) (ent_string x) (ent_string_plural x)
    (ent_key x) (ent_comment x) (ent_order x) (ent_source x)
    (ent_group_comment x) (ent_resource_comment x) (ent_context x)
    (ent_obsolete x) (ent_date_obsoleted x) (ent_date_created x).

Definition with_ent_string (v : string) (x : Entity) : Entity :=
  Build_Entity (ent_id x) (ent_resource x) v (ent_string_plural x) (ent_key
    x) (ent_comment x) (ent_order x) (ent_source x) (ent_group_comment x)
    (ent_resource_comment x) (ent_context x) (ent_obsolete x)
    (ent_date_obsoleted x) (ent_date_created x).

Definition with_ent_string_plural (v : string) (x : Entity) : Entity :=
  Build_Entity (ent_id x) (ent_resource x) (ent_string x) v (ent_key x)
    (ent_comment x) (ent_order x) (ent_source x) (ent_group_comment x)
    (ent_resource_comment x) (ent_context x) (ent_obsolete x)
    (ent_date_obsoleted x) (ent_date_created x).

Definition with_ent_comment (v : string) (x : Entity) : Entity :=
  Build_Entity (ent_id x) (ent_resource x) (ent_string x) (ent_string_plural
    x) (ent_key x) v (ent_order x) (ent_source x) (ent_group_comment x)
    (ent_resource_comment x) (ent_context x) (ent_obsolete x)
    (ent_date_obsoleted x) (ent_date_created x).

Definition with_ent_source (v : string) (x : Entity) : Entity :=
  Build_Entity (ent_id x) (ent_resource x) (ent_string x) (ent_string_plural
    x) (ent_key x) (ent_comment x) (ent_order x) v (ent_group_comment x)
    (ent_resource_comment x) (ent_context x) (ent_obsolete x)
    (ent_date_obsoleted x) (ent_date_created x).

Definition with_ent_group_comment (v : string) (x : Entity) : Entity :=
  Build_Entity (ent_id x) (ent_resource x) (ent_string x) (ent_string_plural
    x) (ent_key x) (ent_comment x) (ent_order x) (ent_source x) v
    (ent_resource_comment x) (ent_context x) (ent_obsolete x)
    (ent_date_obsoleted x) (ent_date_created x).

Definition with_ent_resource_comment (v : string) (x : Entity) : Entity :=
  Build_Entity (ent_id x) (ent_resource x) (ent_string x) (ent_string_plural
    x) (ent_key x) (ent_comment x) (ent_order x) (ent_source x)
    (ent_group_comment x) v (ent_context x) (ent_obsolete x)
    (ent_date_obsoleted x) (ent_date_created x).

Definition with_ent_context (v : string) (x : Entity) : Entity :=
  Build_Entity (ent_id x) (ent_resource x) (ent_string x) (ent_string_plural
    x) (ent_key x) (ent_comment x) (ent_order x) (ent_source x)
    (ent_group_comment x) (ent_resource_comment x) v (ent_obsolete x)
    (ent_date_obsoleted x) (ent_date_created x).

Definition with_ent_obsolete (v : bool) (x : Entity) : Entity :=
  Build_Entity (ent_id x) (ent_resource x) (ent_string x) (ent_string_plural
    x) (ent_key x) (ent_comment x) (ent_order x) (ent_source x)
    (ent_group_comment x) (ent_resource_comment x) (ent_context x) v
    (ent_date_obsoleted x) (ent_date_created x).

Definition with_ent_date_obsoleted (v : option datetime) (x : Entity) : Entity :=
  Build_Entity (ent_id x) (ent_resource x) (ent_string x) (ent_string_plural
    x) (ent_key x) (ent_comment x) (ent_order x) (ent_source x)
    (ent_group_comment x) (ent_resource_comment x) (ent_context x)
    (ent_obsolete x) v (ent_date_created x).

Definition with_tr_id (v : option Z) (x : Translation) : Translation :=
  Build_Translation v (tr_entity x) (tr_locale x) (tr_string x)
    (tr_plural_form x) (tr_date x) (tr_active x) (tr_approved x)
    (tr_approved_date x) (tr_unapproved_date x) (tr_pretranslated x) (tr_fuzzy
    x) (tr_rejected x) (tr_rejected_date x) (tr_unrejected_date x).

Definition with_tr_active (v : bool) (x : Translation) : Translation :=
  Build_Translation (tr_id x) (tr_entity x) (tr_locale x) (tr_string x)
    (tr_plural_form x) (tr_date x) v (tr_approved x) (tr_approved_date x)
    (tr_unapproved_date x) (tr_pretranslated x) (tr_fuzzy x) (tr_rejected x)
    (tr_rejected_date x) (tr_unrejected_date x).

Definition with_tr_approved (v : bool) (x : Translation) : Translation :=
  Build_Translation (tr_id x) (tr_entity x) (tr_locale x) (tr_string x)
    (tr_plural_form x) (tr_date x) (tr_active x) v (tr_approved_date x)
    (tr_unapproved_date x) (tr_pretranslated x) (tr_fuzzy x) (tr_rejected x)
    (tr_rejected_date x) (tr_unrejected_date x).

Definition with_tr_approved_date (v : option datetime) (x : Translation) : Translation :=
  Build_Translation (tr_id x) (tr_entity x) (tr_locale x) (tr_string x)
    (tr_plural_form x) (tr_date x) (tr_active x) (tr_approved x) v
    (tr_unapproved_date x) (tr_pretranslated x) (tr_fuzzy x) (tr_rejected x)
    (tr_rejected_date x) (tr_unrejected_date x).

Definition with_tr_unapproved_date (v : option datetime) (x : Translation) : Translation :=
  Build_Translation (tr_id x) (tr_entity x) (tr_locale x) (tr_string x)
    (tr_plural_form x) (tr_date x) (tr_active x) (tr_approved x)
    (tr_approved_date x) v (tr_pretranslated x) (tr_fuzzy x) (tr_rejected x)
    (tr_rejected_date x) (tr_unrejected_date x).

Definition with_tr_pretranslated (v : bool) (x : Translation) : Translation :=
  Build_Translation (tr_id x) (tr_entity x) (tr_locale x) (tr_string x)
    (tr_plural_form x) (tr_date x) (tr_active x) (tr_approved x)
    (tr_approved_date x) (tr_unapproved_date x) v (tr_fuzzy x) (tr_rejected x)
    (tr_rejected_date x) (tr_unrejected_date x).

Definition with_tr_fuzzy (v : bool) (x : Translation) : Translation :=
  Build_Translation (tr_id x) (tr_entity x) (tr_locale x) (tr_string x)
    (tr_plural_form x) (tr_date x) (tr_active x) (tr_approved x)
    (tr_approved_date x) (tr_unapproved_date x) (tr_pretranslated x) v
    (tr_rejected x) (tr_rejected_date x) (tr_unrejected_date x).

Definition with_tr_rejected (v : bool) (x : Translation) : Translation :=
  Build_Translation (tr_id x) (tr_entity x) (tr_locale x) (tr_string x)
    (tr_plural_form x) (tr_date x) (tr_active x) (tr_approved x)
    (tr_approved_date x) (tr_unapproved_date x) (tr_pretranslated x) (tr_fuzzy
    x) v (tr_rejected_date x) (tr_unrejected_date x).

Definition with_tr_rejected_date (v : option datetime) (x : Translation) : Translation :=
  Build_Translation (tr_id x) (tr_entity x) (tr_locale x) (tr_string x)
    (tr_plural_form x) (tr_date x) (tr_active x) (tr_approved x)
    (tr_approved_date x) (tr_unapproved_date x) (tr_pretranslated x) (tr_fuzzy
    x) (tr_rejected x) v (tr_unrejected_date x).

Definition with_tr_unrejected_date (v : option datetime) (x : Translation) : Translation :=
  Build_Translation (tr_id x) (tr_entity x) (tr_locale x) (tr_string x)
    (tr_plural_form x) (tr_date x) (tr_active x) (tr_approved x)
    (tr_approved_date x) (tr_unapproved_date x) (tr_pretranslated x) (tr_fuzzy
    x) (tr_rejected x) (tr_rejected_date x) v.

Record TranslatedResource : Type := {
  tres_id : option Z;
  tres_resource : option Z;
  tres_locale : Z;
  tres_total_strings : Z
}.

Record ChangedEntityLocale : Type := {
  cel_entity : Z;
  cel_locale : Z
}.

Inductive ActionType : Type :=
| TRANSLATION_CREATED
| TRANSLATION_APPROVED
| TRANSLATION_UNREJECTED
| TRANSLATION_REJECTED.

(** The translation an action refers to: a saved row, or the [n]-th object
    of [new_translations], whose key is known once [bulk_create] returns. *)
Inductive TxRef : Type :=
| Saved (id : option Z)
| Unsaved (n : nat).

(** [al_created_at] is [None] when the constructor call passes no
    [created_at]: the column is then filled by the model's own default and
    not by the caller. *)
Record ActionLog : Type := {
  al_action_type : ActionType;
  al_created_at : option datetime;
  al_performed_by : Z;
  al_translation : TxRef
}.

Record DB : Type := {
  db_locales : list Locale;
  db_users : list User;
  db_resources : list Resource;
  db_entities : list Entity;
  db_translated_resources : list TranslatedResource;
  db_translations : list Translation;
  db_changed_entity_locales : list ChangedEntityLocale;
  db_action_log : list ActionLog
}.

Definition with_db_resources (v : list Resource) (db : DB) : DB :=
  Build_DB (db_locales db) (db_users db) v (db_entities db)
    (db_translated_resources db) (db_translations db)
    (db_changed_entity_locales db) (db_action_log db).

Definition with_db_entities (v : list Entity) (db : DB) : DB :=
  Build_DB (db_locales db) (db_users db) (db_resources db) v
    (db_translated_resources db) (db_translations db)
    (db_changed_entity_locales db) (db_action_log db).

Definition with_db_translated_resources (v : list TranslatedResource) (db : DB)
  : DB :=
  Build_DB (db_locales db) (db_users db) (db_resources db) (db_entities db) v
    (db_translations db) (db_changed_entity_locales db) (db_action_log db).

Definition with_db_translations (v : list Translation) (db : DB) : DB :=
  Build_DB (db_locales db) (db_users db) (db_resources db) (db_entities db)
    (db_translated_resources db) v (db_changed_entity_locales db)
    (db_action_log db).

Definition with_db_changed_entity_locales (v : list ChangedEntityLocale)
  (db : DB) : DB :=
  Build_DB (db_locales db) (db_users db) (db_resources db) (db_entities db)
    (db_translated_resources db) (db_translations db) v (db_action_log db).

Definition with_db_action_log (v : list ActionLog) (db : DB) : DB :=
  Build_DB (db_locales db) (db_users db) (db_resources db) (db_entities db)
    (db_translated_resources db) (db_translations db)
    (db_changed_entity_locales db) v.

(* ================================================================== *)
(** * The object-relational layer

    What the sync uses of Django's [Manager] and [QuerySet]. *)
(* ================================================================== *)

(** A foreign key matches a primary key; SQL [NULL] matches nothing. *)
Definition fk_eq (fk pk : option Z) : bool :=
  match fk, pk with
  | Some a, Some b => a =? b
  | _, _ => false
  end.

Definition is_none {A} (o : option A) : bool :=
  match o with None => true | Some _ => false end.

Definition is_nil {A} (l : list A) : bool :=
  match l with [] => true | _ :: _ => false end.

(** A model: its primary key, and its columns by name.  [get_field name]
    is the write of column [name] from an in-memory object into a row; it is
    [None] for a name that is no column of the model. *)
Class Model (R : Type) : Type := {
  pk : R -> option Z;
  set_pk : option Z -> R -> R;
  get_field : string -> option (R -> R -> R)
}.

#[export] Instance Model_Resource : Model Resource := {|
  pk := res_id;
  set_pk := with_res_id;
  get_field := fun name =>
    if String.eqb name "total_strings"
    then Some (fun o => with_res_total_strings (res_total_strings o))
    else if String.eqb name "order"
    then Some (fun o => with_res_order (res_order o))
    else None
|}.

#[export] Instance Model_Entity : Model Entity := {|
  pk := ent_id;
  set_pk := with_ent_id;
  get_field := fun name =>
    if String.eqb name "string"
    then Some (fun o => with_ent_string (ent_string o))
    else if String.eqb name "string_plural"
    then Some (fun o => with_ent_string_plural (ent_string_plural o))
    else if String.eqb name "comment"
    then Some (fun o => with_ent_comment (ent_comment o))
    else if String.eqb name "source"
    then Some (fun o => with_ent_source (ent_source o))
    else if String.eqb name "group_comment"
    then Some (fun o => with_ent_group_comment (ent_group_comment o))
    else if String.eqb name "resource_comment"
    then Some (fun o => with_ent_resource_comment (ent_resource_comment o))
    else if String.eqb name "context"
    then Some (fun o => with_ent_context (ent_context o))
    else if String.eqb name "obsolete"
    then Some (fun o => with_ent_obsolete (ent_obsolete o))
    else if String.eqb name "date_obsoleted"
    then Some (fun o => with_ent_date_obsoleted (ent_date_obsoleted o))
    else None
|}.

#[export] Instance Model_Translation : Model Translation := {|
  pk := tr_id;
  set_pk := with_tr_id;
  get_field := fun name =>
    if String.eqb name "active"
    then Some (fun o => with_tr_active (tr_active o))
    else if String.eqb name "approved"
    then Some (fun o => with_tr_approved (tr_approved o))
    else if String.eqb name "approved_date"
    then Some (fun o => with_tr_approved_date (tr_approved_date o))
    else if String.eqb name "unapproved_date"
    then Some (fun o => with_tr_unapproved_date (tr_unapproved_date o))
    else if String.eqb name "pretranslated"
    then Some (fun o => with_tr_pretranslated (tr_pretranslated o))
    else if String.eqb name "fuzzy"
    then Some (fun o => with_tr_fuzzy (tr_fuzzy o))
    else if String.eqb name "rejected"
    then Some (fun o => with_tr_rejected (tr_rejected o))
    else if String.eqb name "rejected_date"
    then Some (fun o => with_tr_rejected_date (tr_rejected_date o))
    else if String.eqb name "unrejected_date"
    then Some (fun o => with_tr_unrejected_date (tr_unrejected_date o))
    else None
|}.

#[export] Instance Model_TranslatedResource : Model TranslatedResource := {|
  pk := tres_id;
  set_pk := fun v x =>
    Build_TranslatedResource v (tres_resource x) (tres_locale x)
      (tres_total_strings x);
  get_field := fun _ => None
|}.

Section Orm.
Context {R : Type} `{Model R}.

(** The key a table's sequence hands out next. *)
Definition next_pk (table : list R) : Z :=
  1 + fold_right (fun r m => match pk r with Some i => Z.max i m | None => m end)
        0 table.

Fixpoint assign_pks (next : Z) (objs : list R) : list R :=
  match objs with
  | [] => []
  | o :: os =>
      match pk o with
      | Some _ => o :: assign_pks next os
      | None => set_pk (Some next) o :: assign_pks (next + 1) os
      end
  end.

(** [Model.objects.bulk_create(objs)]: the objects with their keys set, in
    the order given; the rows are appended to the table. *)
Definition bulk_create (table objs : list R) : list R * list R :=
  let created := assign_pks (next_pk table) objs in
  ((table ++ created)%list, created).

(** [Model.objects.bulk_update(objs, fields)].  Django refuses an empty
    [fields], an object without a primary key and a name that is no column,
    in this order, before it looks at the rows; it then writes the listed
    columns of each object to the row with the object's key.  The number of
    rows it returns is only logged by the sync and is not kept. *)
Definition bulk_update (table objs : list R) (fields : list string)
  : result (list R) :=
  if is_nil fields then Raise ValueError
  else if existsb (fun o => is_none (pk o)) objs then Raise ValueError
  else
    cols <- map_result
              (fun name =>
                 match get_field name with
                 | Some c => Ok c
                 | None => Raise FieldDoesNotExist
                 end) fields ;;
    Ok (map (fun row =>
               match find (fun o => fk_eq (pk o) (pk row)) objs with
               | Some o => fold_left (fun r c => c o r) cols row
               | None => row
               end) table).
End Orm.

(** Iterating a [str] yields its characters: this is what a call receives
    that is given [("name")], a parenthesised string, where a tuple of
    column names was meant. *)
Fixpoint chars_of (s : string) : list string :=
  match s with
  | EmptyString => []
  | String c s' => String c EmptyString :: chars_of s'
  end.

(** [Model.objects.get(...)] over the rows that satisfy the lookup. *)
Definition orm_get {R} (p : R -> bool) (table : list R) : result R :=
  match filter p table with
  | [] => Raise DoesNotExist
  | [r] => Ok r
  | _ :: _ :: _ => Raise MultipleObjectsReturned
  end.

(* ================================================================== *)
(** * External collaborators *)
(* ================================================================== *)

(** A parsed entry of a reference (source-language) file.  [tx_order] is
    [None] for Python's [None].  [tx_group_comments] and
    [tx_resource_comments] are [None] when the object has no such attribute,
    which is what [hasattr] tests. *)
Record SilmeEntity : Type := {
  tx_key : string;
  tx_source_string : string;
  tx_source_string_plural : string;
  tx_comments : list string;
  tx_order : option Z;
  tx_source : string;
  tx_context : string;
  tx_group_comments : option (list string);
  tx_resource_comments : option (list string)
}.

Record SilmeResource : Type := {
  sr_entities : list SilmeEntity;
  sr_translations : list SilmeEntity
}.

(** A parsed entry of a target (translated) file: [strings] maps a plural
    form, or [None], to the translated string. *)
Record VCSTranslation : Type := {
  vt_key : string;
  vt_strings : dict (option Z) string;
  vt_fuzzy : bool
}.

(** The path resolver ([L10nConfigPaths] or [L10nDiscoverPaths]).  Its
    methods read the attributes [base] and [locales], which the sync assigns,
    so they take them as arguments. *)
Record PathsMethods : Type := {
  m_find_reference :
    option string -> list string -> string ->
    option (string * dict string string);
  m_target_path :
    option string -> list string -> string -> string -> option string;
  m_target_locales : option string -> list string -> string -> list string
}.

Record Paths : Type := {
  ref_root : string;
  base : option string;
  locales : list string;
  methods : PathsMethods
}.

Definition find_reference (p : Paths) : string -> option (string * dict string string) :=
  m_find_reference (methods p) (base p) (locales p).

Definition target_path (p : Paths) : string -> string -> option string :=
  m_target_path (methods p) (base p) (locales p).

Definition target_locales (p : Paths) : string -> list string :=
  m_target_locales (methods p) (base p) (locales p).

(* ================================================================== *)
(** * sync_entities_from_repo.py *)
(* ================================================================== *)

(** [a or b] on an integer that may be [None]: [None] and [0] are falsy. *)
Definition int_or (a : option Z) (b : Z) : Z :=
  match a with
  | Some v => if v =? 0 then b else v
  | None => b
  end.

(** ["\n".join(x)] where [x] may be [None]: [str.join] raises [TypeError]
    on an argument that is not iterable. *)
Definition join_lines_of (x : option (list string)) : result string :=
  match x with
  | Some xs => Ok (join_lines xs)
  | None => Raise TypeError
  end.

(** [entity_from_source(resource, now, idx, tx)].  The two conditional
    expressions [tx.a if hasattr(tx, "a") else None] evaluate to the
    attribute, or to [None] when it is missing. *)
Definition entity_from_source (resource : Resource) (now : datetime)
  (idx : Z) (tx : SilmeEntity) : result Entity :=
  group_comment <- join_lines_of (tx_group_comments tx) ;;
  resource_comment <- join_lines_of (tx_resource_comments tx) ;;
  Ok {| ent_id := None;
        ent_resource := res_id resource;
        ent_string := tx_source_string tx;
        ent_string_plural := tx_source_string_plural tx;
        ent_key := tx_key tx;
        ent_comment := join_lines (tx_comments tx);
        ent_order := int_or (tx_order tx) idx;
        ent_source := tx_source tx;
        ent_group_comment := group_comment;
        ent_resource_comment := resource_comment;
        ent_context := tx_context tx;
        ent_obsolete := false;
        ent_date_obsoleted := None;
        ent_date_created := now |}.

Definition entities_same (a b : Entity) : bool :=
  String.eqb (ent_string a) (ent_string b)
  && String.eqb (ent_string_plural a) (ent_string_plural b)
  && String.eqb (ent_comment a) (ent_comment b)
  && String.eqb (ent_source a) (ent_source b)
  && String.eqb (ent_group_comment a) (ent_group_comment b)
  && String.eqb (ent_resource_comment a) (ent_resource_comment b)
  && String.eqb (ent_context a) (ent_context b).

(** [project.resources]: the rows of the related manager. *)
Definition project_resources (project : Z) (db : DB) : list Resource :=
  filter (fun r => fk_eq (res_project r) (Some project)) (db_resources db).

(** Modelled from the spec: the models are not part of the sources; a
    Resource owns its Entities and TranslatedResources and an Entity owns
    its Translations, so deleting resources deletes these rows with them
    (and the change markers of the deleted entities). *)
Definition delete_resources (doomed : list Resource) (db : DB) : DB :=
  let gone_res := fun fk => existsb (fun r => fk_eq fk (res_id r)) doomed in
  let dead_entities := filter (fun e => gone_res (ent_resource e)) (db_entities db) in
  let gone_ent := fun i => existsb (fun e => fk_eq (Some i) (ent_id e)) dead_entities in
  {| db_locales := db_locales db;
     db_users := db_users db;
     db_resources :=
       filter (fun r => negb (gone_res (res_id r))) (db_resources db);
     db_entities :=
       filter (fun e => negb (gone_res (ent_resource e))) (db_entities db);
     db_translated_resources :=
       filter (fun t => negb (gone_res (tres_resource t)))
         (db_translated_resources db);
     db_translations :=
       filter (fun t => negb (gone_ent (tr_entity t))) (db_translations db);
     db_changed_entity_locales :=
       filter (fun c => negb (gone_ent (cel_entity c)))
         (db_changed_entity_locales db);
     db_action_log := db_action_log db |}.

Section SyncEntities.

(** [os.path.relpath], [pontoon.sync.formats.parse] with a [locale] only,
    [Resource.get_path_format], [os.path.isfile] and the default of the
    [order] column of a new [Resource]. *)
Variable relpath : string -> string -> string.
Variable parse_source : string -> Locale -> result SilmeResource.
Variable get_path_format : string -> string.
Variable isfile : string -> bool.
Variable default_order : Z.

Definition remove_resources (db : DB) (project : Z) (ref_root : string)
  (remove : list string) : DB * list string :=
  if is_nil remove then (db, [])
  else
    let removed_paths := map (fun path => strip_pot (relpath path ref_root)) remove in
    let removed_resources :=
      filter (fun r => mem (res_path r) removed_paths)
        (project_resources project db) in
    let removed_paths := map res_path removed_resources in
    if is_nil removed_paths then (db, removed_paths)
    else (delete_resources removed_resources db, removed_paths).

(** The key of an entity within its resource: [e.key or e.string]. *)
Definition ent_key_or_string (e : Entity) : string :=
  str_or (ent_key e) (ent_string e).

(** [prev_entities]: the non-obsolete entities of the changed resources,
    under [(e.resource.path, e.key or e.string)]. *)
Definition prev_entities_of (changed_resources : list Resource) (db : DB)
  : dict (string * string) Entity :=
  dict_of
    (flat_map
       (fun e =>
          if ent_obsolete e then []
          else
            match find (fun cr => fk_eq (ent_resource e) (res_id cr))
                    changed_resources with
            | Some cr => [((res_path cr, ent_key_or_string e), e)]
            | None => []
            end)
       (db_entities db)).

(** [updates[path].attr]: attribute access on [None] raises. *)
Definition parsed_of (updates : dict string (option SilmeResource))
  (path : string) : result SilmeResource :=
  u <- dict_item updates path ;;
  match u with
  | Some r => Ok r
  | None => Raise AttributeError
  end.

(** [next_entities]: one entity per parsed entry of each changed resource,
    built with index 0, under [(path, entity.key or entity.string)]. *)
Definition next_entities_of (changed_resources : list Resource)
  (updates : dict string (option SilmeResource)) (now : datetime)
  : result (dict (string * string) Entity) :=
  pairs <- map_result
             (fun cr =>
                r <- parsed_of updates (res_path cr) ;;
                map_result
                  (fun tx =>
                     entity <- entity_from_source cr now 0 tx ;;
                     Ok ((res_path cr, ent_key_or_string entity), entity))
                  (sr_translations r))
             changed_resources ;;
  Ok (dict_of (List.concat pairs)).

(** The entities handed to the last [bulk_create] of [update_resources]:
    those of [next_entities] whose key is not one of [prev_entities]. *)
Definition added_entities_of (prev_entities next_entities : dict (string * string) Entity)
  : list Entity :=
  map snd
    (filter (fun kv => negb (dict_has prev_entities (fst kv))) next_entities).

(** [resources.filter(path__in=updates.keys())] *)
Definition is_changed (updates : dict string (option SilmeResource))
  (r : Resource) : bool :=
  mem (res_path r) (dict_keys updates).

(** The second part of [update_resources], from [prev_entities] on:
    obsolete the entities that disappeared, write the ones that differ,
    insert the new ones. [changed_resources] are the objects the first
    part iterated. *)
Definition update_entities (db : DB) (project : Z)
  (changed_resources : list Resource)
  (updates : dict string (option SilmeResource)) (now : datetime)
  : result (DB * list string) :=
  let prev_entities := prev_entities_of changed_resources db in
  next_entities <- next_entities_of changed_resources updates now ;;
  let obsolete_entities :=
    map (fun kv =>
           with_ent_date_obsoleted (Some now) (with_ent_obsolete true (snd kv)))
      (filter (fun kv => negb (dict_has next_entities (fst kv)))
         prev_entities) in
  entities' <-
    bulk_update (db_entities db) obsolete_entities
      ["obsolete"; "date_obsoleted"] ;;
  let db := with_db_entities entities' db in
  entities' <-
    bulk_update (db_entities db)
      (map snd
         (filter
            (fun kv =>
               match dict_get prev_entities (fst kv) with
               | Some prev => negb (entities_same (snd kv) prev)
               | None => false
               end)
            next_entities))
      ["string"; "string_plural"; "comment"; "source"; "group_comment";
       "resource_comment"; "context"] ;;
  let db := with_db_entities entities' db in
  let '(entities', _) :=
    bulk_create (db_entities db)
      (added_entities_of prev_entities next_entities) in
  let db := with_db_entities entities' db in
  Ok (db,
      map res_path (filter (is_changed updates) (project_resources project db))).

(** [update_resources]: the string counts of the changed resources, then
    their entities. The column list of the first [bulk_update] is the
    string [("total_strings")]. *)
Definition update_resources (db : DB) (project : Z)
  (updates : dict string (option SilmeResource)) (now : datetime)
  : result (DB * list string) :=
  if is_nil updates then Ok (db, [])
  else
    changed_resources <-
      map_result
        (fun cr =>
           r <- parsed_of updates (res_path cr) ;;
           Ok (with_res_total_strings (Z.of_nat (List.length (sr_entities r))) cr))
        (filter (is_changed updates) (project_resources project db)) ;;
    resources' <-
      bulk_update (db_resources db) changed_resources
        (chars_of "total_strings") ;;
    update_entities (with_db_resources resources' db) project
      changed_resources updates now.

Fixpoint enumerate_from {A} (i : Z) (xs : list A) : list (Z * A) :=
  match xs with
  | [] => []
  | x :: xs' => (i, x) :: enumerate_from (i + 1) xs'
  end.

(** [enumerate(xs)] *)
Definition enumerate {A} (xs : list A) : list (Z * A) := enumerate_from 0 xs.

(** [order_by("path")]: the rows in ascending order of their path. *)
Fixpoint insert_by_path (r : Resource) (rs : list Resource) : list Resource :=
  match rs with
  | [] => [r]
  | r' :: rs' =>
      if String.leb (res_path r) (res_path r') then r :: r' :: rs'
      else r' :: insert_by_path r rs'
  end.

Definition order_by_path (rs : list Resource) : list Resource :=
  fold_right insert_by_path [] rs.

Definition is_translated_resource (locale_map : dict string Locale)
  (paths : Paths) (resource : Resource) (locale_code : string) : bool :=
  if negb (dict_has locale_map locale_code) then false
  else if mem (res_format resource) ["po"; "xliff"] then
    match target_path paths (res_path resource) locale_code with
    | Some target_path => isfile target_path
    | None => false
    end
  else true.

Definition add_resources (db : DB) (project : Z)
  (locale_map : dict string Locale) (paths : Paths)
  (updates : dict string (option SilmeResource))
  (changed_paths : list string) (now : datetime)
  : result (DB * list string) :=
  let added_resources :=
    flat_map
      (fun kv =>
         match snd kv with
         | Some res =>
             if negb (mem (fst kv) changed_paths) then
               [ {| res_id := None;
                    res_project := None;
                    res_path := fst kv;
                    res_format := get_path_format (fst kv);
                    res_total_strings := Z.of_nat (List.length (sr_entities res));
                    res_order := default_order |} ]
             else []
         | None => []
         end)
      updates in
  if is_nil added_resources then Ok (db, [])
  else
    let '(resources', added_resources) :=
      bulk_create (db_resources db) added_resources in
    let db := with_db_resources resources' db in
    let ordered_resources :=
      map (fun ir => with_res_order (fst ir) (snd ir))
        (enumerate (order_by_path (project_resources project db))) in
    resources' <- bulk_update (db_resources db) ordered_resources ["order"] ;;
    let db := with_db_resources resources' db in
    new_entities <-
      map_result
        (fun resource =>
           r <- parsed_of updates (res_path resource) ;;
           map_result
             (fun it => entity_from_source resource now (fst it) (snd it))
             (enumerate (sr_translations r)))
        added_resources ;;
    let '(entities', _) := bulk_create (db_entities db) (List.concat new_entities) in
    let db := with_db_entities entities' db in
    new_translated <-
      map_result
        (fun resource =>
           map_result
             (fun locale_code =>
                locale <- dict_item locale_map locale_code ;;
                Ok {| tres_id := None;
                      tres_resource := res_id resource;
                      tres_locale := loc_id locale;
                      tres_total_strings := res_total_strings resource |})
             (filter (is_translated_resource locale_map paths resource)
                (target_locales paths (res_path resource))))
        added_resources ;;
    let '(translated', _) :=
      bulk_create (db_translated_resources db) (List.concat new_translated) in
    let db := with_db_translated_resources translated' db in
    Ok (db, map res_path added_resources).

(** [try: res = parse(path, locale=source_locale) except ParseError: res = None] *)
Definition parse_or_None (path : string) (source_locale : Locale)
  : result (option SilmeResource) :=
  match parse_source path source_locale with
  | Ok r => Ok (Some r)
  | Raise ParseError => Ok None
  | Raise e => Raise e
  end.

(** [sync_entities_from_repo].  The three phases run inside
    [transaction.atomic()]: when one raises, the database is left as it was,
    which is what the [Raise] branch returns to the caller.  The result is
    the database and [(added_paths, changed_paths, removed_paths)]. *)
Definition sync_entities_from_repo (db : DB) (project : Z)
  (locale_map : dict string Locale) (paths : Paths) (ref_root : string)
  (changed removed : list string) (now : datetime)
  : result (DB * (list string * list string * list string)) :=
  source_locale <-
    orm_get (fun l => String.eqb (loc_code l) "en-US") (db_locales db) ;;
  updates <-
    for_each
      (fun updates path =>
         let db_path := relpath (strip_pot path) ref_root in
         res <- parse_or_None path source_locale ;;
         Ok (dict_set updates db_path res))
      changed [] ;;
  let '(db, removed_paths) := remove_resources db project ref_root removed in
  '(db, changed_paths) <- update_resources db project updates now ;;
  '(db, added_paths) <-
    add_resources db project locale_map paths updates changed_paths now ;;
  Ok (db, (added_paths, changed_paths, removed_paths)).

End SyncEntities.

(* ================================================================== *)
(** * checkout.py: the data of a checkout *)
(* ================================================================== *)

(** A value of [last_synced_revisions] is [None] here when it is not a
    [str]. *)
Record Repository : Type := {
  repo_id : Z;
  repo_type : string;
  repo_url : string;
  repo_branch : string;
  repo_checkout_path : string;
  repo_source_repo : bool;
  repo_last_synced_revisions : option (dict string (option string))
}.

Record Checkout : Type := {
  co_locale_code : option string;
  co_repo : Repository;
  co_is_source : bool;
  co_url : string;
  co_path : string;
  co_prev_commit : option string;
  co_commit : option string;
  co_changed : list string;
  co_removed : list string
}.

(** [co == ref_checkout] is object identity in Python. [get_checkouts]
    builds one [Checkout] per repository and locale code, so this pair
    identifies the object. *)
Definition same_checkout (a b : Checkout) : bool :=
  (repo_id (co_repo a) =? repo_id (co_repo b))
  && keqb (co_locale_code a) (co_locale_code b).

(* ================================================================== *)
(** * sync_translations_from_repo.py *)
(* ================================================================== *)

(** [(db_path, tx.key, locale.id)] *)
Definition TxKey : Type := (string * string * Z)%type.

(** [(plural_form -> string, fuzzy)] *)
Definition RepoTx : Type := (dict (option Z) string * bool)%type.

(** [s.add(x)] on a set *)
Definition set_add {K} `{EqKey K} (x : K) (s : list K) : list K :=
  if mem x s then s else (s ++ [x])%list.

(** The rows of [Translation ... .values("entity__resource__path",
    "entity__key", "entity__string", "locale_id", "plural_form", "string")]
    with the entity's key already reduced to [key or string]. *)
Record TranslationValues : Type := {
  tv_path : string;
  tv_key : string;
  tv_locale_id : Z;
  tv_plural_form : option Z;
  tv_string : string
}.

(** The join [translation -> entity -> resource]. *)
Definition entities_with_id (db : DB) (id : Z) : list Entity :=
  filter (fun e => fk_eq (Some id) (ent_id e)) (db_entities db).

Definition resources_with_id (db : DB) (fk : option Z) : list Resource :=
  filter (fun r => fk_eq fk (res_id r)) (db_resources db).

(** [Translation.objects.filter(tr_q).filter(Q(approved=True) |
    Q(pretranslated=True)).values(...)], where [tr_q] is the disjunction of
    [Q(entity__resource=res, locale_id=locale_id)] over its pairs. *)
Definition approved_or_pretranslated (db : DB) (tr_q : list (Resource * Z))
  : list TranslationValues :=
  flat_map
    (fun t =>
       if tr_approved t || tr_pretranslated t then
         flat_map
           (fun e =>
              flat_map
                (fun r =>
                   if existsb
                        (fun q => fk_eq (res_id (fst q)) (res_id r)
                                  && (snd q =? tr_locale t))
                        tr_q
                   then [ {| tv_path := res_path r;
                             tv_key := str_or (ent_key e) (ent_string e);
                             tv_locale_id := tr_locale t;
                             tv_plural_form := tr_plural_form t;
                             tv_string := tr_string t |} ]
                   else [])
                (resources_with_id db (ent_resource e)))
           (entities_with_id db (tr_entity t))
       else [])
    (db_translations db).

(** One turn of the loop that drops what the database already holds. *)
Definition strip_match (translations : dict TxKey RepoTx)
  (tx : TranslationValues) : dict TxKey RepoTx :=
  let key := (tv_path tx, tv_key tx, tv_locale_id tx) in
  match dict_get translations key with
  | Some (strings, fuzzy) =>
      if keqb (dict_get strings (tv_plural_form tx)) (Some (tv_string tx))
      then
        if (1 <? List.length strings)%nat
        then dict_set translations key
               (dict_remove strings (tv_plural_form tx), fuzzy)
        else dict_remove translations key
      else translations
  | None => translations
  end.

(** [ChangedEntityLocale.objects.filter(entity__resource__project=project)
    .values(...)], as the keys the loop builds from the rows. *)
Definition changed_keys (db : DB) (project : Z) : list TxKey :=
  flat_map
    (fun c =>
       flat_map
         (fun e =>
            flat_map
              (fun r =>
                 if fk_eq (res_project r) (Some project)
                 then [(res_path r, str_or (ent_key e) (ent_string e),
                        cel_locale c)]
                 else [])
              (resources_with_id db (ent_resource e)))
         (entities_with_id db (cel_entity c)))
    (db_changed_entity_locales db).

(** [if key in translations: del translations[key]] *)
Definition drop_changed (translations : dict TxKey RepoTx) (key : TxKey)
  : dict TxKey RepoTx :=
  if dict_has translations key then dict_remove translations key
  else translations.

(** A disjunct of [translations_to_reject]:
    [Q(entity, locale, plural_form) & ~Q(id=...)]. *)
Record RejectQ : Type := {
  rq_entity : Z;
  rq_locale : Z;
  rq_plural_form : option Z;
  rq_not_id : option Z
}.

Definition reject_matches (t : Translation) (q : RejectQ) : bool :=
  (tr_entity t =? rq_entity q)
  && (tr_locale t =? rq_locale q)
  && keqb (tr_plural_form t) (rq_plural_form q)
  && negb (keqb (tr_id t) (rq_not_id q)).

(** A disjunct of [matching_suggestions_q]. *)
Definition SuggestionQ : Type := (Z * Z * option Z * string)%type.

Definition suggestion_matches (t : Translation) (q : SuggestionQ) : bool :=
  let '(entity_id, locale_id, plural_form, s) := q in
  (tr_entity t =? entity_id)
  && (tr_locale t =? locale_id)
  && keqb (tr_plural_form t) plural_form
  && String.eqb (tr_string t) s.

(** [filter(q)] for a disjunction [q]: Django adds no condition for an
    empty [Q()], so every row passes. *)
Definition q_filter {R C} (matches : R -> C -> bool) (q : list C) (r : R)
  : bool :=
  is_nil q || existsb (matches r) q.

(** [tx.get_dirty_fields()]: the columns whose value differs from the one
    the row was loaded with. *)
Definition get_dirty_fields (loaded tx : Translation) : list string :=
  (if Bool.eqb (tr_active loaded) (tr_active tx) then [] else ["active"])
  ++ (if Bool.eqb (tr_approved loaded) (tr_approved tx) then []
      else ["approved"])
  ++ (if keqb (tr_approved_date loaded) (tr_approved_date tx) then []
      else ["approved_date"])
  ++ (if keqb (tr_unapproved_date loaded) (tr_unapproved_date tx) then []
      else ["unapproved_date"])
  ++ (if Bool.eqb (tr_pretranslated loaded) (tr_pretranslated tx) then []
      else ["pretranslated"])
  ++ (if Bool.eqb (tr_fuzzy loaded) (tr_fuzzy tx) then [] else ["fuzzy"])
  ++ (if Bool.eqb (tr_rejected loaded) (tr_rejected tx) then []
      else ["rejected"])
  ++ (if keqb (tr_rejected_date loaded) (tr_rejected_date tx) then []
      else ["rejected_date"])
  ++ (if keqb (tr_unrejected_date loaded) (tr_unrejected_date tx) then []
      else ["unrejected_date"]).

(** [s.update(xs)] on a set *)
Definition set_update {K} `{EqKey K} (s xs : list K) : list K :=
  fold_left (fun acc x => set_add x acc) xs s.

(** The state the first loop of [update_db_translations] threads. *)
Record ApproveState : Type := {
  as_repo_translations : dict (Z * Z) RepoTx;
  as_suggestions : list Translation;
  as_translations_to_reject : list RejectQ;
  as_actions : list ActionLog;
  as_dirty_fields : list string
}.

(** [if tx.rejected: ...] *)
Definition unreject (now : datetime) (tx : Translation) : Translation :=
  with_tr_unrejected_date (Some now) (with_tr_rejected false tx).

(** [if not fuzzy: ...], the assignments *)
Definition approve (now : datetime) (tx : Translation) : Translation :=
  with_tr_unapproved_date None
    (with_tr_pretranslated false
       (with_tr_approved_date (Some now) (with_tr_approved true tx))).

(** The values [rejected.update(...)] writes. *)
Definition reject (now : datetime) (tx : Translation) : Translation :=
  with_tr_fuzzy false
    (with_tr_pretranslated false
       (with_tr_rejected_date (Some now)
          (with_tr_rejected true
             (with_tr_approved_date None
                (with_tr_approved false (with_tr_active false tx)))))).

(** One turn of [for tx in suggestions]. [tx.entity] and [tx.locale] load
    the related rows. *)
Definition approve_suggestion (db : DB) (sync_user : User) (now : datetime)
  (st : ApproveState) (loaded : Translation) : result ApproveState :=
  let key := (tr_entity loaded, tr_locale loaded) in
  '(_, fuzzy) <- dict_item (as_repo_translations st) key ;;
  repo_translations <- dict_del (as_repo_translations st) key ;;
  let '(tx, actions) :=
    if tr_rejected loaded
    then (unreject now loaded,
          (as_actions st ++
           [ {| al_action_type := TRANSLATION_UNREJECTED;
                al_created_at := None;
                al_performed_by := user_id sync_user;
                al_translation := Saved (tr_id loaded) |} ])%list)
    else (loaded, as_actions st) in
  let tx := with_tr_fuzzy fuzzy (with_tr_active true tx) in
  '(tx, translations_to_reject, actions) <-
    (if negb fuzzy then
       _ <- orm_get (fun e => fk_eq (Some (tr_entity tx)) (ent_id e))
              (db_entities db) ;;
       _ <- orm_get (fun l => loc_id l =? tr_locale tx) (db_locales db) ;;
       Ok (approve now tx,
           (as_translations_to_reject st ++
            [ {| rq_entity := tr_entity tx;
                 rq_locale := tr_locale tx;
                 rq_plural_form := tr_plural_form tx;
                 rq_not_id := tr_id tx |} ])%list,
           (actions ++
            [ {| al_action_type := TRANSLATION_APPROVED;
                 al_created_at := None;
                 al_performed_by := user_id sync_user;
                 al_translation := Saved (tr_id tx) |} ])%list)
     else Ok (tx, as_translations_to_reject st, actions)) ;;
  Ok {| as_repo_translations := repo_translations;
        as_suggestions := (as_suggestions st ++ [tx])%list;
        as_translations_to_reject := translations_to_reject;
        as_actions := actions;
        as_dirty_fields :=
          set_update (as_dirty_fields st) (get_dirty_fields loaded tx) |}.

(** The objects built by [for ... in repo_translations.items(): for
    plural_form, string in strings.items(): tx = Translation(...)]. *)
Definition new_translations_of (repo_translations : dict (Z * Z) RepoTx)
  (now : datetime) : list Translation :=
  flat_map
    (fun kv =>
       let '((entity_id, locale_id), (strings, fuzzy)) := kv in
       map (fun ps =>
              {| tr_id := None;
                 tr_entity := entity_id;
                 tr_locale := locale_id;
                 tr_string := snd ps;
                 tr_plural_form := fst ps;
                 tr_date := now;
                 tr_active := true;
                 tr_approved := negb fuzzy;
                 tr_approved_date := if fuzzy then None else Some now;
                 tr_unapproved_date := None;
                 tr_pretranslated := false;
                 tr_fuzzy := fuzzy;
                 tr_rejected := false;
                 tr_rejected_date := None;
                 tr_unrejected_date := None |})
         strings)
    repo_translations.

(** [ActionLog.objects.bulk_create(actions)]: a reference to a new
    translation is written as the key that object received. *)
Definition resolve_action (created : list Translation) (a : ActionLog)
  : ActionLog :=
  match al_translation a with
  | Saved _ => a
  | Unsaved n =>
      {| al_action_type := al_action_type a;
         al_created_at := al_created_at a;
         al_performed_by := al_performed_by a;
         al_translation :=
           Saved (match nth_error created n with
                  | Some tx => tr_id tx
                  | None => None
                  end) |}
  end.

Definition update_db_translations (db : DB)
  (repo_translations : dict (Z * Z) RepoTx) (now : datetime) : result DB :=
  sync_user <-
    orm_get (fun u => String.eqb (username u) "pontoon-sync") (db_users db) ;;
  (* Approve matching suggestions *)
  let matching_suggestions_q : list SuggestionQ :=
    flat_map
      (fun kv =>
         map (fun ps => (fst (fst kv), snd (fst kv), fst ps, snd ps))
           (fst (snd kv)))
      repo_translations in
  let suggestions :=
    filter
      (fun t => q_filter suggestion_matches matching_suggestions_q t
                && negb (tr_approved t) && negb (tr_pretranslated t))
      (db_translations db) in
  st <- for_each (approve_suggestion db sync_user now) suggestions
          {| as_repo_translations := repo_translations;
             as_suggestions := [];
             as_translations_to_reject := [];
             as_actions := [];
             as_dirty_fields := [] |} ;;
  translations' <-
    bulk_update (db_translations db) (as_suggestions st) (as_dirty_fields st) ;;
  let db := with_db_translations translations' db in
  let repo_translations := as_repo_translations st in
  let translations_to_reject := as_translations_to_reject st in
  let actions := as_actions st in
  (* Add new approved translations for the remainder *)
  let '(db, created, translations_to_reject, actions) :=
    if negb (is_nil repo_translations) then
      let new_translations := new_translations_of repo_translations now in
      let actions :=
        (actions ++
         map (fun n =>
                {| al_action_type := TRANSLATION_CREATED;
                   al_created_at := Some now;
                   al_performed_by := user_id sync_user;
                   al_translation := Unsaved n |})
           (seq 0 (List.length new_translations)))%list in
      let '(translations', created) :=
        bulk_create (db_translations db) new_translations in
      (with_db_translations translations' db,
       created,
       (translations_to_reject ++
        map (fun tx =>
               {| rq_entity := tr_entity tx;
                  rq_locale := tr_locale tx;
                  rq_plural_form := tr_plural_form tx;
                  rq_not_id := tr_id tx |})
          created)%list,
       actions)
    else (db, [], translations_to_reject, actions) in
  let '(db, actions) :=
    if negb (is_nil translations_to_reject) then
      let is_rejected := fun t =>
        negb (tr_rejected t)
        && q_filter reject_matches translations_to_reject t in
      let rejected := filter is_rejected (db_translations db) in
      ((with_db_translations
          (map (fun t => if is_rejected t then reject now t else t)
             (db_translations db))
          db),
       (actions ++
        map (fun tx =>
               {| al_action_type := TRANSLATION_REJECTED;
                  al_created_at := None;
                  al_performed_by := user_id sync_user;
                  al_translation := Saved (tr_id tx) |})
          rejected)%list)
    else (db, actions) in
  if negb (is_nil actions) then
    Ok (with_db_action_log
          (db_action_log db ++ map (resolve_action created) actions)%list db)
  else Ok db.

Section SyncTranslations.

(** [os.path.join], [os.path.relpath], [os.path.splitext],
    [moz.l10n.resource.bilingual_extensions],
    [moz.l10n.paths.parse_android_locale] and
    [pontoon.sync.formats.parse] with a reference path, which yields
    [res.translations]. *)
Variable join : string -> string -> string.
Variable relpath : string -> string -> string.
Variable splitext : string -> string * string.
Variable bilingual_extensions : list string.
Variable parse_android_locale : string -> option string.
Variable parse_target : string -> string -> Locale -> result (list VCSTranslation).

Definition get_path_locale (path_vars : dict string string) : option string :=
  match dict_get path_vars "locale" with
  | Some l => Some l
  | None =>
      match dict_get path_vars "android_locale" with
      | Some a => parse_android_locale a
      | None => None
      end
  end.

(** [delete_removed_translated_resources]: the rows left and the number of
    rows deleted. [del_q] is a disjunction of
    [Q(resource__path=db_path, locale__code=locale_code)]. *)
Definition delete_removed_translated_resources (db : DB) (project : Z)
  (checkouts : list Checkout) (ref_checkout : Checkout) (paths : Paths)
  : DB * Z :=
  let del_q : list (string * string) :=
    flat_map
      (fun co =>
         if negb (same_checkout co ref_checkout) then
           flat_map
             (fun path =>
                let ext := snd (splitext path) in
                if mem ext bilingual_extensions then
                  match find_reference paths (join (co_path co) path) with
                  | Some (ref_path, path_vars) =>
                      match get_path_locale path_vars with
                      | Some locale_code =>
                          [(strip_pot (relpath ref_path (ref_root paths)),
                            locale_code)]
                      | None => []
                      end
                  | None => []
                  end
                else [])
             (co_removed co)
         else [])
      checkouts in
  if negb (is_nil del_q) then
    let doomed := fun t : TranslatedResource =>
      existsb
        (fun r =>
           fk_eq (res_project r) (Some project)
           && existsb
                (fun l =>
                   (loc_id l =? tres_locale t)
                   && mem (res_path r, loc_code l) del_q)
                (db_locales db))
        (resources_with_id db (tres_resource t)) in
    (with_db_translated_resources
       (filter (fun t => negb (doomed t)) (db_translated_resources db)) db,
     Z.of_nat (List.length (filter doomed (db_translated_resources db))))
  else (db, 0).

(** What the first loop of [find_updates_from_repo_to_db] collects. *)
Record Collected : Type := {
  resource_paths : list string;
  translated_resources : list (string * Z);
  translations : dict TxKey RepoTx
}.

(** The body of [for path in co.changed]; a file that does not resolve, a
    locale that is unknown and a parse that raises leave the state as it
    is. *)
Definition collect_path (locales : dict string Locale) (paths : Paths)
  (co : Checkout) (acc : Collected) (path : string) : Collected :=
  let target_path := join (co_path co) path in
  match find_reference paths target_path with
  | Some (ref_path, path_vars) =>
      match
        match get_path_locale path_vars with
        | Some locale_code => dict_get locales locale_code
        | None => None
        end
      with
      | Some locale =>
          match parse_target target_path ref_path locale with
          | Raise _ => acc
          | Ok res_translations =>
              let db_path := strip_pot (relpath ref_path (ref_root paths)) in
              {| resource_paths := set_add db_path (resource_paths acc);
                 translated_resources :=
                   set_add (db_path, loc_id locale) (translated_resources acc);
                 translations :=
                   dict_update (translations acc)
                     (map (fun tx =>
                             ((db_path, vt_key tx, loc_id locale),
                              (vt_strings tx, vt_fuzzy tx)))
                        res_translations) |}
          end
      | None => acc
      end
  | None => acc
  end.

Definition collect (locales : dict string Locale) (checkouts : list Checkout)
  (ref_checkout : Checkout) (paths : Paths) : Collected :=
  fold_left
    (fun acc co =>
       if negb (same_checkout co ref_checkout)
       then fold_left (collect_path locales paths co) (co_changed co) acc
       else acc)
    checkouts
    {| resource_paths := []; translated_resources := []; translations := [] |}.

(** [Entity.objects.filter(entity_q).values("id", "key", "string",
    "resource__path")] as pairs [((path, key or string), id)], where
    [entity_q] is the disjunction over its [(resource, ent_key)] of
    [Q(resource=...) & (Q(key=ent_key) | Q(key="", string=ent_key))]. *)
Definition matching_entities (db : DB) (entity_q : list (Resource * string))
  : list ((string * string) * Z) :=
  flat_map
    (fun e =>
       match ent_id e with
       | Some id =>
           if existsb
                (fun q =>
                   fk_eq (ent_resource e) (res_id (fst q))
                   && (String.eqb (ent_key e) (snd q)
                       || (String.eqb (ent_key e) ""
                           && String.eqb (ent_string e) (snd q))))
                entity_q
           then
             map (fun r => ((res_path r, str_or (ent_key e) (ent_string e)), id))
               (resources_with_id db (ent_resource e))
           else []
       | None => []
       end)
    (db_entities db).

(** [find_updates_from_repo_to_db]: [Ok None] is the [return None] of the
    source. Deleting a plural form from [strings] changes the dictionary a
    key of [translations] holds; here the entry is replaced. *)
Definition find_updates_from_repo_to_db (db : DB) (project : Z)
  (locales : dict string Locale) (checkouts : list Checkout)
  (ref_checkout : Checkout) (paths : Paths)
  : result (option (dict (Z * Z) RepoTx)) :=
  let c := collect locales checkouts ref_checkout paths in
  let translations := translations c in
  if is_nil translations then Ok None
  else
    let resources : dict string Resource :=
      dict_of
        (map (fun r => (res_path r, r))
           (filter (fun r => mem (res_path r) (resource_paths c))
              (project_resources project db))) in
    (* Exclude translations for which DB & repo already match *)
    let tr_q : list (Resource * Z) :=
      flat_map
        (fun dl =>
           match dict_get resources (fst dl) with
           | Some res => [(res, snd dl)]
           | None => []
           end)
        (translated_resources c) in
    let translations :=
      if negb (is_nil tr_q)
      then fold_left strip_match (approved_or_pretranslated db tr_q) translations
      else translations in
    if is_nil translations then Ok None
    else
      (* If repo and database both have changes, database wins. *)
      let translations :=
        fold_left drop_changed (changed_keys db project) translations in
      if is_nil translations then Ok None
      else
        entity_q <-
          map_result
            (fun kv =>
               let '(db_path, ent_key, _) := fst kv in
               r <- dict_item resources db_path ;;
               Ok (r, ent_key))
            translations ;;
        let entities : dict (string * string) Z :=
          dict_of (matching_entities db entity_q) in
        Ok (Some
              (fold_left
                 (fun res kv =>
                    let '(db_path, ent_key, locale_id) := fst kv in
                    match dict_get entities (db_path, ent_key) with
                    | Some entity_id =>
                        dict_set res (entity_id, locale_id) (snd kv)
                    | None => res
                    end)
                 translations [])).

(** [sync_translations_from_repo]. No transaction surrounds these calls, so
    the result is the database as it stands when the function returns or
    when an exception leaves it, with the outcome. Every exception of
    [update_db_translations] is raised before its first write. *)
Definition sync_translations_from_repo (db : DB) (project : Z)
  (locales : dict string Locale) (checkouts : list Checkout)
  (ref_checkout : Checkout) (paths : Paths) (now : datetime)
  : DB * result unit :=
  let '(db, _) :=
    delete_removed_translated_resources db project checkouts ref_checkout
      paths in
  match
    find_updates_from_repo_to_db db project locales checkouts ref_checkout
      paths
  with
  | Raise e => (db, Raise e)
  | Ok None => (db, Ok tt)
  | Ok (Some repo_translations) =>
      if negb (is_nil repo_translations) then
        match update_db_translations db repo_translations now with
        | Ok db' => (db', Ok tt)
        | Raise e => (db, Raise e)
        end
      else (db, Ok tt)
  end.

End SyncTranslations.

(* ================================================================== *)
(** * checkout.py, get_paths.py and sync_project.py *)
(* ================================================================== *)

(** The project row with its related rows, as the sync reads them. *)
Record Project : Type := {
  proj_id : Z;
  proj_slug : string;
  proj_configuration_file : string;
  proj_checkout_path : string;
  proj_repositories : list Repository;
  proj_locales : list Locale
}.

(** A directory of a working copy: its name, its sub-directories and the
    names of its files. *)
#[warnings="-register-all"]
Inductive FsTree : Type :=
| Dir (name : string) (dirs : list FsTree) (files : list string).

Definition dir_name (t : FsTree) : string :=
  match t with Dir name _ _ => name end.

(** [needle in s] *)
Fixpoint contains (needle s : string) : bool :=
  String.prefix needle s
  || match s with
     | EmptyString => false
     | String _ s' => contains needle s'
     end.

(** [s.startswith(".")] *)
Definition dotted (s : string) : bool := String.prefix "." s.

Fixpoint insert_by_code (l : Locale) (ls : list Locale) : list Locale :=
  match ls with
  | [] => [l]
  | l' :: ls' =>
      if String.leb (loc_code l) (loc_code l') then l :: l' :: ls'
      else l' :: insert_by_code l ls'
  end.

(** [project.locales.order_by("code")] *)
Definition order_by_code (ls : list Locale) : list Locale :=
  fold_right insert_by_code [] ls.

Section SyncProject.

(** The libraries: [os.path], [str.format] on a repository URL, the two
    path resolvers of [moz.l10n.paths], the parsers, and the state of the
    working copies once they are up to date: the revision of each, the
    files changed since a revision ([None] when the version control system
    fails) and the directory tree. *)
Variable join : string -> string -> string.
Variable relpath : string -> string -> string.
Variable normpath : string -> string.
Variable commonpath : string -> string -> string.
Variable splitext : string -> string * string.
Variable format_url : string -> string -> string.
Variable bilingual_extensions : list string.
Variable parse_android_locale : string -> option string.
Variable parse_source : string -> Locale -> result SilmeResource.
Variable parse_target : string -> string -> Locale -> result (list VCSTranslation).
Variable get_path_format : string -> string.
Variable isfile : string -> bool.
Variable default_order : Z.
Variable L10nConfigPaths : string -> Paths.
Variable L10nDiscoverPaths : string -> option string -> Paths.
Variable revision : string -> string -> option string.
Variable changed_files :
  string -> string -> string -> option (list string * list string).
Variable tree : string -> FsTree.

(** The loop over [walk(self.path)]: the files whose name, and whose
    directories' names below the checkout, do not start with a dot. *)
Fixpoint walk_changed (top root : string) (t : FsTree) : list string :=
  match t with
  | Dir _ dirs files =>
      let rel_root := if String.eqb root top then "" else relpath root top in
      (map (join rel_root) (filter (fun fn => negb (dotted fn)) files)
       ++ (fix subdirs (ds : list FsTree) : list string :=
             match ds with
             | [] => []
             | sub :: ds' =>
                 ((if dotted (dir_name sub) then []
                   else walk_changed top (join root (dir_name sub)) sub)
                  ++ subdirs ds')%list
             end) dirs)%list
  end.

(** [Checkout.__init__] *)
Definition Checkout_init (db_repo : Repository) (locale_code : option string)
  (pull : bool) : Checkout :=
  let '(is_source, url, path) :=
    match locale_code with
    | None =>
        (repo_source_repo db_repo, repo_url db_repo,
         normpath (repo_checkout_path db_repo))
    | Some lc =>
        (false, format_url (repo_url db_repo) lc,
         normpath (join (repo_checkout_path db_repo) lc))
    end in
  let prev_commit :=
    match repo_last_synced_revisions db_repo with
    | None => None
    | Some revs =>
        match dict_get revs
                (match locale_code with
                 | Some lc => str_or lc "single_locale"
                 | None => "single_locale"
                 end)
        with
        | Some pc => pc
        | None => None
        end
    end in
  let delta :=
    match prev_commit with
    | Some pc => changed_files (repo_type db_repo) path pc
    | None => None
    end in
  let '(changed, removed) :=
    match delta with
    | Some d => d
    | None => (walk_changed path path (tree path), [])
    end in
  {| co_locale_code := locale_code;
     co_repo := db_repo;
     co_is_source := is_source;
     co_url := url;
     co_path := path;
     co_prev_commit := prev_commit;
     co_commit := revision (repo_type db_repo) path;
     co_changed := changed;
     co_removed := removed |}.

Definition get_checkouts (project : Project) (pull : bool) : list Checkout :=
  flat_map
    (fun repo =>
       if contains "{locale_code}" (repo_url repo)
       then map (fun l => Checkout_init repo (Some (loc_code l)) pull)
              (proj_locales project)
       else [Checkout_init repo None pull])
    (proj_repositories project).

(** [paths.base = v] *)
Definition with_base (v : option string) (p : Paths) : Paths :=
  {| ref_root := ref_root p; base := v; locales := locales p;
     methods := methods p |}.

(** [paths.locales = v] *)
Definition with_locales (v : list string) (p : Paths) : Paths :=
  {| ref_root := ref_root p; base := base p; locales := v;
     methods := methods p |}.

(** [set(co.repo for co in checkouts if co != ref_checkout)] *)
Definition target_repos (checkouts : list Checkout) (ref_checkout : Checkout)
  : list Repository :=
  fold_left
    (fun acc co =>
       if negb (same_checkout co ref_checkout)
          && negb (existsb (fun r => repo_id r =? repo_id (co_repo co)) acc)
       then (acc ++ [co_repo co])%list
       else acc)
    checkouts [].

Definition get_paths (project : Project) (checkouts : list Checkout)
  : result (Paths * Checkout) :=
  let ref_checkout := find co_is_source checkouts in
  if negb (String.eqb (proj_configuration_file project) "") then
    ref_checkout <-
      match ref_checkout with
      | Some co => Ok co
      | None =>
          match filter (fun co => is_none (co_locale_code co)) checkouts with
          | [co] => Ok co
          | _ => Raise MissingSourceDirectoryError
          end
      end ;;
    let paths :=
      L10nConfigPaths
        (join (co_path ref_checkout) (proj_configuration_file project)) in
    if (1 <? List.length checkouts)%nat then
      match target_repos checkouts ref_checkout with
      | [target_repo] =>
          Ok (with_base (Some (repo_checkout_path target_repo)) paths,
              ref_checkout)
      | _ => Raise MissingLocaleDirectoryError
      end
    else Ok (paths, ref_checkout)
  else
    let paths :=
      L10nDiscoverPaths (proj_checkout_path project)
        (option_map co_path ref_checkout) in
    ref_checkout <-
      match ref_checkout with
      | Some co => Ok co
      | None =>
          match
            find (fun co =>
                    String.eqb (commonpath (co_path co) (ref_root paths))
                      (co_path co))
              checkouts
          with
          | Some co => Ok co
          | None => Raise StopIteration
          end
      end ;;
    if is_none (base paths) then Raise MissingLocaleDirectoryError
    else Ok (paths, ref_checkout).

(** [sync_project], from the line that takes [now] on. The rows of the
    sync log ([ProjectSyncLog], [RepositorySyncLog]) are a logging sink and
    are not part of the database modelled here; [project] is the row
    [Project.objects.get] returned. The result is the database as the run
    leaves it and the outcome: [sync_entities_from_repo] is transactional,
    [sync_translations_from_repo] is not. *)
Definition sync_project (db : DB) (project : Project) (pull : bool)
  (now : datetime) : DB * result unit :=
  let checkouts := get_checkouts project pull in
  if is_nil checkouts then (db, Raise NoRepositories)
  else
    match get_paths project checkouts with
    | Raise e => (db, Raise e)
    | Ok (paths, ref_checkout) =>
        let locale_map : dict string Locale :=
          dict_of
            (map (fun lc => (loc_code lc, lc))
               (order_by_code (proj_locales project))) in
        let paths := with_locales (dict_keys locale_map) paths in
        match
          sync_entities_from_repo relpath parse_source get_path_format
            isfile default_order db (proj_id project) locale_map paths
            (relpath (ref_root paths) (co_path ref_checkout))
            (co_changed ref_checkout) (co_removed ref_checkout) now
        with
        | Raise e => (db, Raise e)
        | Ok (db, _) =>
            sync_translations_from_repo join relpath splitext
              bilingual_extensions parse_android_locale parse_target db
              (proj_id project) locale_map checkouts ref_checkout paths now
        end
    end.

End SyncProject.

(* ================================================================== *)
(** * The invariant on active translations *)
(* ================================================================== *)

(** [count(active=true)] among the rows of [(entity, locale, plural_form)]. *)
Definition active_count (rows : list Translation) (entity locale : Z)
  (plural_form : option Z) : nat :=
  List.length
    (filter
       (fun t =>
          tr_active t && (tr_entity t =? entity) && (tr_locale t =? locale)
          && keqb (tr_plural_form t) plural_form)
       rows).

(** At most one active translation for every
    [(entity, locale, plural_form)]. *)
Definition at_most_one_active (rows : list Translation) : Prop :=
  forall entity locale plural_form,
    (active_count rows entity locale plural_form <= 1)%nat.

(** The rows of [(entity, locale)], whatever the plural form. *)
Definition rows_of (entity locale : Z) (rows : list Translation)
  : list Translation :=
  filter (fun t => (tr_entity t =? entity) && (tr_locale t =? locale)) rows.

(** Primary keys identify a row. *)
Definition unique_pks {R} `{Model R} (table : list R) : Prop :=
  NoDup (map pk table).

(** The change marker of [(entity, locale)]. *)
Definition changed_entity_locale (entity locale : Z) : ChangedEntityLocale :=
  {| cel_entity := entity; cel_locale := locale |}.

Definition wf_db (db : DB) : Prop :=
  unique_pks (db_resources db)
  /\ unique_pks (db_entities db)
  /\ unique_pks (db_translations db).

(* ================================================================== *)
(** * A small project, for the examples

    One project with a reference repository and a target repository, the
    locale [de], the resource [app.po] and its entity [hello]. *)
(* ================================================================== *)

Definition ex_join (a b : string) : string :=
  if String.eqb a "" then b else a ++ "/" ++ b.

Definition ex_relpath (p root : string) : string :=
  if String.eqb p root then "."
  else if String.prefix (root ++ "/") p
  then substring (String.length root + 1)
         (String.length p - String.length root - 1) p
  else p.

Definition ex_de : Locale := {| loc_id := 1; loc_code := "de" |}.
Definition ex_en_US : Locale := {| loc_id := 2; loc_code := "en-US" |}.

Definition ex_resource : Resource :=
  {| res_id := Some 1; res_project := Some 1; res_path := "app.po";
     res_format := "po"; res_total_strings := 1; res_order := 0 |}.

Definition ex_entity (id : Z) (key source_string : string) : Entity :=
  {| ent_id := Some id; ent_resource := Some 1; ent_string := source_string;
     ent_string_plural := ""; ent_key := key; ent_comment := "";
     ent_order := 0; ent_source := ""; ent_group_comment := "";
     ent_resource_comment := ""; ent_context := ""; ent_obsolete := false;
     ent_date_obsoleted := None; ent_date_created := 0 |}.

(** A translation of entity 1 into [de]; [approved] rows are active. *)
Definition ex_translation (id : Z) (plural_form : option Z) (s : string)
  (approved : bool) : Translation :=
  {| tr_id := Some id; tr_entity := 1; tr_locale := 1; tr_string := s;
     tr_plural_form := plural_form; tr_date := 0; tr_active := approved;
     tr_approved := approved; tr_approved_date := None;
     tr_unapproved_date := None; tr_pretranslated := false;
     tr_fuzzy := false; tr_rejected := false; tr_rejected_date := None;
     tr_unrejected_date := None |}.

Definition ex_db (rows : list Translation) : DB :=
  {| db_locales := [ex_de; ex_en_US];
     db_users := [ {| user_id := 7; username := "pontoon-sync" |} ];
     db_resources := [ex_resource];
     db_entities := [ex_entity 1 "hello" "Hello"];
     db_translated_resources := [];
     db_translations := rows;
     db_changed_entity_locales := [];
     db_action_log := [] |}.

(** A parsed source entry; [group_comments] tells whether the object has
    the attributes [group_comments] and [resource_comments]. *)
Definition ex_tx (key source_string : string) (order : option Z)
  (group_comments : option (list string)) : SilmeEntity :=
  {| tx_key := key; tx_source_string := source_string;
     tx_source_string_plural := "";
     tx_comments := []; tx_order := order; tx_source := "";
     tx_context := ""; tx_group_comments := group_comments;
     tx_resource_comments := group_comments |}.

Definition ex_src_repo : Repository :=
  {| repo_id := 1; repo_type := "git"; repo_url := "https://example.org/src";
     repo_branch := "main"; repo_checkout_path := "/co/src";
     repo_source_repo := true;
     repo_last_synced_revisions := Some [("single_locale", Some "r0")] |}.

Definition ex_l10n_repo : Repository :=
  {| repo_id := 2; repo_type := "git"; repo_url := "https://example.org/l10n";
     repo_branch := "main"; repo_checkout_path := "/co/l10n";
     repo_source_repo := false;
     repo_last_synced_revisions := Some [("single_locale", Some "t0")] |}.

Definition ex_project : Project :=
  {| proj_id := 1; proj_slug := "example"; proj_configuration_file := "";
     proj_checkout_path := "/co";
     proj_repositories := [ex_src_repo; ex_l10n_repo];
     proj_locales := [ex_de] |}.

(** The resolver: [/co/l10n/de/app.po] translates [/co/src/app.pot]. *)
Definition ex_methods : PathsMethods :=
  {| m_find_reference := fun _ _ target =>
       if String.eqb target "/co/l10n/de/app.po"
       then Some ("/co/src/app.pot", [("locale", "de")])
       else None;
     m_target_path := fun _ _ _ _ => None;
     m_target_locales := fun _ locales _ => locales |}.

Definition ex_paths (root : string) (ref : option string) : Paths :=
  {| ref_root := match ref with Some r => r | None => "/co/src" end;
     base := Some "/co/l10n";
     locales := [];
     methods := ex_methods |}.

(** Since the revisions last synced, nothing changed in the reference
    repository and [de/app.po] changed in the target repository. *)
Definition ex_changed_files (type path prev : string)
  : option (list string * list string) :=
  if String.eqb path "/co/l10n" then Some (["de/app.po"], []) else Some ([], []).

(** [de/app.po] holds the entry [hello] with the given strings. *)
Definition ex_parse_target (strings : dict (option Z) string) (fuzzy : bool)
  (target ref : string) (locale : Locale) : result (list VCSTranslation) :=
  Ok [ {| vt_key := "hello"; vt_strings := strings; vt_fuzzy := fuzzy |} ].

(** A run of [sync_project] on the example project; the target file is
    given by [strings] and [fuzzy]. *)
Definition ex_sync_project (strings : dict (option Z) string) (fuzzy : bool)
  (db : DB) (now : datetime) : DB * result unit :=
  sync_project ex_join ex_relpath (fun p => p) (fun a _ => a)
    (fun p => (p, "")) (fun url _ => url) [".po"] (fun _ => None)
    (fun _ _ => Raise ParseError) (ex_parse_target strings fuzzy)
    (fun _ => "po") (fun _ => false) 0 (fun _ => ex_paths "" None) ex_paths
    (fun _ _ => Some "r1") ex_changed_files (fun _ => Dir "" [] [])
    db ex_project true now.

(** A run of [sync_entities_from_repo] on the example project, with a
    reference parser [parse]. *)
Definition ex_sync_entities (parse : string -> Locale -> result SilmeResource)
  (db : DB) (changed removed : list string) (now : datetime)
  : result (DB * (list string * list string * list string)) :=
  sync_entities_from_repo ex_relpath parse (fun _ => "po") (fun _ => false) 0
    db 1 [("de", ex_de)] (ex_paths "" None) "." changed removed now.

(** Two suggestions and an approved translation, used below. *)
Definition ex_hallo : Translation := ex_translation 1 None "Hallo" false.
Definition ex_hallo_alt : Translation := ex_translation 2 None "Hallo alt" true.

(** The example database with [rows] as the translations and the marker
    that [hello] was changed for [de] since the last sync. *)
Definition ex_db_changed (rows : list Translation) : DB :=
  with_db_changed_entity_locales [changed_entity_locale 1 1] (ex_db rows).

(** The example project with the resources [b.po] and [a.po], whose orders
    are out of date. *)
Definition ex_db_two_resources : DB :=
  with_db_resources
    [ {| res_id := Some 1; res_project := Some 1; res_path := "b.po";
         res_format := "po"; res_total_strings := 1; res_order := 5 |};
      {| res_id := Some 2; res_project := Some 1; res_path := "a.po";
         res_format := "po"; res_total_strings := 1; res_order := 9 |} ]
    (ex_db []).

(* ================================================================== *)
(** * Notions used in the proofs *)
(* ================================================================== *)

(** [order_by("path")] is a sort. *)
Definition path_le (a b : Resource) : Prop :=
  String.leb (res_path a) (res_path b) = true.

(** The objects of the [bulk_update] of the orders: the sorted rows, each
    with its position. *)
Definition ranked_from (k : Z) (rs : list Resource) : list Resource :=
  map (fun ir => with_res_order (fst ir) (snd ir)) (enumerate_from k rs).

(** What the approval loop keeps true: the keys left are keys of the
    input; every object to write is a row of the table, under a key of the
    input; every rejection is scheduled under a key of the input. *)
Definition approve_invariant (db : DB) (rt0 : dict (Z * Z) RepoTx)
  (st : ApproveState) : Prop :=
  (forall k, In k (dict_keys (as_repo_translations st)) ->
             In k (dict_keys rt0))
  /\ (forall o, In o (as_suggestions st) ->
        In (tr_entity o, tr_locale o) (dict_keys rt0)
        /\ exists t, In t (db_translations db) /\ tr_id t = tr_id o
                     /\ tr_entity t = tr_entity o /\ tr_locale t = tr_locale o)
  /\ (forall q, In q (as_translations_to_reject st) ->
        In (rq_entity q, rq_locale q) (dict_keys rt0)).

(* ================================================================== *)
(** * Further data for the examples *)
(* ================================================================== *)

(** A parsed reference file with the entries [hello], [bye] and [later]. *)
Definition ex_parsed : SilmeResource :=
  {| sr_entities :=
       [ex_tx "hello" "Hello" None (Some []); ex_tx "bye" "Bye" None (Some []);
        ex_tx "later" "Later" (Some 7) (Some [])];
     sr_translations :=
       [ex_tx "hello" "Hello" None (Some []); ex_tx "bye" "Bye" None (Some []);
        ex_tx "later" "Later" (Some 7) (Some [])] |}.

(** The two checkouts of the example project: nothing changed in the
    reference repository, [de/app.po] changed in the target repository. *)
Definition ex_source_checkout : Checkout :=
  {| co_locale_code := None; co_repo := ex_src_repo; co_is_source := true;
     co_url := "https://example.org/src"; co_path := "/co/src";
     co_prev_commit := Some "r0"; co_commit := Some "r1";
     co_changed := []; co_removed := [] |}.

Definition ex_target_checkout : Checkout :=
  {| co_locale_code := None; co_repo := ex_l10n_repo; co_is_source := false;
     co_url := "https://example.org/l10n"; co_path := "/co/l10n";
     co_prev_commit := Some "t0"; co_commit := Some "r1";
     co_changed := ["de/app.po"]; co_removed := [] |}.

(** [find_updates_from_repo_to_db] on the example project; the target file
    is given by [strings] and [fuzzy]. *)
Definition ex_find_updates (strings : dict (option Z) string) (fuzzy : bool)
  (db : DB) : result (option (dict (Z * Z) RepoTx)) :=
  find_updates_from_repo_to_db ex_join ex_relpath (fun _ => None)
    (ex_parse_target strings fuzzy) db 1 [("de", ex_de)]
    [ex_source_checkout; ex_target_checkout] ex_source_checkout
    (ex_paths "" None).

(** An update with a new string for [hello] in [de], which is a
    suggestion in [ex_db_suggested], and a string for [hello] in [en-US],
    which has no translation there. *)
Definition ex_update : dict (Z * Z) RepoTx :=
  [((1, 1), ([(None, "Hallo neu")], false));
   ((1, 2), ([(None, "Hello")], false))].

Definition ex_db_suggested : DB :=
  ex_db [ex_translation 1 None "Hallo" true;
         ex_translation 2 None "Hallo neu" false].

(** The example database with the translated resource of [app.po] for
    [de]. *)
Definition ex_db_translated : DB :=
  with_db_translated_resources
    [ {| tres_id := Some 1; tres_resource := Some 1; tres_locale := 1;
         tres_total_strings := 1 |} ]
    (ex_db []).

(** The target checkout after [de/app.po] was removed. *)
Definition ex_target_checkout_removed : Checkout :=
  {| co_locale_code := None; co_repo := ex_l10n_repo; co_is_source := false;
     co_url := "https://example.org/l10n"; co_path := "/co/l10n";
     co_prev_commit := Some "t0"; co_commit := Some "r1";
     co_changed := ["de/app.po"]; co_removed := ["de/app.po"] |}.

(** The example project with a configuration file. *)
Definition ex_project_configured : Project :=
  {| proj_id := 1; proj_slug := "example";
     proj_configuration_file := "l10n.toml";
     proj_checkout_path := "/co";
     proj_repositories := [ex_src_repo; ex_l10n_repo];
     proj_locales := [ex_de] |}.

(** [app.pot] changed in the reference repository. *)
Definition ex_source_changed (type path prev : string)
  : option (list string * list string) :=
  if String.eqb path "/co/src" then Some (["app.pot"], []) else Some ([], []).

(** A resolver with a target file for every locale, the locale [fr], and
    the example project with the locales [de] and [fr]; of the target
    files of [c.po] only the one of [de] exists. *)
Definition ex_methods_targets : PathsMethods :=
  {| m_find_reference := fun _ _ _ => None;
     m_target_path := fun _ _ path locale =>
       Some ("/co/l10n/" ++ locale ++ "/" ++ path);
     m_target_locales := fun _ locales _ => locales |}.

Definition ex_paths_targets : Paths :=
  {| ref_root := "/co/src"; base := Some "/co/l10n";
     locales := ["de"; "fr"]; methods := ex_methods_targets |}.

Definition ex_fr : Locale := {| loc_id := 3; loc_code := "fr" |}.

Definition ex_isfile (path : string) : bool :=
  String.eqb path "/co/l10n/de/c.po".

(** The example database with a suggestion for [hello] in [de] and the
    translated resource of [app.po] for [de]. *)
Definition ex_db_suggested_translated : DB :=
  with_db_translated_resources
    [ {| tres_id := Some 1; tres_resource := Some 1; tres_locale := 1;
         tres_total_strings := 1 |} ]
    ex_db_suggested.

(* ================================================================== *)
(** * Further notions used in the proofs *)
(* ================================================================== *)

(** The objects of the comprehension [added_resources] of
    [add_resources]. *)
Definition new_resources_of (get_path_format : string -> string)
  (default_order : Z) (updates : dict string (option SilmeResource))
  (changed_paths : list string) : list Resource :=
  flat_map
    (fun kv =>
       match snd kv with
       | Some res =>
           if negb (mem (fst kv) changed_paths) then
             [ {| res_id := None;
                  res_project := None;
                  res_path := fst kv;
                  res_format := get_path_format (fst kv);
                  res_total_strings := Z.of_nat (List.length (sr_entities res));
                  res_order := default_order |} ]
           else []
       | None => []
       end)
    updates.

(** The entries of [updates] that [add_resources] takes: parsed, and not a
    path of [changed_paths]. *)
Definition is_new_entry (changed_paths : list string)
  (kv : string * option SilmeResource) : bool :=
  match snd kv with
  | Some _ => negb (mem (fst kv) changed_paths)
  | None => false
  end.

(** The paths [remove_resources] looks for. *)
Definition removal_paths (relpath : string -> string -> string)
  (ref_root : string) (remove : list string) : list string :=
  map (fun path => strip_pot (relpath path ref_root)) remove.

(** The disjuncts of [matching_suggestions_q] and the rows of
    [suggestions] in [update_db_translations]. *)
Definition matching_suggestions_of (repo_translations : dict (Z * Z) RepoTx)
  : list SuggestionQ :=
  flat_map
    (fun kv =>
       map (fun ps => (fst (fst kv), snd (fst kv), fst ps, snd ps))
         (fst (snd kv)))
    repo_translations.

Definition suggestions_of (db : DB) (repo_translations : dict (Z * Z) RepoTx)
  : list Translation :=
  filter
    (fun t => q_filter suggestion_matches
                (matching_suggestions_of repo_translations) t
              && negb (tr_approved t) && negb (tr_pretranslated t))
    (db_translations db).

(** The state the first loop of [update_db_translations] starts from. *)
Definition approve_start (repo_translations : dict (Z * Z) RepoTx)
  : ApproveState :=
  {| as_repo_translations := repo_translations;
     as_suggestions := [];
     as_translations_to_reject := [];
     as_actions := [];
     as_dirty_fields := [] |}.

(** The rows [update_db_translations] rejects: those that pass
    [filter(rejected=False).filter(translations_to_reject)], when
    [translations_to_reject] is not empty. *)
Definition rejected_by (to_reject : list RejectQ) (t : Translation) : bool :=
  negb (is_nil to_reject)
  && (negb (tr_rejected t) && q_filter reject_matches to_reject t).

(** The [bulk_update] of the suggestions, as a map over the rows. *)
Definition write_suggestions (objs : list Translation)
  (cols : list (Translation -> Translation -> Translation))
  (rows : list Translation) : list Translation :=
  map (fun row =>
         match find (fun o => fk_eq (pk o) (pk row)) objs with
         | Some o => fold_left (fun r c => c o r) cols row
         | None => row
         end) rows.

(** The log entries of [update_db_translations] in the order it appends
    them: those of the first loop, one for each new translation, one for
    each rejected row. *)
Definition actions_of (sync_user : User) (now : datetime)
  (loop_actions : list ActionLog) (news rejected : list Translation)
  : list ActionLog :=
  ((loop_actions
    ++ map (fun n =>
              {| al_action_type := TRANSLATION_CREATED;
                 al_created_at := Some now;
                 al_performed_by := user_id sync_user;
                 al_translation := Unsaved n |})
         (seq 0 (List.length news)))
   ++ map (fun tx =>
             {| al_action_type := TRANSLATION_REJECTED;
                al_created_at := None;
                al_performed_by := user_id sync_user;
                al_translation := Saved (tr_id tx) |})
        rejected)%list.

Definition is_creation (a : ActionLog) : bool :=
  match al_action_type a with
  | TRANSLATION_CREATED => true
  | _ => false
  end.

(** What identifies a translation and its text; a sync writes none of
    these columns of an existing row. *)
Definition same_text (old new : Translation) : Prop :=
  tr_id new = tr_id old
  /\ tr_entity new = tr_entity old
  /\ tr_locale new = tr_locale old
  /\ tr_plural_form new = tr_plural_form old
  /\ tr_string new = tr_string old
  /\ tr_date new = tr_date old.

(** What identifies a checkout in the list of [get_checkouts]: its
    repository and its locale code. *)
Definition checkout_key (co : Checkout) : Z * option string :=
  (repo_id (co_repo co), co_locale_code co).

(** A working copy without its hidden files and directories. *)
Fixpoint prune (t : FsTree) : FsTree :=
  match t with
  | Dir name dirs files =>
      Dir name
        ((fix visible (ds : list FsTree) : list FsTree :=
            match ds with
            | [] => []
            | sub :: ds' =>
                if dotted (dir_name sub) then visible ds'
                else prune sub :: visible ds'
            end) dirs)
        (filter (fun fn => negb (dotted fn)) files)
  end.

(** What the first loop collects hangs together: the path of every key is
    a collected path, its pair of path and locale is collected, and its
    locale is one of [locales]. *)
Definition collected_ok (locales : dict string Locale) (c : Collected) : Prop :=
  NoDup (dict_keys (translations c))
  /\ forall p k l,
       In (p, k, l) (dict_keys (translations c)) ->
       In p (resource_paths c)
       /\ In (p, l) (translated_resources c)
       /\ exists code locale,
            dict_get locales code = Some locale /\ loc_id locale = l.

(* ================================================================== *)
(** * Properties: keys, dictionaries and the error monad *)
(* ================================================================== *)

Lemma keqb_refl {K} `{EqKey K} (a : K) : keqb a a = true.
Proof. now apply keqb_eq. Qed.

Lemma keqb_neq {K} `{EqKey K} (a b : K) : keqb a b = false <-> a <> b.
Proof.
  split.
  - intros E ->. rewrite keqb_refl in E. discriminate.
  - intro N. destruct (keqb a b) eqn:E; [|reflexivity].
    apply keqb_eq in E. contradiction.
Qed.

Lemma mem_In {K} `{EqKey K} (k : K) ks : mem k ks = true <-> In k ks.
Proof.
  unfold mem. rewrite existsb_exists. split.
  - intros [x [I E]]. apply keqb_eq in E. now subst.
  - intro I. exists k. split; [assumption | apply keqb_refl].
Qed.

Lemma bind_Ok {A B} (m : result A) (k : A -> result B) (b : B) :
  bind m k = Ok b -> exists a, m = Ok a /\ k a = Ok b.
Proof. destruct m as [a|e]; simpl; [eauto | discriminate]. Qed.

(** Splits a hypothesis [x <- m ;; k = Ok b] into its two steps. *)
Ltac bind_inv H :=
  let a := fresh "a" in
  let E := fresh "E" in
  apply bind_Ok in H; destruct H as [a [E H]].

Lemma map_result_Ok {A B} (f : A -> result B) xs ys :
  map_result f xs = Ok ys -> Forall2 (fun x y => f x = Ok y) xs ys.
Proof.
  revert ys. induction xs as [|x xs IH]; simpl; intros ys H.
  - inversion H. constructor.
  - bind_inv H. bind_inv H. inversion H; subst. constructor; auto.
Qed.

Lemma map_result_In {A B} (f : A -> result B) xs ys y :
  map_result f xs = Ok ys -> In y ys -> exists x, In x xs /\ f x = Ok y.
Proof.
  intros H I. apply map_result_Ok in H.
  induction H as [|x y' xs ys Hxy _ IH]; simpl in I; [contradiction|].
  destruct I as [-> | I].
  - exists x. split; [left; reflexivity | assumption].
  - destruct (IH I) as [x' [I' E]]. exists x'. split; [right|]; assumption.
Qed.

Lemma map_result_length {A B} (f : A -> result B) xs ys :
  map_result f xs = Ok ys -> List.length ys = List.length xs.
Proof.
  intro H. apply map_result_Ok in H. induction H; simpl; congruence.
Qed.

Section DictFacts.
Context {K V : Type} `{EqKey K}.

Lemma dict_get_In (d : dict K V) k v : dict_get d k = Some v -> In (k, v) d.
Proof.
  induction d as [|[k' v'] d IH]; simpl; [discriminate|].
  destruct (keqb k k') eqn:E.
  - intro S. inversion S; subst. apply keqb_eq in E. subst. now left.
  - intro S. right. auto.
Qed.

Lemma dict_get_None (d : dict K V) k :
  dict_get d k = None <-> ~ In k (dict_keys d).
Proof.
  induction d as [|[k' v'] d IH]; simpl.
  - split; [intros _ [] | reflexivity].
  - destruct (keqb k k') eqn:E.
    + apply keqb_eq in E. subst. split; [discriminate | intro N].
      exfalso. apply N. now left.
    + apply keqb_neq in E. rewrite IH. split.
      * intros N [Q | I]; [congruence | contradiction].
      * intros N I. apply N. now right.
Qed.

Lemma dict_has_In (d : dict K V) k :
  dict_has d k = true <-> In k (dict_keys d).
Proof.
  unfold dict_has. destruct (dict_get d k) eqn:E.
  - split; [intros _ | reflexivity].
    apply dict_get_In in E. unfold dict_keys.
    change k with (fst (k, v)). now apply in_map.
  - apply dict_get_None in E. split; [discriminate | contradiction].
Qed.

Lemma dict_remove_keys (d : dict K V) k k' :
  In k' (dict_keys (dict_remove d k)) <-> In k' (dict_keys d) /\ k' <> k.
Proof.
  unfold dict_keys, dict_remove. rewrite !in_map_iff. split.
  - intros [[a b] [E I]]. apply filter_In in I. destruct I as [I N].
    simpl in *. subst. apply negb_true_iff, keqb_neq in N. split.
    + exists (k', b). auto.
    + congruence.
  - intros [[[a b] [E I]] N]. simpl in E. subst. exists (k', b). split; auto.
    apply filter_In. split; auto. simpl. apply negb_true_iff, keqb_neq.
    congruence.
Qed.

Lemma dict_remove_In (d : dict K V) k kv :
  In kv (dict_remove d k) -> In kv d.
Proof. unfold dict_remove. intro I. now apply filter_In in I. Qed.

Lemma dict_set_keys (d : dict K V) k v k' :
  In k' (dict_keys (dict_set d k v)) <-> In k' (dict_keys d) \/ k' = k.
Proof.
  induction d as [|[a b] d IH]; simpl.
  - intuition.
  - destruct (keqb k a) eqn:E; simpl.
    + apply keqb_eq in E. subst. intuition.
    + rewrite IH. intuition.
Qed.

Lemma dict_set_In (d : dict K V) k v kv :
  In kv (dict_set d k v) -> In kv d \/ kv = (k, v) \/ (fst kv = k /\ snd kv = v).
Proof.
  induction d as [|[a b] d IH]; simpl.
  - intros [<- | []]. auto.
  - destruct (keqb k a) eqn:E; simpl.
    + apply keqb_eq in E. subst. intros [<- | I]; auto.
    + intros [<- | I]; auto. destruct (IH I) as [? | ?]; auto.
Qed.

Lemma dict_update_keys (kvs : list (K * V)) (d : dict K V) k :
  In k (dict_keys (dict_update d kvs)) <->
  In k (dict_keys d) \/ In k (map fst kvs).
Proof.
  unfold dict_update. revert d.
  induction kvs as [|[a b] kvs IH]; simpl; intro d.
  - intuition.
  - rewrite IH, dict_set_keys. simpl. intuition.
Qed.

Lemma dict_update_In (kvs : list (K * V)) (d : dict K V) kv :
  In kv (dict_update d kvs) ->
  In kv d \/ exists kv', In kv' kvs /\ fst kv' = fst kv /\ snd kv' = snd kv.
Proof.
  unfold dict_update. revert d.
  induction kvs as [|[a b] kvs IH]; simpl; intro d.
  - auto.
  - intro I. apply IH in I. destruct I as [I | [kv' [I E]]].
    + apply dict_set_In in I. simpl in I.
      destruct I as [I | [-> | [E1 E2]]]; auto.
      * right. exists (a, b). auto.
      * right. exists (a, b). simpl. auto.
    + right. exists kv'. auto.
Qed.

End DictFacts.

(* ================================================================== *)
(** * Properties of [entity_from_source] *)
(* ================================================================== *)

(** When both optional attributes are there, the comments of the entity
    are their lines joined. *)
Lemma entity_from_source_with_comments resource now idx tx gs rs :
  tx_group_comments tx = Some gs ->
  tx_resource_comments tx = Some rs ->
  exists e,
    entity_from_source resource now idx tx = Ok e
    /\ ent_group_comment e = join_lines gs
    /\ ent_resource_comment e = join_lines rs
    /\ ent_order e = int_or (tx_order tx) idx.
Proof.
  intros G R. unfold entity_from_source. rewrite G, R. simpl.
  eexists. split; [reflexivity|]. simpl. auto.
Qed.

(** C6. For an entry without the attribute [group_comments],
    [entity_from_source] builds no entity: the conditional expression
    yields [None] and [str.join(None)] raises [TypeError], where the specification
    has the empty string as the group comment. *)
Theorem entity_from_source_without_group_comments resource now idx tx :
  tx_group_comments tx = None ->
  entity_from_source resource now idx tx = Raise TypeError.
Proof. intro G. unfold entity_from_source. rewrite G. reflexivity. Qed.

Lemma entity_from_source_without_group_comments_witness :
  tx_group_comments (ex_tx "hello" "Hello" None None) = None
  /\ entity_from_source ex_resource 100 0 (ex_tx "hello" "Hello" None None)
     = Raise TypeError.
Proof.
  split; [reflexivity|].
  apply (entity_from_source_without_group_comments ex_resource 100 0
           (ex_tx "hello" "Hello" None None)).
  reflexivity.
Defined.

(** The same holds for [resource_comments]. *)
Lemma entity_from_source_without_resource_comments resource now idx tx :
  tx_resource_comments tx = None ->
  entity_from_source resource now idx tx = Raise TypeError.
Proof.
  intro R. unfold entity_from_source. rewrite R.
  destruct (join_lines_of (tx_group_comments tx)) as [g|e] eqn:G; simpl.
  - reflexivity.
  - unfold join_lines_of in G. destruct (tx_group_comments tx); now inversion G.
Qed.

Lemma entity_from_source_Ok resource now idx tx e :
  entity_from_source resource now idx tx = Ok e ->
  ent_order e = int_or (tx_order tx) idx
  /\ ent_key e = tx_key tx
  /\ ent_string e = tx_source_string tx
  /\ ent_resource e = res_id resource
  /\ ent_id e = None
  /\ ent_date_created e = now.
Proof.
  unfold entity_from_source. intro H. bind_inv H. bind_inv H.
  inversion H; subst; simpl. auto 6.
Qed.

(* ================================================================== *)
(** * Properties of [sync_entities_from_repo] *)
(* ================================================================== *)

(** C4. The reference file [app.pot] fails to parse and the resource
    [app.po] is in the database: [update_resources] reads [.entities] of
    the [None] that stands for the failed parse and the sync raises
    [AttributeError]. Without the path in [changed] the sync returns and
    leaves the database as it is. *)
Theorem parse_error_on_existing_resource_raises :
  ex_sync_entities (fun _ _ => Raise ParseError) (ex_db []) ["app.pot"] [] 100
  = Raise AttributeError
  /\ ex_sync_entities (fun _ _ => Raise ParseError) (ex_db []) [] [] 100
     = Ok (ex_db [], ([], [], [])).
Proof. split; reflexivity. Qed.

(** C8. The resource [app.po] is in the database with one string and the
    parsed file has two entities: the [bulk_update] that should write
    [total_strings] is given the characters of the column name, raises
    [FieldDoesNotExist], and the count in the database stays 1. *)
Theorem total_strings_is_not_written :
  let parsed :=
    {| sr_entities := [ex_tx "hello" "Hello" None (Some []); ex_tx "bye" "Bye" None (Some [])];
       sr_translations := [ex_tx "hello" "Hello" None (Some []); ex_tx "bye" "Bye" None (Some [])] |} in
  update_resources (ex_db []) 1 [("app.po", Some parsed)] 100
  = Raise FieldDoesNotExist
  /\ ex_sync_entities (fun _ _ => Ok parsed) (ex_db []) ["app.pot"] [] 100
     = Raise FieldDoesNotExist
  /\ map res_total_strings (db_resources (ex_db [])) = [1].
Proof. repeat split; reflexivity. Qed.

(* ================================================================== *)
(** * Properties of [update_db_translations]: examples *)
(* ================================================================== *)

(** C5. Two suggestions, plural forms 0 and 1 of one entity, match the
    repository entry of [(1, 1)]: the first turn of the loop deletes the
    key, the second looks it up again and raises [KeyError], and no row is
    written. With the first suggestion alone the row is approved. *)
Theorem two_suggestions_for_one_key_raise :
  let repo_translations : dict (Z * Z) RepoTx :=
    [((1, 1), ([(Some 0, "a"); (Some 1, "b")], false))] in
  update_db_translations
    (ex_db [ex_translation 1 (Some 0) "a" false;
            ex_translation 2 (Some 1) "b" false])
    repo_translations 100
  = Raise KeyError
  /\ is_ok (update_db_translations
              (ex_db [ex_translation 1 (Some 0) "a" false])
              repo_translations 100) = true.
Proof. split; reflexivity. Qed.

(** C7. The suggestion [Hallo] is approved at [now = 100]: the row carries
    [approved_date = 100], but the [TRANSLATION_APPROVED] action is built
    without [created_at], unlike the [TRANSLATION_CREATED] action of a new
    translation. *)
Theorem approved_action_is_built_without_created_at :
  option_map (fun db => (map tr_approved_date (db_translations db),
                         map (fun a => (al_action_type a, al_created_at a))
                           (db_action_log db)))
    (match update_db_translations (ex_db [ex_hallo])
             [((1, 1), ([(None, "Hallo")], false))] 100 with
     | Ok db => Some db
     | Raise _ => None
     end)
  = Some ([Some 100], [(TRANSLATION_APPROVED, None)])
  /\ option_map (fun db => map (fun a => (al_action_type a, al_created_at a))
                             (db_action_log db))
       (match update_db_translations (ex_db [ex_hallo])
                [((1, 1), ([(None, "Hallo")], false));
                 ((2, 1), ([(None, "Tschuess")], false))] 100 with
        | Ok db => Some db
        | Raise _ => None
        end)
     = Some [(TRANSLATION_APPROVED, None); (TRANSLATION_CREATED, Some 100)].
Proof. split; reflexivity. Qed.

(** C3. The database holds the approved, active [Hallo alt] and the
    inactive suggestion [Hallo]; the repository has [Hallo], fuzzy. The
    suggestion is made active and nothing is rejected, so the triple
    [(1, 1, None)] ends with two active rows. *)
Theorem fuzzy_suggestion_leaves_two_active :
  let rows := [ex_hallo_alt; ex_hallo] in
  at_most_one_active rows
  /\ exists db',
       update_db_translations (ex_db rows) [((1, 1), ([(None, "Hallo")], true))]
         100 = Ok db'
       /\ map tr_active (db_translations db') = [true; true]
       /\ active_count (db_translations db') 1 1 None = 2%nat
       /\ ~ at_most_one_active (db_translations db').
Proof.
  split.
  - intros entity locale plural_form. unfold active_count. simpl.
    repeat match goal with
           | |- context [if ?c then _ else _] => destruct c
           end; simpl; lia.
  - eexists. split; [reflexivity|]. split; [reflexivity|].
    split; [reflexivity|].
    intro A. specialize (A 1 1 None). vm_compute in A. lia.
Qed.

(* ================================================================== *)
(** * Properties of the entity phase of [update_resources] *)
(* ================================================================== *)

Section OrmFacts.
Context {R : Type} `{Model R}.

Lemma bulk_update_Ok (table objs : list R) fields table' :
  bulk_update table objs fields = Ok table' ->
  existsb (fun o => is_none (pk o)) objs = false
  /\ exists cols,
       map_result
         (fun name =>
            match get_field name with
            | Some c => Ok c
            | None => Raise FieldDoesNotExist
            end) fields = Ok cols
       /\ table' =
          map (fun row =>
                 match find (fun o => fk_eq (pk o) (pk row)) objs with
                 | Some o => fold_left (fun r c => c o r) cols row
                 | None => row
                 end) table.
Proof.
  unfold bulk_update. destruct (is_nil fields); [discriminate|].
  destruct (existsb _ objs); [discriminate|].
  intro E. bind_inv E. inversion E; subst. eauto.
Qed.

Lemma bulk_update_length (table objs : list R) fields table' :
  bulk_update table objs fields = Ok table' ->
  List.length table' = List.length table.
Proof.
  intro E. apply bulk_update_Ok in E. destruct E as [_ [cols [_ ->]]].
  apply length_map.
Qed.

(** An object leaves [bulk_create] as it came or with a key set. *)
Lemma assign_pks_In (objs : list R) next o' :
  In o' (assign_pks next objs) ->
  exists o, In o objs /\ (o' = o \/ exists i, o' = set_pk (Some i) o).
Proof.
  revert next. induction objs as [|o objs IH]; simpl; intros next I.
  - contradiction.
  - destruct (pk o); simpl in I; destruct I as [<- | I].
    + exists o. auto.
    + destruct (IH _ I) as [x [Ix Hx]]. exists x. auto.
    + exists o. split; [auto | right; eauto].
    + destruct (IH _ I) as [x [Ix Hx]]. exists x. auto.
Qed.

End OrmFacts.

Lemma next_entities_of_In changed_resources updates now next k e :
  next_entities_of changed_resources updates now = Ok next ->
  In (k, e) next ->
  exists cr r tx,
    In cr changed_resources
    /\ parsed_of updates (res_path cr) = Ok r
    /\ In tx (sr_translations r)
    /\ entity_from_source cr now 0 tx = Ok e.
Proof.
  unfold next_entities_of. intros E I. bind_inv E. inversion E; subst.
  apply dict_update_In in I. destruct I as [[] | [[k' e'] [I [_ Es]]]].
  simpl in Es. subst e'. apply in_concat in I. destruct I as [pl [Ipl I]].
  destruct (map_result_In _ _ _ E0 Ipl) as [cr [Icr F]].
  bind_inv F. destruct (map_result_In _ _ _ F I) as [tx [Itx G]].
  bind_inv G. inversion G; subst. exists cr, a0, tx. auto.
Qed.

(** What the lines of [update_resources] after its first [bulk_update]
    would do, taken alone: the entities they insert are built by
    [entity_from_source] with index 0, whatever the position of the parsed
    entry, so each new row has [order = tx.order or 0], which is 0 when
    [tx.order] is [None] or 0. The rows that were there are kept in front
    of the new ones. *)
Theorem update_entities_inserts_with_index_0 db project changed_resources
  updates now out :
  update_entities db project changed_resources updates now = Ok out ->
  exists old created,
    db_entities (fst out) = (old ++ created)%list
    /\ List.length old = List.length (db_entities db)
    /\ forall e, In e created ->
         exists cr r tx,
           In cr changed_resources
           /\ parsed_of updates (res_path cr) = Ok r
           /\ In tx (sr_translations r)
           /\ ent_key e = tx_key tx
           /\ ent_string e = tx_source_string tx
           /\ ent_order e = int_or (tx_order tx) 0
           /\ (tx_order tx = None \/ tx_order tx = Some 0 -> ent_order e = 0).
Proof.
  unfold update_entities. intro E.
  bind_inv E. rename a into next, E0 into Enext.
  bind_inv E. rename a into ents1, E0 into E1.
  bind_inv E. rename a into ents2, E0 into E2.
  simpl in E. inversion E; subst out; clear E. simpl.
  exists ents2. eexists. split; [reflexivity|]. split.
  - apply bulk_update_length in E2. apply bulk_update_length in E1.
    simpl in *. congruence.
  - intros e I. apply assign_pks_In in I. destruct I as [e0 [I0 Hid]].
    unfold added_entities_of in I0. apply in_map_iff in I0.
    destruct I0 as [[k e0'] [Ek I0]]. simpl in Ek. subst e0'.
    apply filter_In in I0. destruct I0 as [I0 _].
    destruct (next_entities_of_In _ _ _ _ _ Enext I0) as [cr [r [tx [Icr [Er [Itx F]]]]]].
    apply entity_from_source_Ok in F.
    destruct F as [Ho [Hk [Hs _]]].
    assert (P : ent_key e = ent_key e0 /\ ent_string e = ent_string e0
                /\ ent_order e = ent_order e0).
    { destruct Hid as [-> | [i ->]]; simpl; auto. }
    destruct P as [Pk [Ps Po]].
    exists cr, r, tx. repeat split; try congruence.
    intros [N | N]; rewrite Po, Ho, N; reflexivity.
Qed.

(** The parsed file has [hello], which the database knows, then [bye] and
    [later]: the two new entities are both inserted with order 0. *)
Lemma update_entities_inserts_with_index_0_witness :
  let parsed :=
    {| sr_entities := [];
       sr_translations :=
         [ex_tx "hello" "Hello" None (Some []); ex_tx "bye" "Bye" None (Some []);
          ex_tx "later" "Later" (Some 0) (Some [])] |} in
  exists out,
    update_entities (ex_db []) 1 [ex_resource] [("app.po", Some parsed)] 100
    = Ok out
    /\ map (fun e => (ent_key e, ent_order e)) (db_entities (fst out))
       = [("hello", 0); ("bye", 0); ("later", 0)]
    /\ exists old created,
         db_entities (fst out) = (old ++ created)%list
         /\ List.length old = 1%nat
         /\ forall e, In e created ->
              exists cr r tx,
                In cr [ex_resource]
                /\ parsed_of [("app.po", Some parsed)] (res_path cr) = Ok r
                /\ In tx (sr_translations r)
                /\ ent_key e = tx_key tx
                /\ ent_string e = tx_source_string tx
                /\ ent_order e = int_or (tx_order tx) 0
                /\ (tx_order tx = None \/ tx_order tx = Some 0 ->
                    ent_order e = 0).
Proof.
  intro parsed. eexists. split; [vm_compute; reflexivity|].
  split; [reflexivity|].
  exact (update_entities_inserts_with_index_0 (ex_db []) 1 [ex_resource]
           [("app.po", Some parsed)] 100 eq_refl).
Defined.


(** In a resource that [add_resources] creates the same entries get their
    positions. *)
Lemma entity_from_source_index resource now idx tx e :
  entity_from_source resource now idx tx = Ok e ->
  tx_order tx = None \/ tx_order tx = Some 0 ->
  ent_order e = idx.
Proof.
  intros F N. apply entity_from_source_Ok in F. destruct F as [-> _].
  destruct N as [-> | ->]; reflexivity.
Qed.

(* ================================================================== *)
(** * Two runs of [sync_project] *)
(* ================================================================== *)

(** C1. The target file has the entry [hello] without a string. The
    database holds the suggestion [Hallo] and the approved [Hallo alt].
    No run writes [last_synced_revisions], so both runs are given the same
    checkouts. [matching_suggestions_q] stays the empty [Q()], which selects
    every suggestion: the first run approves [Hallo] and rejects
    [Hallo alt]; the second run, with nothing changed in the repositories,
    approves [Hallo alt] and rejects [Hallo] again, and adds three rows to
    the action log. *)
Theorem second_sync_writes_again :
  let run1 := ex_sync_project [] false (ex_db [ex_hallo; ex_hallo_alt]) 100 in
  let run2 := ex_sync_project [] false (fst run1) 200 in
  snd run1 = Ok tt
  /\ snd run2 = Ok tt
  /\ map (fun t => (tr_string t, tr_approved t, tr_rejected t))
       (db_translations (fst run1))
     = [("Hallo", true, false); ("Hallo alt", false, true)]
  /\ map (fun t => (tr_string t, tr_approved t, tr_rejected t))
       (db_translations (fst run2))
     = [("Hallo", false, true); ("Hallo alt", true, false)]
  /\ map al_action_type (db_action_log (fst run1))
     = [TRANSLATION_APPROVED; TRANSLATION_REJECTED]
  /\ map al_action_type (db_action_log (fst run2))
     = [TRANSLATION_APPROVED; TRANSLATION_REJECTED;
        TRANSLATION_UNREJECTED; TRANSLATION_APPROVED; TRANSLATION_REJECTED].
Proof. vm_compute. repeat split; reflexivity. Qed.

Section SyncProjectFacts.

Variable join : string -> string -> string.
Variable relpath : string -> string -> string.
Variable normpath : string -> string.
Variable commonpath : string -> string -> string.
Variable splitext : string -> string * string.
Variable format_url : string -> string -> string.
Variable bilingual_extensions : list string.
Variable parse_android_locale : string -> option string.
Variable parse_source : string -> Locale -> result SilmeResource.
Variable parse_target : string -> string -> Locale -> result (list VCSTranslation).
Variable get_path_format : string -> string.
Variable isfile : string -> bool.
Variable default_order : Z.
Variable L10nConfigPaths : string -> Paths.
Variable L10nDiscoverPaths : string -> option string -> Paths.
Variable revision : string -> string -> option string.
Variable changed_files :
  string -> string -> string -> option (list string * list string).
Variable tree : string -> FsTree.

Lemma get_paths_In project checkouts paths ref_checkout :
  get_paths join commonpath L10nConfigPaths L10nDiscoverPaths project checkouts
  = Ok (paths, ref_checkout) ->
  In ref_checkout checkouts.
Proof.
  unfold get_paths.
  destruct (negb (String.eqb (proj_configuration_file project) "")).
  - intro E. bind_inv E.
    assert (I : In a checkouts).
    { destruct (find co_is_source checkouts) as [co|] eqn:F.
      - inversion E0; subst. now apply find_some in F.
      - destruct (filter _ checkouts) as [|co [|? ?]] eqn:G; inversion E0.
        subst. assert (I : In a [a]) by (left; reflexivity).
        rewrite <- G in I. now apply filter_In in I. }
    destruct (1 <? List.length checkouts)%nat.
    + destruct (target_repos checkouts a) as [|? [|? ?]]; inversion E.
      now subst.
    + inversion E. now subst.
  - intro E. bind_inv E.
    assert (I : In a checkouts).
    { destruct (find co_is_source checkouts) as [co|] eqn:F.
      - inversion E0; subst. now apply find_some in F.
      - match type of E0 with
        | match ?x with _ => _ end = _ => destruct x as [co|] eqn:G
        end; inversion E0.
        subst. now apply find_some in G. }
    destruct (is_none _); inversion E. now subst.
Qed.

Lemma collect_without_changes locales checkouts ref_checkout paths acc :
  Forall (fun co => co_changed co = []) checkouts ->
  fold_left
    (fun acc co =>
       if negb (same_checkout co ref_checkout)
       then fold_left
              (collect_path join relpath parse_android_locale parse_target
                 locales paths co) (co_changed co) acc
       else acc)
    checkouts acc = acc.
Proof.
  intro F. revert acc. induction F as [|co cos E _ IH]; simpl; intro acc.
  - reflexivity.
  - rewrite E. simpl. destruct (negb _); apply IH.
Qed.

(** When no checkout reports a changed or removed file, [sync_project]
    leaves the database as it is. *)
Lemma sync_project_without_changes db project pull now :
  Forall (fun co => co_changed co = [] /\ co_removed co = [])
    (get_checkouts join relpath normpath format_url revision changed_files
       tree project pull) ->
  fst (sync_project join relpath normpath commonpath splitext format_url
         bilingual_extensions parse_android_locale parse_source parse_target
         get_path_format isfile default_order L10nConfigPaths
         L10nDiscoverPaths revision changed_files tree db project pull now)
  = db.
Proof.
  intro F. unfold sync_project.
  set (checkouts := get_checkouts _ _ _ _ _ _ _ _ _) in *.
  destruct (is_nil checkouts); [reflexivity|].
  destruct (get_paths _ _ _ _ _ _) as [[paths ref_checkout]|e] eqn:G;
    [|reflexivity].
  apply get_paths_In in G.
  pose proof (proj1 (Forall_forall _ _) F _ G) as [Ec Er].
  unfold sync_entities_from_repo. rewrite Ec, Er.
  destruct (orm_get _ (db_locales db)) as [source_locale|e]; [|reflexivity].
  simpl.
  unfold sync_translations_from_repo, delete_removed_translated_resources.
  assert (D : forall ps,
             flat_map
               (fun co =>
                  if negb (same_checkout co ref_checkout)
                  then
                    flat_map
                      (fun path =>
                         if mem (snd (splitext path)) bilingual_extensions
                         then
                           match find_reference ps (join (co_path co) path) with
                           | Some (ref_path, path_vars) =>
                               match get_path_locale parse_android_locale path_vars with
                               | Some locale_code =>
                                   [(strip_pot (relpath ref_path (ref_root ps)),
                                     locale_code)]
                               | None => []
                               end
                           | None => []
                           end
                         else [])
                      (co_removed co)
                  else [])
               checkouts = []).
  { intro ps. clear -F. induction F as [|co cos [_ E] _ IH]; simpl.
    - reflexivity.
    - rewrite E, IH. simpl. destruct (negb _); reflexivity. }
  rewrite D. simpl.
  unfold find_updates_from_repo_to_db, collect.
  rewrite collect_without_changes.
  - reflexivity.
  - eapply Forall_impl; [|exact F]. intros co [E _]. exact E.
Qed.

End SyncProjectFacts.

(* ================================================================== *)
(** * Properties of [add_resources]: the order of the resources *)
(* ================================================================== *)

Lemma string_compare_refl s : String.compare s s = Eq.
Proof.
  induction s as [|c s IH]; simpl; [reflexivity|].
  unfold Ascii.compare. now rewrite N.compare_refl.
Qed.

Lemma string_compare_not_Gt_trans a b c :
  String.compare a b <> Gt -> String.compare b c <> Gt ->
  String.compare a c <> Gt.
Proof.
  revert b c. induction a as [|x a IH]; intros [|y b] [|z c]; simpl;
    try congruence.
  unfold Ascii.compare.
  destruct (N.compare_spec (N_of_ascii x) (N_of_ascii y)) as [E1|L1|G1];
    destruct (N.compare_spec (N_of_ascii y) (N_of_ascii z)) as [E2|L2|G2];
    destruct (N.compare_spec (N_of_ascii x) (N_of_ascii z)) as [E3|L3|G3];
    try congruence; try lia.
  apply IH.
Qed.

Lemma string_leb_trans a b c :
  String.leb a b = true -> String.leb b c = true -> String.leb a c = true.
Proof.
  unfold String.leb. intros H1 H2.
  pose proof (string_compare_not_Gt_trans a b c) as T.
  destruct (String.compare a b); try discriminate;
    destruct (String.compare b c); try discriminate;
    destruct (String.compare a c); try reflexivity;
    exfalso; apply T; congruence.
Qed.

Lemma string_ltb_leb a b : String.ltb a b = true -> String.leb b a = false.
Proof.
  unfold String.ltb, String.leb. rewrite (String.compare_antisym a b).
  destruct (String.compare b a); simpl; congruence.
Qed.

Lemma string_ltb_irrefl a : String.ltb a a = false.
Proof. unfold String.ltb. now rewrite string_compare_refl. Qed.

Lemma insert_by_path_perm r rs : Permutation (r :: rs) (insert_by_path r rs).
Proof.
  induction rs as [|r' rs IH]; simpl.
  - apply Permutation_refl.
  - destruct (String.leb (res_path r) (res_path r')).
    + apply Permutation_refl.
    + eapply Permutation_trans; [apply perm_swap|].
      now apply perm_skip.
Qed.

Lemma order_by_path_perm rs : Permutation rs (order_by_path rs).
Proof.
  induction rs as [|r rs IH]; simpl.
  - apply Permutation_refl.
  - eapply Permutation_trans; [|apply insert_by_path_perm].
    now apply perm_skip.
Qed.

Lemma insert_by_path_sorted r rs :
  StronglySorted path_le rs -> StronglySorted path_le (insert_by_path r rs).
Proof.
  induction 1 as [|r' rs Hs IH Hall]; simpl.
  - constructor; constructor.
  - destruct (String.leb (res_path r) (res_path r')) eqn:L.
    + constructor.
      * now constructor.
      * constructor; [exact L|].
        eapply Forall_impl; [|exact Hall].
        intros x Hx. unfold path_le in *. eapply string_leb_trans; eauto.
    + constructor; [exact IH|].
      assert (L' : path_le r' r).
      { unfold path_le. destruct (String.leb_total (res_path r) (res_path r'));
          congruence. }
      eapply Permutation_Forall; [apply insert_by_path_perm|].
      now constructor.
Qed.

Lemma order_by_path_sorted rs : StronglySorted path_le (order_by_path rs).
Proof.
  induction rs as [|r rs IH]; simpl.
  - constructor.
  - now apply insert_by_path_sorted.
Qed.

Lemma StronglySorted_nth_error {A} (le : A -> A -> Prop) l i j a b :
  StronglySorted le l ->
  nth_error l i = Some a -> nth_error l j = Some b -> (i < j)%nat -> le a b.
Proof.
  intro S. revert i j. induction S as [|x l S IH Hall]; intros i j Ha Hb L.
  - destruct i; discriminate.
  - destruct j as [|j]; [lia|]. simpl in Hb. destruct i as [|i]; simpl in Ha.
    + inversion Ha; subst. apply nth_error_In in Hb.
      exact (proj1 (Forall_forall _ _) Hall _ Hb).
    + apply (IH i j); auto. lia.
Qed.

Lemma fk_eq_true a b : fk_eq a b = true -> a = b /\ a <> None.
Proof.
  destruct a, b; simpl; try discriminate. intro E. apply Z.eqb_eq in E.
  subst. split; congruence.
Qed.

Lemma fk_eq_refl a : a <> None -> fk_eq a a = true.
Proof. destruct a; simpl; [intros _; apply Z.eqb_refl | congruence]. Qed.

Lemma find_ranked_from rs : forall k n r,
  NoDup (map res_id rs) ->
  Forall (fun r => res_id r <> None) rs ->
  nth_error rs n = Some r ->
  find (fun o => fk_eq (res_id o) (res_id r)) (ranked_from k rs)
  = Some (with_res_order (k + Z.of_nat n) r).
Proof.
  induction rs as [|s rs IH]; intros k n r N F E.
  - destruct n; discriminate.
  - inversion N as [|? ? Hs N']; subst. inversion F as [|? ? Fs F']; subst.
    destruct n as [|n]; simpl in E.
    + inversion E; subst. unfold ranked_from. simpl.
      rewrite fk_eq_refl by assumption. now rewrite Z.add_0_r.
    + unfold ranked_from. simpl.
      destruct (fk_eq (res_id s) (res_id r)) eqn:Q.
      * exfalso. apply fk_eq_true in Q. destruct Q as [Q _].
        apply Hs. rewrite Q. apply in_map. now apply nth_error_In in E.
      * fold (ranked_from (k + 1) rs). rewrite (IH (k + 1) n r N' F' E).
        f_equal. f_equal. lia.
Qed.

Lemma map_by_position {A} (g : A -> Z) (l : list A) : forall k,
  (forall n a, nth_error l n = Some a -> g a = Z.of_nat (k + n)) ->
  map g l = map Z.of_nat (seq k (List.length l)).
Proof.
  induction l as [|a l IH]; intros k H; simpl.
  - reflexivity.
  - f_equal.
    + rewrite (H 0%nat a eq_refl). f_equal. lia.
    + apply IH. intros n b E. rewrite (H (S n) b E). f_equal. lia.
Qed.

Lemma existsb_false_In {A} (f : A -> bool) (l : list A) x :
  existsb f l = false -> In x l -> f x = false.
Proof.
  intros E I. destruct (f x) eqn:F; [|reflexivity].
  assert (T : existsb f l = true) by (apply existsb_exists; eauto).
  congruence.
Qed.

Lemma filter_none {A} (p : A -> bool) (l : list A) :
  (forall a, In a l -> p a = false) -> filter p l = [].
Proof.
  induction l as [|a l IH]; simpl; intro H; [reflexivity|].
  rewrite (H a) by now left. apply IH. intros b I. apply H. now right.
Qed.

Lemma filter_map_preserved {A} (p : A -> bool) (f : A -> A) (l : list A) :
  (forall a, p (f a) = p a) -> filter p (map f l) = map f (filter p l).
Proof.
  intro H. induction l as [|a l IH]; simpl; [reflexivity|].
  rewrite H. destruct (p a); simpl; now rewrite IH.
Qed.

Section AddResourcesFacts.

Variable get_path_format : string -> string.
Variable isfile : string -> bool.
Variable default_order : Z.

(** What [add_resources] leaves in the table of resources when it inserts:
    the rows it had and the new rows, each with the order of the first
    object of the [bulk_update] that has its key. *)
Lemma add_resources_resources db project locale_map paths updates
  changed_paths now db' added_paths :
  add_resources get_path_format isfile default_order db project locale_map
    paths updates changed_paths now = Ok (db', added_paths) ->
  added_paths <> [] ->
  let objs := ranked_from 0 (order_by_path (project_resources project db)) in
  existsb (fun o => is_none (res_id o)) objs = false
  /\ project_resources project db'
     = map (fun row =>
              match find (fun o => fk_eq (res_id o) (res_id row)) objs with
              | Some o => with_res_order (res_order o) row
              | None => row
              end)
         (project_resources project db).
Proof.
  unfold add_resources. intros E Hne.
  match type of E with
  | (if is_nil ?a then _ else _) = _ => set (added := a) in *
  end.
  destruct (is_nil added) eqn:Hnil.
  { inversion E; subst. contradiction. }
  unfold bulk_create in E. simpl in E.
  set (created := assign_pks (next_pk (db_resources db)) added) in *.
  assert (C : filter (fun r => fk_eq (res_project r) (Some project)) created
              = []).
  { apply filter_none. intros r I.
    apply assign_pks_In in I. destruct I as [o [Io Ho]].
    assert (No : res_project o = None).
    { unfold added in Io. apply in_flat_map in Io.
      destruct Io as [[p [res|]] [_ Io]]; simpl in Io; [|contradiction].
      destruct (negb _); simpl in Io; [|contradiction].
      destruct Io as [<- | []]. reflexivity. }
    destruct Ho as [-> | [i ->]]; simpl; rewrite No; reflexivity. }
  assert (P : project_resources project
                (with_db_resources (db_resources db ++ created)%list db)
              = project_resources project db).
  { unfold project_resources. simpl. rewrite filter_app, C.
    apply app_nil_r. }
  rewrite P in E. clear P.
  bind_inv E. rename a into resources', E0 into U.
  bind_inv E. bind_inv E. inversion E; subst db' added_paths; clear E.
  apply bulk_update_Ok in U. destruct U as [Hpk [cols [Hc ->]]].
  simpl in Hc. inversion Hc; subst cols; clear Hc.
  split; [exact Hpk|].
  unfold project_resources at 1. simpl.
  rewrite filter_map_preserved.
  - rewrite filter_app, C, app_nil_r. apply map_ext. intro row. reflexivity.
  - intro row. destruct (find _ _); reflexivity.
Qed.

Lemma enumerate_from_In {A} (xs : list A) : forall k x,
  In x xs -> exists i, In (i, x) (enumerate_from k xs).
Proof.
  induction xs as [|y xs IH]; intros k x I; simpl in *; [contradiction|].
  destruct I as [-> | I].
  - exists k. now left.
  - destruct (IH (k + 1) x I) as [i Hi]. exists i. now right.
Qed.

(** When [add_resources] inserts at least one resource, the orders of
    the rows that [project.resources] returns are afterwards 0, 1, ...,
    N-1, each once, and a row with a smaller path has a smaller order.
    Primary keys are assumed to identify the rows. The rows inserted are
    not among them, as they have no project. *)
Theorem add_resources_orders_by_path db project locale_map paths updates
  changed_paths now db' added_paths :
  NoDup (map res_id (project_resources project db)) ->
  add_resources get_path_format isfile default_order db project locale_map
    paths updates changed_paths now = Ok (db', added_paths) ->
  added_paths <> [] ->
  Permutation (map res_order (project_resources project db'))
    (map Z.of_nat (seq 0 (List.length (project_resources project db'))))
  /\ forall r1 r2,
       In r1 (project_resources project db') ->
       In r2 (project_resources project db') ->
       String.ltb (res_path r1) (res_path r2) = true ->
       res_order r1 < res_order r2.
Proof.
  intros N E Hne.
  destruct (@add_resources_resources db project locale_map paths updates
              changed_paths now db' added_paths E Hne) as [Hpk Hrs].
  set (P := project_resources project db) in *.
  set (S := order_by_path P) in *.
  set (upd := fun row : Resource =>
                match find (fun o => fk_eq (res_id o) (res_id row))
                        (ranked_from 0 S) with
                | Some o => with_res_order (res_order o) row
                | None => row
                end) in *.
  assert (PS : Permutation P S) by apply order_by_path_perm.
  assert (NS : NoDup (map res_id S)).
  { eapply Permutation_NoDup; [|exact N]. now apply Permutation_map. }
  assert (FS : Forall (fun r => res_id r <> None) S).
  { apply Forall_forall. intros s I.
    destruct (@enumerate_from_In _ S 0 s I) as [i Hi].
    assert (Io : In (with_res_order i s) (ranked_from 0 S)).
    { unfold ranked_from. apply in_map_iff. exists (i, s). auto. }
    pose proof (existsb_false_In _ _ _ Hpk Io) as Hs. simpl in Hs.
    destruct (res_id s); [congruence | discriminate]. }
  assert (U : forall n r, nth_error S n = Some r ->
                          upd r = with_res_order (Z.of_nat n) r).
  { intros n r En. unfold upd.
    rewrite (@find_ranked_from S 0 n r NS FS En). reflexivity. }
  rewrite Hrs. split.
  - rewrite length_map, map_map.
    rewrite (Permutation_length PS).
    eapply Permutation_trans.
    + apply Permutation_map. exact PS.
    + rewrite (@map_by_position _ (fun r => res_order (upd r)) S 0%nat).
      * apply Permutation_refl.
      * intros n a En. rewrite (U n a En). reflexivity.
  - intros r1' r2' I1 I2 L.
    apply in_map_iff in I1. destruct I1 as [r1 [<- I1]].
    apply in_map_iff in I2. destruct I2 as [r2 [<- I2]].
    apply (Permutation_in _ PS) in I1. apply (Permutation_in _ PS) in I2.
    apply In_nth_error in I1. destruct I1 as [n1 E1].
    apply In_nth_error in I2. destruct I2 as [n2 E2].
    rewrite (U n1 r1 E1), (U n2 r2 E2) in *. simpl in *.
    destruct (Nat.lt_trichotomy n1 n2) as [Lt | [Eq | Gt]].
    + lia.
    + subst n2. rewrite E1 in E2. inversion E2; subst.
      rewrite string_ltb_irrefl in L. discriminate.
    + pose proof (@StronglySorted_nth_error _ path_le S n2 n1 r2 r1
                    (order_by_path_sorted P) E2 E1 Gt) as Le.
      unfold path_le in Le. apply string_ltb_leb in L. congruence.
Qed.

End AddResourcesFacts.

(** The project has [b.po] and [a.po]; [c.po] is new. *)
Lemma add_resources_orders_by_path_witness :
  let parsed :=
    {| sr_entities := [ex_tx "hello" "Hello" None (Some [])];
       sr_translations := [ex_tx "hello" "Hello" None (Some [])] |} in
  NoDup (map res_id (project_resources 1 ex_db_two_resources))
  /\ exists db' added_paths,
       add_resources (fun _ => "po") (fun _ => false) 0 ex_db_two_resources 1
         [("de", ex_de)] (ex_paths "" None) [("c.po", Some parsed)] [] 100
       = Ok (db', added_paths)
       /\ added_paths <> []
       /\ map (fun r => (res_path r, res_project r, res_order r))
            (db_resources db')
          = [("b.po", Some 1, 1); ("a.po", Some 1, 0); ("c.po", None, 0)]
       /\ Permutation (map res_order (project_resources 1 db'))
            (map Z.of_nat (seq 0 (List.length (project_resources 1 db'))))
       /\ forall r1 r2,
            In r1 (project_resources 1 db') ->
            In r2 (project_resources 1 db') ->
            String.ltb (res_path r1) (res_path r2) = true ->
            res_order r1 < res_order r2.
Proof.
  intro parsed.
  assert (N : NoDup (map res_id (project_resources 1 ex_db_two_resources))).
  { repeat constructor; simpl; intuition discriminate. }
  split; [exact N|].
  eexists. eexists. split; [vm_compute; reflexivity|].
  split; [discriminate|]. split; [reflexivity|].
  exact (@add_resources_orders_by_path (fun _ => "po") (fun _ => false) 0
           ex_db_two_resources 1 [("de", ex_de)] (ex_paths "" None)
           [("c.po", Some parsed)] [] 100 _ _ N eq_refl
           ltac:(discriminate)).
Defined.


(* ================================================================== *)
(** * Database wins *)
(* ================================================================== *)

Lemma NoDup_map_inj_In {A B} (f : A -> B) (l : list A) a b :
  NoDup (map f l) -> In a l -> In b l -> f a = f b -> a = b.
Proof.
  induction l as [|x l IH]; simpl; intros N Ia Ib E; [contradiction|].
  inversion N as [|? ? Hx N']; subst.
  destruct Ia as [-> | Ia]; destruct Ib as [-> | Ib]; auto.
  - exfalso. apply Hx. rewrite E. now apply in_map.
  - exfalso. apply Hx. rewrite <- E. now apply in_map.
Qed.

(** Deleting rows keeps the primary keys unique. *)
Lemma unique_pks_filter {R} `{Model R} (keep : R -> bool) (table : list R) :
  unique_pks table -> unique_pks (filter keep table).
Proof.
  unfold unique_pks. induction table as [|row table IH]; simpl; intro N.
  - constructor.
  - inversion N as [|? ? Fresh N']; subst.
    destruct (keep row); simpl; [constructor|]; auto.
    intro I. apply Fresh. apply in_map_iff in I. destruct I as [y [E I]].
    apply filter_In in I. rewrite <- E. apply in_map. tauto.
Qed.

Lemma drop_changed_keys (d : dict TxKey RepoTx) key k :
  In k (dict_keys (drop_changed d key)) -> In k (dict_keys d) /\ k <> key.
Proof.
  unfold drop_changed. destruct (dict_has d key) eqn:Hh.
  - apply dict_remove_keys.
  - intro I. split; [exact I|]. intros ->.
    apply dict_has_In in I. congruence.
Qed.

(** Once the loop over the changes is through, none of their keys is left
    in [translations]. *)
Lemma fold_drop_changed_keys keys : forall (d : dict TxKey RepoTx) k,
  In k (dict_keys (fold_left drop_changed keys d)) ->
  In k (dict_keys d) /\ ~ In k keys.
Proof.
  induction keys as [|key keys IH]; simpl; intros d k I.
  - tauto.
  - apply IH in I. destruct I as [I N].
    apply drop_changed_keys in I. destruct I as [I Ne].
    split; [exact I|]. intros [-> | I']; [congruence | contradiction].
Qed.

(** The keys of [res] come from entries of [translations] whose entity
    was found. *)
Lemma res_keys (entities : dict (string * string) Z)
  (translations : dict TxKey RepoTx) : forall (acc : dict (Z * Z) RepoTx) e l,
  In (e, l)
    (dict_keys
       (fold_left
          (fun res kv =>
             let '(db_path, ent_key, locale_id) := fst kv in
             match dict_get entities (db_path, ent_key) with
             | Some entity_id => dict_set res (entity_id, locale_id) (snd kv)
             | None => res
             end)
          translations acc)) ->
  In (e, l) (dict_keys acc)
  \/ exists db_path ent_key,
       In (db_path, ent_key, l) (dict_keys translations)
       /\ dict_get entities (db_path, ent_key) = Some e.
Proof.
  induction translations as [|[[[db_path ent_key] locale_id] v] trs IH];
    simpl; intros acc e l I.
  - now left.
  - apply IH in I. destruct I as [I | [p [k [I G]]]].
    + destruct (dict_get entities (db_path, ent_key)) as [id|] eqn:G.
      * apply dict_set_keys in I. destruct I as [I | Q]; [now left|].
        inversion Q; subst. right. exists db_path, ent_key. auto.
      * now left.
    + right. exists p, k. auto.
Qed.

Lemma matching_entities_In db entity_q k e :
  dict_get (dict_of (matching_entities db entity_q)) k = Some e ->
  exists E R q,
    In E (db_entities db) /\ ent_id E = Some e
    /\ In q entity_q /\ fk_eq (ent_resource E) (res_id (fst q)) = true
    /\ In R (db_resources db) /\ fk_eq (ent_resource E) (res_id R) = true
    /\ k = (res_path R, str_or (ent_key E) (ent_string E)).
Proof.
  intro G. apply dict_get_In in G. apply dict_update_In in G.
  destruct G as [[] | [[k' e'] [I [Ek Ee]]]]. simpl in Ek, Ee. subst k' e'.
  unfold matching_entities in I. apply in_flat_map in I.
  destruct I as [E [IE I]].
  destruct (ent_id E) as [id|] eqn:Hid; [|contradiction].
  destruct (existsb _ entity_q) eqn:X; [|contradiction].
  apply existsb_exists in X. destruct X as [q [Iq Hq]].
  apply andb_true_iff in Hq. destruct Hq as [Hq _].
  apply in_map_iff in I. destruct I as [R [Q IR]]. inversion Q; subst.
  unfold resources_with_id in IR. apply filter_In in IR.
  destruct IR as [IR FR].
  exists E, R, q. repeat split; auto.
Qed.

Section DatabaseWins.

Variable join : string -> string -> string.
Variable relpath : string -> string -> string.
Variable splitext : string -> string * string.
Variable bilingual_extensions : list string.
Variable parse_android_locale : string -> option string.
Variable parse_target : string -> string -> Locale -> result (list VCSTranslation).

(** A key of the result of [find_updates_from_repo_to_db] names an entity
    of the database for which no change is recorded. *)
Lemma find_updates_skips_changed db project locales checkouts ref_checkout
  paths res e l :
  NoDup (map res_id (db_resources db)) ->
  find_updates_from_repo_to_db join relpath parse_android_locale parse_target
    db project locales checkouts ref_checkout paths = Ok (Some res) ->
  In (e, l) (dict_keys res) ->
  (exists E, In E (db_entities db) /\ ent_id E = Some e)
  /\ ~ In (changed_entity_locale e l) (db_changed_entity_locales db).
Proof.
  intros N F I. unfold find_updates_from_repo_to_db in F.
  set (c := collect _ _ _ _ _ _ _ _) in F.
  destruct (is_nil (translations c)); [discriminate|].
  set (resources := dict_of _) in F.
  match type of F with
  | (if is_nil ?t then _ else _) = _ => set (translations1 := t) in F
  end.
  destruct (is_nil translations1); [discriminate|].
  set (translations2 := fold_left drop_changed _ translations1) in F.
  destruct (is_nil translations2); [discriminate|].
  bind_inv F. rename a into entity_q, E into Eq.
  inversion F; subst res; clear F.
  apply res_keys in I. destruct I as [[] | [db_path [ent_key [I G]]]].
  apply matching_entities_In in G.
  destruct G as [E [R [q [IE [Hid [Iq [Hq [IR [HR Hk]]]]]]]]].
  split; [eauto|]. intro C.
  (* the resource of the entity belongs to the project *)
  destruct (map_result_In _ _ _ Eq Iq) as [[[[p k] lo] v] [_ Hq']].
  simpl in Hq'. bind_inv Hq'. inversion Hq'; subst q; clear Hq'. simpl in Hq.
  unfold dict_item in E0. destruct (dict_get resources p) eqn:G; [|discriminate].
  inversion E0; subst r; clear E0.
  apply dict_get_In in G. unfold resources in G. apply dict_update_In in G.
  destruct G as [[] | [[p' r'] [Ir [_ Er]]]]. simpl in Er. subst r'.
  apply in_map_iff in Ir. destruct Ir as [r [Qr Ir]]. inversion Qr; subst r p'.
  apply filter_In in Ir. destruct Ir as [Ir _].
  unfold project_resources in Ir. apply filter_In in Ir.
  destruct Ir as [Ia Pa].
  assert (R = a).
  { apply (NoDup_map_inj_In res_id (db_resources db)); auto.
    apply fk_eq_true in HR. apply fk_eq_true in Hq.
    destruct HR as [<- _]. destruct Hq as [<- _]. reflexivity. }
  subst a.
  (* so the key is one of the changed keys, which were all dropped *)
  inversion Hk; subst db_path ent_key.
  apply fold_drop_changed_keys in I. destruct I as [_ I]. apply I.
  unfold changed_keys. apply in_flat_map.
  exists (changed_entity_locale e l). split; [exact C|].
  apply in_flat_map. exists E. split.
  { unfold entities_with_id. apply filter_In. split; [exact IE|].
    simpl. rewrite Hid. simpl. apply Z.eqb_refl. }
  apply in_flat_map. exists R. split.
  { unfold resources_with_id. apply filter_In. auto. }
  rewrite Pa. now left.
Qed.

End DatabaseWins.

(** ** [update_db_translations] touches only the keys it is given *)

Lemma for_each_invariant {A S} (body : S -> A -> result S) (P : S -> Prop)
  (xs : list A) :
  (forall s x s', In x xs -> P s -> body s x = Ok s' -> P s') ->
  forall s0 s, P s0 -> for_each body xs s0 = Ok s -> P s.
Proof.
  induction xs as [|x xs IH]; simpl; intros Step s0 s P0 E.
  - inversion E; subst. exact P0.
  - bind_inv E. apply (IH (fun s x s' I => Step s x s' (or_intror I)) a s).
    + apply (Step s0 x a); auto.
    + exact E.
Qed.

Lemma approve_suggestion_invariant db rt0 sync_user now st loaded st' :
  In loaded (db_translations db) ->
  approve_invariant db rt0 st ->
  approve_suggestion db sync_user now st loaded = Ok st' ->
  approve_invariant db rt0 st'.
Proof.
  intros Il [Ik [Is Iq]] E. unfold approve_suggestion in E.
  bind_inv E. destruct a as [strings fuzzy]. rename E0 into Ei.
  bind_inv E. rename a into rt', E0 into Ed.
  assert (Key : In (tr_entity loaded, tr_locale loaded) (dict_keys rt0)).
  { apply Ik. unfold dict_item in Ei.
    destruct (dict_get (as_repo_translations st) _) eqn:G; [|discriminate].
    apply dict_get_In in G. unfold dict_keys.
    change (tr_entity loaded, tr_locale loaded)
      with (fst ((tr_entity loaded, tr_locale loaded), r)).
    now apply in_map. }
  assert (Rt : forall k, In k (dict_keys rt') -> In k (dict_keys rt0)).
  { intros k I. apply Ik. unfold dict_del in Ed.
    destruct (dict_get (as_repo_translations st) _); [|discriminate].
    inversion Ed; subst. now apply dict_remove_keys in I. }
  destruct (tr_rejected loaded); destruct fuzzy; simpl in E.
  all: try (bind_inv E; bind_inv E0; bind_inv E0; inversion E0; subst a;
            simpl in E).
  all: inversion E; subst st'; clear E.
  all: split; [exact Rt|]; simpl; split.
  all: try (intros o Io; apply in_app_or in Io;
            destruct Io as [Io | [<- | []]];
            [now apply Is | simpl; split; [exact Key|]; exists loaded; auto]).
  all: try (intros q Hq; apply in_app_or in Hq;
            destruct Hq as [Hq | [<- | []]]; [now apply Iq | exact Key]).
  all: exact Iq.
Qed.

Lemma new_translations_of_keys rt now t :
  In t (new_translations_of rt now) ->
  In (tr_entity t, tr_locale t) (dict_keys rt).
Proof.
  unfold new_translations_of. intro I. apply in_flat_map in I.
  destruct I as [[[entity_id locale_id] [strings fuzzy]] [Ik I]].
  apply in_map_iff in I. destruct I as [ps [<- _]]. simpl.
  unfold dict_keys.
  change (entity_id, locale_id)
    with (fst ((entity_id, locale_id), (strings, fuzzy))).
  now apply in_map.
Qed.

Lemma rows_of_app e l a b :
  rows_of e l (a ++ b) = (rows_of e l a ++ rows_of e l b)%list.
Proof. apply filter_app. Qed.

Lemma rows_of_In e l rows t :
  In t (rows_of e l rows) <-> In t rows /\ tr_entity t = e /\ tr_locale t = l.
Proof.
  unfold rows_of. rewrite filter_In, andb_true_iff, !Z.eqb_eq. tauto.
Qed.

(** A map that keeps the key of every row and leaves the rows of
    [(e, l)] as they are does not change the rows of [(e, l)]. *)
Lemma rows_of_map e l (f : Translation -> Translation) rows :
  (forall t, In t rows -> tr_entity (f t) = tr_entity t
                          /\ tr_locale (f t) = tr_locale t) ->
  (forall t, In t rows -> tr_entity t = e -> tr_locale t = l -> f t = t) ->
  rows_of e l (map f rows) = rows_of e l rows.
Proof.
  induction rows as [|t rows IH]; simpl; intros K F; [reflexivity|].
  destruct (K t (or_introl eq_refl)) as [Ke Kl]. rewrite Ke, Kl.
  rewrite IH.
  2: { intros t' I. apply K. now right. }
  2: { intros t' I. apply F. now right. }
  destruct ((tr_entity t =? e) && (tr_locale t =? l)) eqn:B; [|reflexivity].
  apply andb_true_iff in B. destruct B as [Be Bl].
  apply Z.eqb_eq in Be, Bl. rewrite (F t); auto.
Qed.

Lemma rows_of_none e l rows :
  (forall t, In t rows -> (tr_entity t, tr_locale t) <> (e, l)) ->
  rows_of e l rows = [].
Proof.
  intro H. apply filter_none. intros t I.
  apply andb_false_iff.
  destruct (Z.eqb_spec (tr_entity t) e) as [Ee|]; [|now left].
  destruct (Z.eqb_spec (tr_locale t) l) as [El|]; [|now right].
  exfalso. apply (H t I). congruence.
Qed.

(** Every column write keeps the key of the row. *)
Lemma translation_columns_keep_key fields cols :
  map_result
    (fun name =>
       match get_field name with
       | Some c => Ok c
       | None => Raise FieldDoesNotExist
       end) fields = Ok cols ->
  forall (o r : Translation),
    tr_entity (fold_left (fun r c => c o r) cols r) = tr_entity r
    /\ tr_locale (fold_left (fun r c => c o r) cols r) = tr_locale r.
Proof.
  intros M o. apply map_result_Ok in M.
  induction M as [|name c fields cols Hc _ IH]; simpl; intro r; [auto|].
  destruct (IH (c o r)) as [-> ->].
  simpl in Hc.
  repeat match type of Hc with
         | context [if String.eqb ?a ?b then _ else _] =>
             destruct (String.eqb a b); simpl in Hc
         end;
    inversion Hc; subst c; simpl; auto.
Qed.

Lemma reject_keeps_key now t :
  tr_entity (reject now t) = tr_entity t
  /\ tr_locale (reject now t) = tr_locale t.
Proof. split; reflexivity. Qed.

Lemma reject_matches_key t q :
  reject_matches t q = true ->
  tr_entity t = rq_entity q /\ tr_locale t = rq_locale q.
Proof.
  unfold reject_matches. rewrite !andb_true_iff, !Z.eqb_eq. tauto.
Qed.

Lemma update_db_translations_frame db rt now db' e l :
  NoDup (map tr_id (db_translations db)) ->
  ~ In (e, l) (dict_keys rt) ->
  update_db_translations db rt now = Ok db' ->
  rows_of e l (db_translations db') = rows_of e l (db_translations db).
Proof.
  intros N Nk U. unfold update_db_translations in U.
  bind_inv U. rename a into sync_user.
  bind_inv U. rename a into st, E0 into Loop.
  bind_inv U. rename a into translations', E0 into Upd.
  (* the loop *)
  assert (Inv : approve_invariant db rt st).
  { revert Loop. apply for_each_invariant.
    - intros s x s' Ix. apply approve_suggestion_invariant.
      now apply filter_In in Ix.
    - split; [|split]; simpl; [auto | intros o [] | intros q []]. }
  destruct Inv as [Ik [Is Iq]].
  (* the bulk_update of the suggestions *)
  apply bulk_update_Ok in Upd. destruct Upd as [_ [cols [Hc ->]]].
  assert (R1 : rows_of e l
                 (map (fun row =>
                         match find (fun o => fk_eq (pk o) (pk row))
                                 (as_suggestions st) with
                         | Some o => fold_left (fun r c => c o r) cols row
                         | None => row
                         end) (db_translations db))
               = rows_of e l (db_translations db)).
  { apply rows_of_map.
    - intros t _. destruct (find _ _); [|auto].
      apply (translation_columns_keep_key _ Hc).
    - intros t It Ee El.
      destruct (find _ (as_suggestions st)) as [o|] eqn:F; [|reflexivity].
      exfalso. apply find_some in F. destruct F as [Io Fo].
      apply fk_eq_true in Fo. destruct Fo as [Fo _].
      destruct (Is o Io) as [Ko [t' [It' [Hid [He Hl]]]]].
      assert (t' = t).
      { apply (NoDup_map_inj_In tr_id (db_translations db)); auto.
        simpl in Fo. congruence. }
      subst t'. apply Nk. congruence. }
  match type of R1 with
  | rows_of _ _ ?t = _ => set (T1 := t) in *
  end.
  simpl in U.
  (* the new translations, the rejections and the action log *)
  destruct (negb (is_nil (as_repo_translations st))) eqn:Hrt; simpl in U.
  - set (news := new_translations_of (as_repo_translations st) now) in *.
    set (created := assign_pks (next_pk T1) news) in *.
    assert (Kc : forall t, In t created ->
                           In (tr_entity t, tr_locale t) (dict_keys rt)).
    { intros t It. apply assign_pks_In in It. destruct It as [o [Io Ho]].
      apply new_translations_of_keys in Io. apply Ik in Io.
      destruct Ho as [-> | [i ->]]; exact Io. }
    assert (R2 : rows_of e l (T1 ++ created) = rows_of e l (db_translations db)).
    { rewrite rows_of_app, R1, (@rows_of_none e l created), app_nil_r; auto.
      intros t It Q. apply Nk. rewrite <- Q. now apply Kc. }
    match type of U with
    | (let '(_, _) := if negb (is_nil ?q) then _ else _ in _) = _ =>
        set (to_reject := q) in *
    end.
    assert (Kq : forall q, In q to_reject ->
                           In (rq_entity q, rq_locale q) (dict_keys rt)).
    { intros q Hq. apply in_app_or in Hq. destruct Hq as [Hq | Hq].
      - now apply Iq.
      - apply in_map_iff in Hq. destruct Hq as [t [<- It]]. simpl.
        now apply Kc. }
    destruct (negb (is_nil to_reject)) eqn:Hq; simpl in U.
    + assert (R3 : rows_of e l
                     (map (fun t =>
                             if negb (tr_rejected t)
                                && q_filter reject_matches to_reject t
                             then reject now t else t) (T1 ++ created))
                   = rows_of e l (db_translations db)).
      { rewrite <- R2. apply rows_of_map.
        - intros t _. destruct (_ && _); auto.
        - intros t _ Ee El.
          destruct (negb (tr_rejected t)); simpl; [|reflexivity].
          unfold q_filter. apply negb_true_iff in Hq. rewrite Hq. simpl.
          destruct (existsb (reject_matches t) to_reject) eqn:X;
            [|reflexivity].
          exfalso. apply existsb_exists in X. destruct X as [q [Hq' M]].
          apply reject_matches_key in M. destruct M as [Me Ml].
          apply Nk. specialize (Kq q Hq'). congruence. }
      destruct (negb (is_nil _)) in U; inversion U; subst db'; simpl;
        exact R3.
    + destruct (negb (is_nil _)) in U; inversion U; subst db'; simpl;
        exact R2.
  - match type of U with
    | (let '(_, _) := if negb (is_nil ?q) then _ else _ in _) = _ =>
        set (to_reject := q) in *
    end.
    destruct (negb (is_nil to_reject)) eqn:Hq; simpl in U.
    + assert (R3 : rows_of e l
                     (map (fun t =>
                             if negb (tr_rejected t)
                                && q_filter reject_matches to_reject t
                             then reject now t else t) T1)
                   = rows_of e l (db_translations db)).
      { rewrite <- R1. apply rows_of_map.
        - intros t _. destruct (_ && _); auto.
        - intros t _ Ee El.
          destruct (negb (tr_rejected t)); simpl; [|reflexivity].
          unfold q_filter. apply negb_true_iff in Hq. rewrite Hq. simpl.
          destruct (existsb (reject_matches t) to_reject) eqn:X;
            [|reflexivity].
          exfalso. apply existsb_exists in X. destruct X as [q [Hq' M]].
          apply reject_matches_key in M. destruct M as [Me Ml].
          apply Nk. specialize (Iq q Hq'). congruence. }
      destruct (negb (is_nil _)) in U; inversion U; subst db'; simpl;
        exact R3.
    + destruct (negb (is_nil _)) in U; inversion U; subst db'; simpl;
        exact R1.
Qed.

(** ** The entity phase only removes rows *)

(** [update_resources] returns only when [updates] is empty: otherwise
    the [bulk_update] of the string counts raises. *)
Lemma update_resources_Ok db project updates now out :
  update_resources db project updates now = Ok out ->
  updates = [] /\ out = (db, []).
Proof.
  unfold update_resources. destruct updates as [|u updates]; simpl.
  - intro E. inversion E. auto.
  - intro E. exfalso. bind_inv E. bind_inv E.
    apply bulk_update_Ok in E1. destruct E1 as [_ [cols [Hc _]]].
    vm_compute in Hc. discriminate.
Qed.

Section EntityPhase.

Variable relpath : string -> string -> string.
Variable parse_source : string -> Locale -> result SilmeResource.
Variable get_path_format : string -> string.
Variable isfile : string -> bool.
Variable default_order : Z.

Lemma sync_entities_from_repo_Ok db project locale_map paths ref_root
  changed removed now db1 out :
  sync_entities_from_repo relpath parse_source get_path_format isfile
    default_order db project locale_map paths ref_root changed removed now
  = Ok (db1, out) ->
  db1 = db \/ exists doomed, db1 = delete_resources doomed db.
Proof.
  unfold sync_entities_from_repo. intro E.
  bind_inv E. bind_inv E. rename a0 into updates.
  destruct (remove_resources relpath db project ref_root removed)
    as [dbr removed_paths] eqn:Rm.
  bind_inv E. destruct a0 as [db2 changed_paths].
  apply update_resources_Ok in E2. destruct E2 as [-> Q].
  inversion Q; subst db2 changed_paths; clear Q.
  simpl in E. inversion E; subst db1 out; clear E.
  unfold remove_resources in Rm.
  destruct (is_nil removed); [inversion Rm; auto|].
  destruct (is_nil _) in Rm; inversion Rm; eauto.
Qed.

End EntityPhase.

Lemma delete_resources_translations doomed db t :
  In t (db_translations (delete_resources doomed db)) ->
  In t (db_translations db).
Proof. unfold delete_resources. simpl. intro I. now apply filter_In in I. Qed.

Lemma delete_resources_unique doomed db :
  unique_pks (db_resources db) -> unique_pks (db_translations db) ->
  unique_pks (db_resources (delete_resources doomed db))
  /\ unique_pks (db_translations (delete_resources doomed db)).
Proof.
  unfold delete_resources. simpl.
  split; now apply unique_pks_filter.
Qed.

(** After resources are deleted, a change marker is still there or its
    entity is gone. *)
Lemma delete_resources_protects doomed db e l :
  unique_pks (db_entities db) ->
  In (changed_entity_locale e l) (db_changed_entity_locales db) ->
  In (changed_entity_locale e l)
    (db_changed_entity_locales (delete_resources doomed db))
  \/ ~ (exists E, In E (db_entities (delete_resources doomed db))
                  /\ ent_id E = Some e).
Proof.
  unfold unique_pks, delete_resources. simpl. intros N C.
  destruct (existsb (fun E => fk_eq (Some e) (ent_id E))
              (filter
                 (fun E =>
                    existsb (fun r => fk_eq (ent_resource E) (res_id r)) doomed)
                 (db_entities db))) eqn:G.
  - right. intros [E [IE Hid]]. apply filter_In in IE.
    destruct IE as [IE Live].
    apply existsb_exists in G. destruct G as [D [ID HD]].
    apply filter_In in ID. destruct ID as [ID Dead].
    apply fk_eq_true in HD. destruct HD as [HD _].
    assert (D = E).
    { apply (@NoDup_map_inj_In _ _ ent_id (db_entities db)); auto.
      simpl. congruence. }
    subst D. rewrite Dead in Live. discriminate.
  - left. apply filter_In. split; [exact C|]. apply negb_true_iff. exact G.
Qed.

Section DatabaseWinsSync.

Variable join : string -> string -> string.
Variable relpath : string -> string -> string.
Variable normpath : string -> string.
Variable commonpath : string -> string -> string.
Variable splitext : string -> string * string.
Variable format_url : string -> string -> string.
Variable bilingual_extensions : list string.
Variable parse_android_locale : string -> option string.
Variable parse_source : string -> Locale -> result SilmeResource.
Variable parse_target : string -> string -> Locale -> result (list VCSTranslation).
Variable get_path_format : string -> string.
Variable isfile : string -> bool.
Variable default_order : Z.
Variable L10nConfigPaths : string -> Paths.
Variable L10nDiscoverPaths : string -> option string -> Paths.
Variable revision : string -> string -> option string.
Variable changed_files :
  string -> string -> string -> option (list string * list string).
Variable tree : string -> FsTree.

(** [sync_translations_from_repo] leaves the rows of [(e, l)] as they are
    when a change is recorded for [(e, l)], and also when no entity has the
    key [e]. *)
Lemma sync_translations_from_repo_frame db project locales checkouts
  ref_checkout paths now e l :
  unique_pks (db_resources db) ->
  unique_pks (db_translations db) ->
  In (changed_entity_locale e l) (db_changed_entity_locales db)
  \/ ~ (exists E, In E (db_entities db) /\ ent_id E = Some e) ->
  rows_of e l
    (db_translations
       (fst (sync_translations_from_repo join relpath splitext
               bilingual_extensions parse_android_locale parse_target db
               project locales checkouts ref_checkout paths now)))
  = rows_of e l (db_translations db).
Proof.
  unfold unique_pks. intros Nr Nt P. unfold sync_translations_from_repo.
  destruct (delete_removed_translated_resources _ _ _ _ _ _ _ _ _ _)
    as [db1 n] eqn:D.
  assert (Fr : db_resources db1 = db_resources db
               /\ db_entities db1 = db_entities db
               /\ db_translations db1 = db_translations db
               /\ db_changed_entity_locales db1 = db_changed_entity_locales db).
  { unfold delete_removed_translated_resources in D.
    destruct (negb (is_nil _)) in D; inversion D; simpl; auto. }
  destruct Fr as [Fr [Fe [Ft Fc]]].
  destruct (find_updates_from_repo_to_db _ _ _ _ _ _ _ _ _ _)
    as [[rt|]|ex] eqn:F; simpl; try (now rewrite Ft).
  destruct (negb (is_nil rt)); simpl; [|now rewrite Ft].
  destruct (update_db_translations db1 rt now) as [db'|ex] eqn:U; simpl;
    [|now rewrite Ft].
  rewrite <- Ft. apply (@update_db_translations_frame db1 rt now db' e l).
  - now rewrite Ft.
  - intro I.
    destruct (@find_updates_skips_changed join relpath parse_android_locale
                parse_target db1 project locales checkouts ref_checkout paths
                rt e l) as [Ex Nc]; auto.
    + now rewrite Fr.
    + rewrite Fe in Ex. rewrite Fc in Nc. tauto.
  - exact U.
Qed.

(** C2. A change is recorded for [(e, l)] when [sync_project] starts:
    every translation of [(e, l)] the run leaves in the database was there
    before, with the same columns. No row of [(e, l)] is created and none
    is modified, whatever the plural form. Primary keys are assumed to
    identify the rows. *)
Theorem database_wins db project pull now e l :
  wf_db db ->
  In (changed_entity_locale e l) (db_changed_entity_locales db) ->
  forall t,
    In t (db_translations
            (fst (sync_project join relpath normpath commonpath splitext
                    format_url bilingual_extensions parse_android_locale
                    parse_source parse_target get_path_format isfile
                    default_order L10nConfigPaths L10nDiscoverPaths revision
                    changed_files tree db project pull now))) ->
    tr_entity t = e -> tr_locale t = l ->
    In t (db_translations db).
Proof.
  intros [Nr [Ne Nt]] C t. unfold sync_project.
  destruct (is_nil _); simpl; [auto|].
  destruct (get_paths _ _ _ _ _ _) as [[paths ref_checkout]|ex];
    simpl; [|auto].
  destruct (sync_entities_from_repo _ _ _ _ _ _ _ _ _ _ _ _ _)
    as [[db1 out]|ex] eqn:S; simpl; [|auto].
  apply sync_entities_from_repo_Ok in S.
  assert (H1 : unique_pks (db_resources db1)
               /\ unique_pks (db_translations db1)
               /\ (forall t, In t (db_translations db1) ->
                             In t (db_translations db))
               /\ (In (changed_entity_locale e l)
                     (db_changed_entity_locales db1)
                   \/ ~ (exists E, In E (db_entities db1)
                                   /\ ent_id E = Some e))).
  { destruct S as [-> | [doomed ->]].
    - auto.
    - destruct (@delete_resources_unique doomed db Nr Nt) as [Nr1 Nt1].
      repeat split; auto.
      + intros t'. apply delete_resources_translations.
      + now apply delete_resources_protects. }
  destruct H1 as [Nr1 [Nt1 [Sub P]]].
  intros It He Hl. apply Sub.
  assert (I : In t (rows_of e l (db_translations db1))).
  { rewrite <- (@sync_translations_from_repo_frame db1 (proj_id project)
                  (dict_of
                     (map (fun lc => (loc_code lc, lc))
                        (order_by_code (proj_locales project))))
                  (get_checkouts join relpath normpath format_url revision
                     changed_files tree project pull)
                  ref_checkout
                  (with_locales
                     (dict_keys
                        (dict_of
                           (map (fun lc => (loc_code lc, lc))
                              (order_by_code (proj_locales project)))))
                     paths)
                  now e l Nr1 Nt1 P).
    apply rows_of_In. auto. }
  now apply rows_of_In in I.
Qed.

End DatabaseWinsSync.

(** The repository has [Hallo neu] for [hello], the database holds the
    approved [Hallo] and the suggestion [Hallo neu], and a change is
    recorded for [(hello, de)]: the run leaves both rows as they are. *)
Lemma database_wins_witness :
  let rows := [ex_translation 1 None "Hallo" true;
               ex_translation 2 None "Hallo neu" false] in
  let run := ex_sync_project [(None, "Hallo neu")] false (ex_db_changed rows)
               100 in
  wf_db (ex_db_changed rows)
  /\ In (changed_entity_locale 1 1)
       (db_changed_entity_locales (ex_db_changed rows))
  /\ snd run = Ok tt
  /\ db_translations (fst run) = rows
  /\ forall t, In t (db_translations (fst run)) ->
               tr_entity t = 1 -> tr_locale t = 1 ->
               In t (db_translations (ex_db_changed rows)).
Proof.
  intros rows run.
  assert (W : wf_db (ex_db_changed rows)).
  { unfold wf_db, unique_pks. simpl.
    repeat split; repeat constructor; simpl; intuition discriminate. }
  assert (C : In (changed_entity_locale 1 1)
                (db_changed_entity_locales (ex_db_changed rows))).
  { left. reflexivity. }
  split; [exact W|]. split; [exact C|].
  split; [reflexivity|]. split; [reflexivity|].
  exact (@database_wins ex_join ex_relpath (fun p => p) (fun a _ => a)
           (fun p => (p, "")) (fun url _ => url) [".po"] (fun _ => None)
           (fun _ _ => Raise ParseError)
           (ex_parse_target [(None, "Hallo neu")] false)
           (fun _ => "po") (fun _ => false) 0 (fun _ => ex_paths "" None)
           ex_paths (fun _ _ => Some "r1") ex_changed_files
           (fun _ => Dir "" [] []) (ex_db_changed rows) ex_project true 100
           1 1 W C).
Defined.

(** Without the marker the same run approves the suggestion and rejects
    the approved row. *)
Lemma without_marker_repo_wins :
  let rows := [ex_translation 1 None "Hallo" true;
               ex_translation 2 None "Hallo neu" false] in
  map (fun t => (tr_string t, tr_approved t, tr_rejected t))
    (db_translations
       (fst (ex_sync_project [(None, "Hallo neu")] false (ex_db rows) 100)))
  = [("Hallo", false, true); ("Hallo neu", true, false)].
Proof. reflexivity. Qed.

(* ================================================================== *)
(** * Further properties: paths *)
(* ================================================================== *)

Lemma substring_all s : substring 0 (String.length s) s = s.
Proof. induction s as [|c s IH]; simpl; [reflexivity | now rewrite IH]. Qed.

(** A suffix no longer than the tail is looked for in the tail. *)
Lemma endswith_tail c s suffix :
  (String.length suffix <= String.length s)%nat ->
  endswith (String c s) suffix = endswith s suffix.
Proof.
  intro L. unfold endswith. simpl String.length.
  replace (String.length suffix <=? S (String.length s))%nat with true
    by (symmetry; apply Nat.leb_le; lia).
  replace (String.length suffix <=? String.length s)%nat with true
    by (symmetry; now apply Nat.leb_le).
  replace (S (String.length s) - String.length suffix)%nat
    with (S (String.length s - String.length suffix)) by lia.
  reflexivity.
Qed.

Lemma endswith_split s : forall suffix,
  endswith s suffix = true -> exists pre, s = pre ++ suffix.
Proof.
  induction s as [|c s IH]; intros suffix E.
  - unfold endswith in E. apply andb_true_iff in E. destruct E as [L _].
    apply Nat.leb_le in L. destruct suffix; simpl in L; [|lia].
    exists "". reflexivity.
  - destruct (Nat.le_gt_cases (String.length suffix) (String.length s))
      as [L | G].
    + rewrite endswith_tail in E by assumption.
      destruct (IH suffix E) as [pre ->]. exists (String c pre). reflexivity.
    + unfold endswith in E. apply andb_true_iff in E. destruct E as [L E].
      apply Nat.leb_le in L. simpl String.length in *.
      assert (Q : String.length suffix = S (String.length s)) by lia.
      rewrite Q, Nat.sub_diag in E.
      change (S (String.length s)) with (String.length (String c s)) in E.
      rewrite substring_all in E. apply String.eqb_eq in E.
      exists "". now rewrite E.
Qed.

Lemma drop_last_pot pre : drop_last (pre ++ ".pot") = pre ++ ".po".
Proof.
  unfold drop_last. induction pre as [|c pre IH]; [reflexivity|].
  simpl String.length. simpl append.
  replace (S (String.length (pre ++ ".pot")) - 1)%nat
    with (S (String.length (pre ++ ".pot") - 1)).
  - simpl. now rewrite IH.
  - assert (0 < String.length (pre ++ ".pot"))%nat
      by (clear; induction pre; simpl; lia).
    lia.
Qed.

Lemma po_is_not_pot pre : endswith (pre ++ ".po") ".pot" = false.
Proof.
  induction pre as [|c pre IH]; [reflexivity|].
  simpl append. destruct pre as [|d pre].
  - unfold endswith. simpl. destruct (Ascii.eqb c "."); reflexivity.
  - rewrite endswith_tail; [exact IH|].
    simpl. clear. induction pre; simpl; lia.
Qed.

(** X1. A path that went through the [.pot] rewrite never ends in
    [.pot]: [x.pot] becomes [x.po], and every other path is left as it
    is. *)
Theorem strip_pot_never_pot path :
  endswith (strip_pot path) ".pot" = false
  /\ (endswith path ".pot" = false -> strip_pot path = path)
  /\ strip_pot (strip_pot path) = strip_pot path.
Proof.
  assert (A : endswith (strip_pot path) ".pot" = false).
  { unfold strip_pot. destruct (endswith path ".pot") eqn:E; [|exact E].
    apply endswith_split in E. destruct E as [pre ->].
    rewrite drop_last_pot. apply po_is_not_pot. }
  split; [exact A|]. split.
  - intro E. unfold strip_pot. now rewrite E.
  - unfold strip_pot at 1. now rewrite A.
Qed.

Lemma strip_pot_never_pot_witness :
  strip_pot "locale/app.pot" = "locale/app.po"
  /\ endswith (strip_pot "locale/app.pot") ".pot" = false.
Proof.
  split; [reflexivity|]. exact (proj1 (strip_pot_never_pot "locale/app.pot")).
Defined.

(* ================================================================== *)
(** * Further properties of [entity_from_source] and [entities_same] *)
(* ================================================================== *)

(** X2. Two entities built from one parsed entry are the same for
    [entities_same], whatever the resource, the time and the index they
    were built with: parsing an unchanged file again never makes an entity
    count as modified. *)
Theorem entity_from_source_same_entry resource1 resource2 now1 now2 idx1 idx2
  tx e1 e2 :
  entity_from_source resource1 now1 idx1 tx = Ok e1 ->
  entity_from_source resource2 now2 idx2 tx = Ok e2 ->
  entities_same e1 e2 = true.
Proof.
  unfold entity_from_source.
  destruct (join_lines_of (tx_group_comments tx)); simpl; [|discriminate].
  destruct (join_lines_of (tx_resource_comments tx)); simpl; [|discriminate].
  intros E1 E2. inversion E1; inversion E2; subst.
  unfold entities_same. simpl. now rewrite !String.eqb_refl.
Qed.

Lemma entity_from_source_same_entry_witness :
  exists e1 e2,
    entity_from_source ex_resource 100 0 (ex_tx "hello" "Hello" None (Some []))
    = Ok e1
    /\ entity_from_source ex_resource 200 5 (ex_tx "hello" "Hello" None (Some []))
       = Ok e2
    /\ ent_order e1 <> ent_order e2
    /\ entities_same e1 e2 = true.
Proof.
  eexists. eexists. split; [reflexivity|]. split; [reflexivity|].
  split; [discriminate|].
  exact (@entity_from_source_same_entry ex_resource ex_resource 100 200 0 5
           (ex_tx "hello" "Hello" None (Some [])) _ _ eq_refl eq_refl).
Defined.

(* ================================================================== *)
(** * Further properties of [update_resources] *)
(* ================================================================== *)

Lemma filter_nil_In {A} (p : A -> bool) (l : list A) x :
  filter p l = [] -> In x l -> p x = false.
Proof.
  intros E I. destruct (p x) eqn:P; [|reflexivity].
  assert (J : In x (filter p l)) by (apply filter_In; auto).
  rewrite E in J. destruct J.
Qed.

(** The row a [bulk_update] of the columns [obsolete] and
    [date_obsoleted] leaves, when its objects are the entities of [prev]
    that [keep] selects, marked obsolete at [now]. *)
Lemma find_obsoleted now (keep : (string * string) * Entity -> bool)
  (prev : dict (string * string) Entity) row :
  match
    find (fun o => fk_eq (ent_id o) (ent_id row))
      (map (fun kv =>
              with_ent_date_obsoleted (Some now)
                (with_ent_obsolete true (snd kv)))
         (filter keep prev))
  with
  | Some o =>
      with_ent_date_obsoleted (ent_date_obsoleted o)
        (with_ent_obsolete (ent_obsolete o) row)
  | None => row
  end
  = if existsb (fun kv => keep kv && fk_eq (ent_id (snd kv)) (ent_id row)) prev
    then with_ent_date_obsoleted (Some now) (with_ent_obsolete true row)
    else row.
Proof.
  induction prev as [|kv prev IH]; simpl; [reflexivity|].
  destruct (keep kv); simpl.
  - destruct (fk_eq (ent_id (snd kv)) (ent_id row)); simpl; auto.
  - exact IH.
Qed.

(** X3. When the entity phase of [update_resources] returns, every entity
    row that was in the table is either as it was, or marked obsolete at
    [now]; it is marked exactly when it has the key of an entity of
    [prev_entities] whose [(path, key or string)] is not in the parsed
    files. No other column of an existing row is written: a run in which an
    entity of [next_entities] differs from the one in the database does not
    return. Resources and translations are left as they are. *)
Theorem update_entities_keeps_or_obsoletes db project changed_resources
  updates now out :
  update_entities db project changed_resources updates now = Ok out ->
  exists next created,
    next_entities_of changed_resources updates now = Ok next
    /\ db_entities (fst out)
       = (map (fun row =>
                 if existsb
                      (fun kv => negb (dict_has next (fst kv))
                                 && fk_eq (ent_id (snd kv)) (ent_id row))
                      (prev_entities_of changed_resources db)
                 then with_ent_date_obsoleted (Some now)
                        (with_ent_obsolete true row)
                 else row)
            (db_entities db) ++ created)%list
    /\ (forall k e prev,
          In (k, e) next ->
          dict_get (prev_entities_of changed_resources db) k = Some prev ->
          entities_same e prev = true)
    /\ db_resources (fst out) = db_resources db
    /\ db_translations (fst out) = db_translations db.
Proof.
  unfold update_entities. intro E.
  bind_inv E. rename a into next, E0 into Enext.
  bind_inv E. rename a into ents1, E0 into E1.
  bind_inv E. rename a into ents2, E0 into E2.
  simpl in E. inversion E; subst out; clear E. simpl.
  apply bulk_update_Ok in E1. destruct E1 as [_ [cols1 [Hc1 ->]]].
  simpl in Hc1. inversion Hc1; subst cols1; clear Hc1.
  apply bulk_update_Ok in E2. destruct E2 as [Hpk [cols2 [_ ->]]].
  simpl in Hpk.
  (* no object of the second bulk_update has a key, so there is none *)
  assert (M : filter
                (fun kv : (string * string) * Entity =>
                   match dict_get (prev_entities_of changed_resources db)
                           (fst kv) with
                   | Some prev => negb (entities_same (snd kv) prev)
                   | None => false
                   end) next = []).
  { destruct (filter _ next) as [|[k e] rest] eqn:F; [reflexivity|].
    exfalso.
    assert (I : In (k, e) next).
    { assert (J : In (k, e) ((k, e) :: rest)) by now left.
      rewrite <- F in J. now apply filter_In in J. }
    destruct (next_entities_of_In _ _ _ _ _ Enext I)
      as [cr [r [tx [_ [_ [_ Fe]]]]]].
    apply entity_from_source_Ok in Fe.
    destruct Fe as [_ [_ [_ [_ [Hid _]]]]].
    simpl in Hpk. rewrite Hid in Hpk. simpl in Hpk. discriminate. }
  exists next. eexists. split; [exact Enext|]. split; [|split; [|split]].
  - rewrite M. simpl. rewrite map_map. f_equal.
    apply map_ext. intro row. simpl. apply find_obsoleted.
  - intros k e prev I G.
    pose proof (filter_nil_In _ _ (k, e) M I) as Q. simpl in Q.
    rewrite G in Q. now apply negb_false_iff in Q.
  - reflexivity.
  - reflexivity.
Qed.

(** The database knows [hello] and [old]; the parsed file has [hello],
    [bye] and [later]: [old] is marked obsolete, [hello] is kept, the two
    others are inserted. *)
Lemma update_entities_keeps_or_obsoletes_witness :
  let db := with_db_entities
              [ex_entity 1 "hello" "Hello"; ex_entity 2 "old" "Old"]
              (ex_db []) in
  exists out,
    update_entities db 1 [ex_resource] [("app.po", Some ex_parsed)] 100 = Ok out
    /\ map (fun e => (ent_key e, ent_obsolete e, ent_date_obsoleted e))
         (db_entities (fst out))
       = [("hello", false, None); ("old", true, Some 100);
          ("bye", false, None); ("later", false, None)]
    /\ exists next created,
         next_entities_of [ex_resource] [("app.po", Some ex_parsed)] 100
         = Ok next
         /\ db_entities (fst out)
            = (map (fun row =>
                      if existsb
                           (fun kv => negb (dict_has next (fst kv))
                                      && fk_eq (ent_id (snd kv)) (ent_id row))
                           (prev_entities_of [ex_resource] db)
                      then with_ent_date_obsoleted (Some 100)
                             (with_ent_obsolete true row)
                      else row)
                 (db_entities db) ++ created)%list
         /\ (forall k e prev,
               In (k, e) next ->
               dict_get (prev_entities_of [ex_resource] db) k = Some prev ->
               entities_same e prev = true)
         /\ db_resources (fst out) = db_resources db
         /\ db_translations (fst out) = db_translations db.
Proof.
  intro db. eexists. split; [vm_compute; reflexivity|].
  split; [reflexivity|].
  exact (@update_entities_keeps_or_obsoletes db 1 [ex_resource]
           [("app.po", Some ex_parsed)] 100 _ eq_refl).
Defined.

(** X4. [update_resources] does not return once [updates] has an entry:
    the column list of its first [bulk_update] is the string
    [total_strings], which Django reads as the names [t], [o], ..., so the
    call raises. The exception is [AttributeError] when a changed resource
    failed to parse, [ValueError] when a row has no key, and
    [FieldDoesNotExist] otherwise. *)
Theorem update_resources_raises_on_updates db project updates now :
  updates <> [] ->
  exists e,
    update_resources db project updates now = Raise e
    /\ (e = AttributeError \/ e = ValueError \/ e = FieldDoesNotExist).
Proof.
  intro Ne. unfold update_resources.
  destruct updates as [|u updates]; [contradiction|]. simpl is_nil. cbv iota.
  set (ups := u :: updates) in *.
  destruct (map_result _ (filter (is_changed ups) (project_resources project db)))
    as [crs|e] eqn:M.
  - simpl. unfold bulk_update. simpl is_nil. cbv iota.
    destruct (existsb _ crs); simpl; eauto.
  - exists e. split; [reflexivity|]. left.
    (* the only exception of the comprehension is AttributeError *)
    revert M. generalize (project_resources project db). intro rs.
    induction rs as [|r rs IH]; simpl; [discriminate|].
    destruct (is_changed ups r) eqn:C; [|exact IH].
    simpl. unfold parsed_of, dict_item.
    destruct (dict_get ups (res_path r)) as [[p|]|] eqn:G; simpl.
    + destruct (map_result _ (filter _ rs)) eqn:M'; simpl;
        [discriminate | intro Q; inversion Q; subst; now apply IH].
    + intro Q. now inversion Q.
    + exfalso. apply dict_get_None in G. apply G.
      unfold is_changed in C. now apply mem_In in C.
Qed.

Lemma update_resources_raises_on_updates_witness :
  [("app.po", Some ex_parsed)] <> []
  /\ update_resources (ex_db []) 1 [("app.po", Some ex_parsed)] 100
     = Raise FieldDoesNotExist
  /\ exists e,
       update_resources (ex_db []) 1 [("app.po", Some ex_parsed)] 100 = Raise e
       /\ (e = AttributeError \/ e = ValueError \/ e = FieldDoesNotExist).
Proof.
  split; [discriminate|]. split; [reflexivity|].
  exact (@update_resources_raises_on_updates (ex_db []) 1
           [("app.po", Some ex_parsed)] 100 ltac:(discriminate)).
Defined.

(* ================================================================== *)
(** * Further properties of [remove_resources] *)
(* ================================================================== *)

(** X5. [remove_resources] returns the paths of the resources of the
    project it deleted, each one a path of the removal list after the
    [.pot] rewrite. The rows left are rows that were there, a row of another
    path is kept, and no resource of the project that has a key is left
    under a removed path. *)
Theorem remove_resources_removes relpath db project ref_root remove :
  let out := remove_resources relpath db project ref_root remove in
  let wanted := removal_paths relpath ref_root remove in
  (forall p, In p (snd out) <->
             In p wanted
             /\ exists r, In r (project_resources project db) /\ res_path r = p)
  /\ (forall r, In r (db_resources (fst out)) -> In r (db_resources db))
  /\ (forall r, In r (project_resources project (fst out)) ->
                res_id r <> None -> ~ In (res_path r) wanted)
  /\ (wanted = [] -> fst out = db).
Proof.
  unfold remove_resources, removal_paths.
  destruct remove as [|x remove].
  { simpl. split; [intro p; tauto|]. split; [auto|]. split; [tauto | auto]. }
  change (is_nil (x :: remove)) with false. cbv iota.
  set (wanted := map _ (x :: remove)).
  set (doomed := filter (fun r => mem (res_path r) wanted)
                   (project_resources project db)).
  assert (P : forall p, In p (map res_path doomed) <->
                        In p wanted
                        /\ exists r, In r (project_resources project db)
                                     /\ res_path r = p).
  { intro p. rewrite in_map_iff. split.
    - intros [r [<- I]]. apply filter_In in I. destruct I as [I M].
      apply mem_In in M. eauto.
    - intros [W [r [I <-]]]. exists r. split; [reflexivity|].
      apply filter_In. split; [exact I | now apply mem_In]. }
  destruct (is_nil (map res_path doomed)) eqn:N; cbn [fst snd].
  - assert (D : map res_path doomed = [])
      by (destruct (map res_path doomed); [reflexivity | discriminate]).
    split; [exact P|]. split; [auto|]. split; [|discriminate].
    intros r I _ W.
    assert (J : In (res_path r) (map res_path doomed)) by (apply P; eauto).
    rewrite D in J. destruct J.
  - split; [exact P|]. split; [|split; [|discriminate]].
    + intros r I. now apply filter_In in I.
    + intros r I Hid W. unfold project_resources in I.
      apply filter_In in I. destruct I as [I Pr].
      cbn [delete_resources db_resources] in I.
      apply filter_In in I. destruct I as [I Live].
      apply negb_true_iff in Live.
      assert (Dr : In r doomed).
      { apply filter_In. split; [|now apply mem_In].
        apply filter_In. auto. }
      pose proof (existsb_false_In _ _ _ Live Dr) as Q. simpl in Q.
      rewrite fk_eq_refl in Q by assumption. discriminate.
Qed.

(* ================================================================== *)
(** * Further properties of [add_resources] *)
(* ================================================================== *)

Lemma enumerate_from_nth {A} (xs : list A) : forall k i x,
  In (i, x) (enumerate_from k xs) ->
  exists n, nth_error xs n = Some x /\ i = k + Z.of_nat n.
Proof.
  induction xs as [|y xs IH]; simpl; intros k i x I; [contradiction|].
  destruct I as [Q | I].
  - inversion Q; subst. exists 0%nat. split; [reflexivity | lia].
  - destruct (IH _ _ _ I) as [n [E ->]]. exists (S n). split; [exact E | lia].
Qed.

Lemma assign_pks_paths next objs :
  map res_path (assign_pks next objs) = map res_path objs.
Proof.
  revert next. induction objs as [|o objs IH]; simpl; intro next.
  - reflexivity.
  - destruct (res_id o); simpl; f_equal; auto.
Qed.

Lemma new_resources_of_paths get_path_format default_order updates
  changed_paths :
  map res_path
    (new_resources_of get_path_format default_order updates changed_paths)
  = map fst (filter (is_new_entry changed_paths) updates).
Proof.
  unfold new_resources_of, is_new_entry.
  induction updates as [|[p [r|]] updates IH]; simpl; auto.
  destruct (negb (mem p changed_paths)); simpl; now rewrite IH.
Qed.

Section AddResourcesMore.

Variable get_path_format : string -> string.
Variable isfile : string -> bool.
Variable default_order : Z.

(** What a call of [add_resources] that returns has done. *)
Lemma add_resources_inv db project locale_map paths updates changed_paths
  now db' added_paths :
  add_resources get_path_format isfile default_order db project locale_map
    paths updates changed_paths now = Ok (db', added_paths) ->
  let added :=
    new_resources_of get_path_format default_order updates changed_paths in
  let created := assign_pks (next_pk (db_resources db)) added in
  (added = [] /\ db' = db /\ added_paths = [])
  \/ (added <> []
      /\ added_paths = map res_path created
      /\ exists resources' new_entities new_translated,
           bulk_update (db_resources db ++ created)%list
             (ranked_from 0
                (order_by_path
                   (project_resources project
                      (with_db_resources (db_resources db ++ created)%list db))))
             ["order"] = Ok resources'
           /\ map_result
                (fun resource =>
                   r <- parsed_of updates (res_path resource) ;;
                   map_result
                     (fun it =>
                        entity_from_source resource now (fst it) (snd it))
                     (enumerate (sr_translations r)))
                created = Ok new_entities
           /\ map_result
                (fun resource =>
                   map_result
                     (fun locale_code =>
                        locale <- dict_item locale_map locale_code ;;
                        Ok {| tres_id := None;
                              tres_resource := res_id resource;
                              tres_locale := loc_id locale;
                              tres_total_strings :=
                                res_total_strings resource |})
                     (filter
                        (is_translated_resource isfile locale_map paths
                           resource)
                        (target_locales paths (res_path resource))))
                created = Ok new_translated
           /\ db_resources db' = resources'
           /\ db_entities db'
              = (db_entities db
                 ++ assign_pks (next_pk (db_entities db))
                      (List.concat new_entities))%list
           /\ db_translated_resources db'
              = (db_translated_resources db
                 ++ assign_pks (next_pk (db_translated_resources db))
                      (List.concat new_translated))%list
           /\ db_translations db' = db_translations db).
Proof.
  intros E added created. unfold add_resources in E.
  fold (new_resources_of get_path_format default_order updates changed_paths)
    in E.
  fold added in E.
  destruct (is_nil added) eqn:N.
  { left. inversion E; subst. destruct added; [auto | discriminate]. }
  right. split; [intro Q; rewrite Q in N; discriminate|].
  unfold bulk_create in E. simpl in E. fold created in E.
  bind_inv E. rename a into resources', E0 into U.
  bind_inv E. rename a into new_entities, E0 into Ne.
  bind_inv E. rename a into new_translated, E0 into Nt.
  inversion E; subst db' added_paths; clear E.
  split; [reflexivity|].
  exists resources', new_entities, new_translated.
  repeat split; assumption.
Qed.

(** X6. The paths [add_resources] returns are the keys of [updates] whose
    file parsed and which are not in [changed_paths], in the order of
    [updates]; a file that failed to parse is skipped. When there is none
    the database is left as it is. *)
Theorem add_resources_added_paths db project locale_map paths updates
  changed_paths now db' added_paths :
  add_resources get_path_format isfile default_order db project locale_map
    paths updates changed_paths now = Ok (db', added_paths) ->
  added_paths = map fst (filter (is_new_entry changed_paths) updates)
  /\ (added_paths = [] -> db' = db).
Proof.
  intro E. apply add_resources_inv in E.
  destruct E as [[A [-> ->]] | [A [-> _]]].
  - split; [|reflexivity].
    rewrite <- new_resources_of_paths with (get_path_format := get_path_format)
                                          (default_order := default_order).
    now rewrite A.
  - rewrite assign_pks_paths, new_resources_of_paths. split; [reflexivity|].
    intro Q. exfalso. apply A.
    rewrite <- new_resources_of_paths with (get_path_format := get_path_format)
                                          (default_order := default_order) in Q.
    destruct (new_resources_of _ _ _ _); [reflexivity | discriminate].
Qed.

End AddResourcesMore.

(** [a.po] failed to parse, [b.po] is a changed resource, [c.po] and
    [d.po] are new. *)
Lemma add_resources_added_paths_witness :
  exists db' added_paths,
    add_resources (fun _ => "po") (fun _ => false) 0 ex_db_two_resources 1
      [("de", ex_de)] (ex_paths "" None)
      [("a.po", None); ("b.po", Some ex_parsed); ("c.po", Some ex_parsed);
       ("d.po", Some ex_parsed)]
      ["b.po"] 100 = Ok (db', added_paths)
    /\ added_paths = ["c.po"; "d.po"]
    /\ added_paths
       = map fst
           (filter (is_new_entry ["b.po"])
              [("a.po", None); ("b.po", Some ex_parsed);
               ("c.po", Some ex_parsed); ("d.po", Some ex_parsed)])
    /\ (added_paths = [] -> db' = ex_db_two_resources).
Proof.
  eexists. eexists. split; [vm_compute; reflexivity|].
  split; [reflexivity|].
  exact (@add_resources_added_paths (fun _ => "po") (fun _ => false) 0
           ex_db_two_resources 1 [("de", ex_de)] (ex_paths "" None)
           [("a.po", None); ("b.po", Some ex_parsed); ("c.po", Some ex_parsed);
            ("d.po", Some ex_parsed)]
           ["b.po"] 100 _ _ eq_refl).
Defined.

Lemma assign_pks_keeps {R} `{Model R} (objs : list R) : forall next o,
  In o objs ->
  exists o', In o' (assign_pks next objs)
             /\ (o' = o \/ exists i, o' = set_pk (Some i) o).
Proof.
  induction objs as [|x objs IH]; simpl; intros next o I; [contradiction|].
  destruct I as [-> | I].
  - destruct (pk o); eexists; (split; [left; reflexivity|]); eauto.
  - destruct (pk x);
      [destruct (IH next o I) as [o' [I' Ho]]
      | destruct (IH (next + 1) o I) as [o' [I' Ho]]];
      exists o'; (split; [right; exact I' | exact Ho]).
Qed.

Lemma assign_pks_resource_ids objs : forall next r,
  In r (assign_pks next objs) ->
  Forall (fun o => res_id o = None) objs ->
  exists i, res_id r = Some i /\ next <= i.
Proof.
  induction objs as [|o objs IH]; simpl; intros next r I F; [contradiction|].
  inversion F as [|? ? No F']; subst. rewrite No in I. simpl in I.
  destruct I as [<- | I].
  - exists next. split; [reflexivity | lia].
  - destruct (IH (next + 1) r I F') as [i [E L]]. exists i. split; [auto | lia].
Qed.

Lemma next_pk_fresh (table : list Resource) r i :
  In r table -> res_id r = Some i -> i < next_pk table.
Proof.
  unfold next_pk. intros I E.
  assert (L : i <= fold_right
                     (fun (r : Resource) m =>
                        match pk r with Some j => Z.max j m | None => m end)
                     0 table).
  { induction table as [|x table IH]; [contradiction|].
    cbn [fold_right]. destruct I as [-> | I].
    - change (pk r) with (res_id r). rewrite E. apply Z.le_max_l.
    - specialize (IH I). destruct (pk x) as [j|]; [|exact IH].
      etransitivity; [exact IH | apply Z.le_max_r]. }
  lia.
Qed.

Lemma new_resources_of_no_ids get_path_format default_order updates
  changed_paths :
  Forall (fun o => res_id o = None)
    (new_resources_of get_path_format default_order updates changed_paths).
Proof.
  apply Forall_forall. intros o I. unfold new_resources_of in I.
  apply in_flat_map in I. destruct I as [[p [r|]] [_ I]]; simpl in I;
    [|contradiction].
  destruct (negb _); simpl in I; [|contradiction].
  destruct I as [<- | []]. reflexivity.
Qed.

Section AddResourcesRows.

Variable get_path_format : string -> string.
Variable isfile : string -> bool.
Variable default_order : Z.

(** X7. Every file of [updates] that parsed and is not in
    [changed_paths] has, after [add_resources], a row with its path, the
    format of the path and [total_strings] equal to the number of parsed
    entities; the row has a key that no row had before. *)
Theorem add_resources_counts_strings db project locale_map paths updates
  changed_paths now db' added_paths path parsed :
  add_resources get_path_format isfile default_order db project locale_map
    paths updates changed_paths now = Ok (db', added_paths) ->
  In (path, Some parsed) updates ->
  mem path changed_paths = false ->
  exists row i,
    In row (db_resources db')
    /\ res_path row = path
    /\ res_format row = get_path_format path
    /\ res_total_strings row = Z.of_nat (List.length (sr_entities parsed))
    /\ res_id row = Some i
    /\ forall old, In old (db_resources db) -> res_id old <> Some i.
Proof.
  intros E Iu Nc.
  pose (obj := {| res_id := None; res_project := None; res_path := path;
                  res_format := get_path_format path;
                  res_total_strings :=
                    Z.of_nat (List.length (sr_entities parsed));
                  res_order := default_order |}).
  assert (Io : In obj (new_resources_of get_path_format default_order updates
                         changed_paths)).
  { unfold new_resources_of. apply in_flat_map. exists (path, Some parsed).
    split; [exact Iu|]. simpl. rewrite Nc. simpl. now left. }
  pose proof (new_resources_of_no_ids get_path_format default_order updates
                changed_paths) as Fo.
  apply add_resources_inv in E.
  destruct E as [[A _] | [_ [_ [resources' [ne [nt [U [_ [_ [-> _]]]]]]]]]].
  { rewrite A in Io. destruct Io. }
  destruct (@assign_pks_keeps _ _ _ (next_pk (db_resources db)) _ Io)
    as [o' [Ic Ho]].
  destruct (@assign_pks_resource_ids _ _ _ Ic Fo) as [i [Hi Li]].
  apply bulk_update_Ok in U. destruct U as [_ [cols [Hc ->]]].
  simpl in Hc. inversion Hc; subst cols; clear Hc.
  eexists. exists i. split.
  { apply in_map. apply in_or_app. right. exact Ic. }
  assert (P : res_path o' = path /\ res_format o' = get_path_format path
              /\ res_total_strings o'
                 = Z.of_nat (List.length (sr_entities parsed))).
  { destruct Ho as [-> | [j ->]]; simpl; auto. }
  destruct P as [P1 [P2 P3]].
  destruct (find _ _); simpl; repeat split; auto.
  - intros old Io' Q. pose proof (@next_pk_fresh _ _ _ Io' Q). lia.
  - intros old Io' Q. pose proof (@next_pk_fresh _ _ _ Io' Q). lia.
Qed.

(** X8. The entities of a resource that [add_resources] creates are built
    with their position in the parsed file: the entity of the entry at
    position [n] has [order = tx.order or n], belongs to the new resource
    and is created at [now]. The entities that were there are kept in
    front. *)
Theorem add_resources_entities_by_position db project locale_map paths
  updates changed_paths now db' added_paths :
  add_resources get_path_format isfile default_order db project locale_map
    paths updates changed_paths now = Ok (db', added_paths) ->
  exists created,
    db_entities db' = (db_entities db ++ created)%list
    /\ forall e, In e created ->
         exists resource parsed n tx,
           In (res_path resource) added_paths
           /\ res_id resource <> None
           /\ parsed_of updates (res_path resource) = Ok parsed
           /\ nth_error (sr_translations parsed) n = Some tx
           /\ ent_order e = int_or (tx_order tx) (Z.of_nat n)
           /\ ent_key e = tx_key tx
           /\ ent_resource e = res_id resource
           /\ ent_date_created e = now.
Proof.
  intro E. apply add_resources_inv in E.
  destruct E as [[_ [-> _]] | [_ [-> [resources' [ne [nt [_ [Ne [_ [_ [-> _]]]]]]]]]]].
  { exists []. split; [now rewrite app_nil_r | intros e []]. }
  eexists. split; [reflexivity|]. intros e I.
  apply assign_pks_In in I. destruct I as [e0 [I0 He]].
  apply in_concat in I0. destruct I0 as [l [Il I0]].
  destruct (map_result_In _ _ _ Ne Il) as [resource [Ir F]].
  bind_inv F. rename a into parsed.
  destruct (map_result_In _ _ _ F I0) as [[i tx] [Ii G]]. simpl in G.
  apply enumerate_from_nth in Ii. destruct Ii as [n [En ->]].
  apply entity_from_source_Ok in G.
  destruct G as [Go [Gk [_ [Gr [_ Gd]]]]].
  assert (Hid : res_id resource <> None).
  { destruct (@assign_pks_resource_ids _ _ _ Ir
                (new_resources_of_no_ids get_path_format default_order
                   updates changed_paths)) as [j [Hj _]].
    congruence. }
  exists resource, parsed, n, tx.
  assert (P : ent_order e = ent_order e0 /\ ent_key e = ent_key e0
              /\ ent_resource e = ent_resource e0
              /\ ent_date_created e = ent_date_created e0).
  { destruct He as [-> | [j ->]]; simpl; auto. }
  destruct P as [P1 [P2 [P3 P4]]].
  repeat split; try congruence.
  - apply in_map. exact Ir.
  - rewrite P1, Go. reflexivity.
Qed.

(** X9. Every [TranslatedResource] that [add_resources] creates belongs
    to a resource row it has just inserted: a row of the table with a key
    no row had before, the path of a parsed entry of [updates], the format
    of that path and the number of parsed entities as its string count.
    The locale is one of [locale_map] that the resolver names as a target
    of the resource, the row carries the string count of the resource, and
    where the format of the path is [po] or [xliff] the target file of the
    locale exists. The rows that were there are kept in front. *)
Theorem add_resources_seeds_translated_resources db project locale_map paths
  updates changed_paths now db' added_paths :
  add_resources get_path_format isfile default_order db project locale_map
    paths updates changed_paths now = Ok (db', added_paths) ->
  exists created,
    db_translated_resources db' = (db_translated_resources db ++ created)%list
    /\ forall t, In t created ->
         exists resource parsed locale_code locale,
           In resource (db_resources db')
           /\ (forall old, In old (db_resources db) ->
                           res_id old <> res_id resource)
           /\ In (res_path resource) added_paths
           /\ In (res_path resource, Some parsed) updates
           /\ res_format resource = get_path_format (res_path resource)
           /\ res_total_strings resource
              = Z.of_nat (List.length (sr_entities parsed))
           /\ tres_resource t = res_id resource
           /\ res_id resource <> None
           /\ In locale_code (target_locales paths (res_path resource))
           /\ dict_get locale_map locale_code = Some locale
           /\ tres_locale t = loc_id locale
           /\ tres_total_strings t = res_total_strings resource
           /\ (mem (get_path_format (res_path resource)) ["po"; "xliff"] = true ->
               exists file,
                 target_path paths (res_path resource) locale_code = Some file
                 /\ isfile file = true).
Proof.
  intro E. apply add_resources_inv in E.
  destruct E as [[_ [-> _]]
                | [_ [-> [resources' [ne [nt [U [_ [Nt [Hr [_ [-> _]]]]]]]]]]]].
  { exists []. split; [now rewrite app_nil_r | intros t []]. }
  eexists. split; [reflexivity|]. intros t I.
  apply assign_pks_In in I. destruct I as [t0 [I0 Ht]].
  apply in_concat in I0. destruct I0 as [l [Il I0]].
  destruct (map_result_In _ _ _ Nt Il) as [obj [Ir F]].
  destruct (map_result_In _ _ _ F I0) as [locale_code [Ic G]].
  apply filter_In in Ic. destruct Ic as [Ic T].
  bind_inv G. rename a into locale. inversion G; subst t0; clear G.
  unfold dict_item in E. destruct (dict_get locale_map locale_code) eqn:D;
    inversion E; subst l0; clear E.
  (* the object the row was built for, as [added_resources] has it *)
  pose proof Ir as Ir'. apply assign_pks_In in Ir'.
  destruct Ir' as [o [Io Ho]].
  assert (Fo : exists parsed,
             In (res_path o, Some parsed) updates
             /\ res_format o = get_path_format (res_path o)
             /\ res_total_strings o
                = Z.of_nat (List.length (sr_entities parsed))).
  { unfold new_resources_of in Io. apply in_flat_map in Io.
    destruct Io as [[p [r|]] [Iu Io]]; simpl in Io; [|contradiction].
    destruct (negb _); simpl in Io; [|contradiction].
    destruct Io as [<- | []]. exists r. simpl. auto. }
  destruct Fo as [parsed [Fu [Ff Fs]]].
  assert (Po : res_path obj = res_path o /\ res_format obj = res_format o
               /\ res_total_strings obj = res_total_strings o).
  { destruct Ho as [-> | [j ->]]; simpl; auto. }
  destruct Po as [Po1 [Po2 Po3]].
  destruct (@assign_pks_resource_ids _ _ _ Ir
              (new_resources_of_no_ids get_path_format default_order updates
                 changed_paths)) as [i [Hi Li]].
  (* its row in the table, once the orders are written *)
  apply bulk_update_Ok in U. destruct U as [_ [cols [Hc Hres]]].
  simpl in Hc. inversion Hc; subst cols; clear Hc.
  set (write := fun row : Resource =>
                  match find (fun o => fk_eq (pk o) (pk row))
                          (ranked_from 0
                             (order_by_path
                                (project_resources project
                                   (with_db_resources
                                      (db_resources db
                                       ++ assign_pks (next_pk (db_resources db))
                                            (new_resources_of get_path_format
                                               default_order updates
                                               changed_paths))%list db))))
                  with
                  | Some o =>
                      fold_left (fun r c => c o r)
                        [fun o : Resource => with_res_order (res_order o)] row
                  | None => row
                  end) in *.
  assert (Pw : res_id (write obj) = res_id obj
               /\ res_path (write obj) = res_path obj
               /\ res_format (write obj) = res_format obj
               /\ res_total_strings (write obj) = res_total_strings obj).
  { unfold write. destruct (find _ _); simpl; auto. }
  destruct Pw as [Pw1 [Pw2 [Pw3 Pw4]]].
  assert (P : tres_resource t = res_id obj
              /\ tres_locale t = loc_id locale
              /\ tres_total_strings t = res_total_strings obj).
  { destruct Ht as [-> | [j ->]]; simpl; auto. }
  destruct P as [P1 [P2 P3]].
  exists (write obj), parsed, locale_code, locale.
  rewrite Pw1, Pw2, Pw3, Pw4.
  split.
  { rewrite Hr, Hres. apply in_map. apply in_or_app. now right. }
  split.
  { intros old Io' Q. rewrite Hi in Q.
    pose proof (@next_pk_fresh _ _ _ Io' Q). lia. }
  split; [apply in_map; exact Ir|].
  split; [rewrite Po1; exact Fu|].
  split; [congruence|]. split; [congruence|]. split; [exact P1|].
  split; [congruence|]. split; [exact Ic|]. split; [exact D|].
  split; [exact P2|]. split; [exact P3|].
  intro B. unfold is_translated_resource in T.
  destruct (negb (dict_has locale_map locale_code)); [discriminate|].
  assert (B' : mem (res_format obj) ["po"; "xliff"] = true) by congruence.
  rewrite B' in T.
  destruct (target_path paths (res_path obj) locale_code) as [file|];
    [eauto | discriminate].
Qed.

End AddResourcesRows.

(** [c.po] parsed with three entities and is new. *)
Lemma add_resources_counts_strings_witness :
  exists db' added_paths,
    add_resources (fun _ => "po") (fun _ => false) 0 ex_db_two_resources 1
      [("de", ex_de)] (ex_paths "" None) [("c.po", Some ex_parsed)] [] 100
    = Ok (db', added_paths)
    /\ In ("c.po", Some ex_parsed) [("c.po", Some ex_parsed)]
    /\ mem "c.po" [] = false
    /\ map (fun r => (res_path r, res_total_strings r)) (db_resources db')
       = [("b.po", 1); ("a.po", 1); ("c.po", 3)]
    /\ exists row i,
         In row (db_resources db')
         /\ res_path row = "c.po"
         /\ res_format row = "po"
         /\ res_total_strings row = Z.of_nat (List.length (sr_entities ex_parsed))
         /\ res_id row = Some i
         /\ forall old, In old (db_resources ex_db_two_resources) ->
                        res_id old <> Some i.
Proof.
  eexists. eexists. split; [vm_compute; reflexivity|].
  split; [now left|]. split; [reflexivity|]. split; [reflexivity|].
  exact (@add_resources_counts_strings (fun _ => "po") (fun _ => false) 0
           ex_db_two_resources 1 [("de", ex_de)] (ex_paths "" None)
           [("c.po", Some ex_parsed)] [] 100 _ _ "c.po" ex_parsed eq_refl
           (or_introl eq_refl) eq_refl).
Defined.

(** The entries of the new [c.po] get the orders 0, 1 and, for [later],
    its own order 7. *)
Lemma add_resources_entities_by_position_witness :
  exists db' added_paths,
    add_resources (fun _ => "po") (fun _ => false) 0 ex_db_two_resources 1
      [("de", ex_de)] (ex_paths "" None) [("c.po", Some ex_parsed)] [] 100
    = Ok (db', added_paths)
    /\ map (fun e => (ent_key e, ent_resource e, ent_order e)) (db_entities db')
       = [("hello", Some 1, 0); ("hello", Some 3, 0); ("bye", Some 3, 1);
          ("later", Some 3, 7)]
    /\ exists created,
         db_entities db' = (db_entities ex_db_two_resources ++ created)%list
         /\ forall e, In e created ->
              exists resource parsed n tx,
                In (res_path resource) added_paths
                /\ res_id resource <> None
                /\ parsed_of [("c.po", Some ex_parsed)] (res_path resource)
                   = Ok parsed
                /\ nth_error (sr_translations parsed) n = Some tx
                /\ ent_order e = int_or (tx_order tx) (Z.of_nat n)
                /\ ent_key e = tx_key tx
                /\ ent_resource e = res_id resource
                /\ ent_date_created e = 100.
Proof.
  eexists. eexists. split; [vm_compute; reflexivity|].
  split; [reflexivity|].
  exact (@add_resources_entities_by_position (fun _ => "po") (fun _ => false)
           0 ex_db_two_resources 1 [("de", ex_de)] (ex_paths "" None)
           [("c.po", Some ex_parsed)] [] 100 _ _ eq_refl).
Defined.

(** The new [c.po] has the format [po]; the resolver names [de] and [fr]
    as its targets and both are locales of the project, but only the target
    file of [de] exists: one row is created, for [de]. *)
Lemma add_resources_seeds_translated_resources_witness :
  exists db' added_paths,
    add_resources (fun _ => "po") ex_isfile 0 ex_db_two_resources 1
      [("de", ex_de); ("fr", ex_fr)] ex_paths_targets
      [("c.po", Some ex_parsed)] [] 100
    = Ok (db', added_paths)
    /\ map (fun t => (tres_resource t, tres_locale t, tres_total_strings t))
         (db_translated_resources db')
       = [(Some 3, 1, 3)]
    /\ exists created,
         db_translated_resources db'
         = (db_translated_resources ex_db_two_resources ++ created)%list
         /\ forall t, In t created ->
              exists resource parsed locale_code locale,
                In resource (db_resources db')
                /\ (forall old, In old (db_resources ex_db_two_resources) ->
                                res_id old <> res_id resource)
                /\ In (res_path resource) added_paths
                /\ In (res_path resource, Some parsed)
                     [("c.po", Some ex_parsed)]
                /\ res_format resource = "po"
                /\ res_total_strings resource
                   = Z.of_nat (List.length (sr_entities parsed))
                /\ tres_resource t = res_id resource
                /\ res_id resource <> None
                /\ In locale_code
                     (target_locales ex_paths_targets (res_path resource))
                /\ dict_get [("de", ex_de); ("fr", ex_fr)] locale_code
                   = Some locale
                /\ tres_locale t = loc_id locale
                /\ tres_total_strings t = res_total_strings resource
                /\ (mem "po" ["po"; "xliff"] = true ->
                    exists file,
                      target_path ex_paths_targets (res_path resource)
                        locale_code = Some file
                      /\ ex_isfile file = true).
Proof.
  assert (E : exists db' added_paths,
             add_resources (fun _ => "po") ex_isfile 0 ex_db_two_resources 1
               [("de", ex_de); ("fr", ex_fr)] ex_paths_targets
               [("c.po", Some ex_parsed)] [] 100
             = Ok (db', added_paths)
             /\ map (fun t => (tres_resource t, tres_locale t,
                               tres_total_strings t))
                  (db_translated_resources db')
                = [(Some 3, 1, 3)]).
  { eexists. eexists. split; [vm_compute; reflexivity | reflexivity]. }
  destruct E as [db' [added_paths [E M]]]. exists db', added_paths.
  split; [exact E|]. split; [exact M|].
  exact (@add_resources_seeds_translated_resources (fun _ => "po") ex_isfile
           0 ex_db_two_resources 1 [("de", ex_de); ("fr", ex_fr)]
           ex_paths_targets [("c.po", Some ex_parsed)] [] 100 db' added_paths
           E).
Defined.

(* ================================================================== *)
(** * Further properties of [delete_removed_translated_resources] *)
(* ================================================================== *)

Lemma filter_split_length {A} (p : A -> bool) (l : list A) :
  List.length l
  = (List.length (filter (fun x => negb (p x)) l)
     + List.length (filter p l))%nat.
Proof.
  induction l as [|x l IH]; simpl; [reflexivity|].
  destruct (p x); simpl; lia.
Qed.

Section DeleteRemoved.

Variable join : string -> string -> string.
Variable relpath : string -> string -> string.
Variable splitext : string -> string * string.
Variable bilingual_extensions : list string.
Variable parse_android_locale : string -> option string.

(** X10. [delete_removed_translated_resources] only deletes rows of
    [TranslatedResource]: the number it returns is the number of rows gone,
    the rows left were there before, and every other table is as it was.
    The files removed from the reference checkout do not count: when no
    other checkout has a removed file nothing is deleted. *)
Theorem delete_removed_translated_resources_counts db project checkouts
  ref_checkout paths :
  let out :=
    delete_removed_translated_resources join relpath splitext
      bilingual_extensions parse_android_locale db project checkouts
      ref_checkout paths in
  Z.of_nat (List.length (db_translated_resources db))
  = Z.of_nat (List.length (db_translated_resources (fst out))) + snd out
  /\ (forall t, In t (db_translated_resources (fst out)) ->
                In t (db_translated_resources db))
  /\ db_resources (fst out) = db_resources db
  /\ db_entities (fst out) = db_entities db
  /\ db_translations (fst out) = db_translations db
  /\ db_changed_entity_locales (fst out) = db_changed_entity_locales db
  /\ db_action_log (fst out) = db_action_log db
  /\ ((forall co, In co checkouts -> same_checkout co ref_checkout = false ->
                  co_removed co = []) ->
      out = (db, 0)).
Proof.
  unfold delete_removed_translated_resources.
  match goal with
  | |- context [negb (is_nil ?q)] => set (del_q := q)
  end.
  assert (Q : (forall co, In co checkouts ->
                          same_checkout co ref_checkout = false ->
                          co_removed co = []) -> del_q = []).
  { intro H. unfold del_q. clear del_q.
    induction checkouts as [|co cos IH]; simpl; [reflexivity|].
    rewrite IH by (intros; apply H; auto; now right).
    destruct (same_checkout co ref_checkout) eqn:S; simpl; [reflexivity|].
    rewrite (H co (or_introl eq_refl) S). reflexivity. }
  destruct (negb (is_nil del_q)) eqn:N; cbn [fst snd].
  - cbn [with_db_translated_resources db_translated_resources db_resources
         db_entities db_translations db_changed_entity_locales db_action_log].
    split.
    { rewrite (filter_split_length
                 (fun t : TranslatedResource =>
                    existsb
                      (fun r =>
                         fk_eq (res_project r) (Some project)
                         && existsb
                              (fun l =>
                                 (loc_id l =? tres_locale t)
                                 && mem (res_path r, loc_code l) del_q)
                              (db_locales db))
                      (resources_with_id db (tres_resource t)))
                 (db_translated_resources db)).
      lia. }
    split; [intros t I; now apply filter_In in I|].
    repeat split; auto.
    intro H. rewrite (Q H) in N. discriminate.
  - split; [lia|]. repeat split; auto.
Qed.

End DeleteRemoved.

(* ================================================================== *)
(** * Further properties of [find_updates_from_repo_to_db] *)
(* ================================================================== *)

Lemma map_result_Raise {A B} (f : A -> result B) xs e :
  map_result f xs = Raise e -> exists x, In x xs /\ f x = Raise e.
Proof.
  induction xs as [|x xs IH]; simpl; [discriminate|].
  destruct (f x) as [y|e'] eqn:F; simpl.
  - destruct (map_result f xs) eqn:M; simpl; [discriminate|].
    intro Q. inversion Q; subst. destruct (IH eq_refl) as [x' [I E]].
    exists x'. auto.
  - intro Q. inversion Q; subst. exists x. auto.
Qed.

Lemma set_add_In {K} `{EqKey K} (x y : K) s :
  In x (set_add y s) <-> x = y \/ In x s.
Proof.
  unfold set_add. destruct (mem y s) eqn:M.
  - apply mem_In in M. split; [auto | intros [-> | I]; auto].
  - rewrite in_app_iff. simpl. intuition.
Qed.

Section DictLookups.
Context {K V : Type} `{EqKey K}.

Lemma dict_get_set (d : dict K V) k v k' :
  dict_get (dict_set d k v) k' = if keqb k' k then Some v else dict_get d k'.
Proof.
  induction d as [|[a b] d IH]; simpl.
  - reflexivity.
  - destruct (keqb k a) eqn:E; simpl.
    + apply keqb_eq in E. subst a. destruct (keqb k' k); reflexivity.
    + rewrite IH. destruct (keqb k' a) eqn:E'; [|reflexivity].
      apply keqb_eq in E'. subst a.
      destruct (keqb k' k) eqn:E''; [|reflexivity].
      apply keqb_eq in E''. subst k'. rewrite keqb_refl in E. discriminate.
Qed.

Lemma dict_get_remove (d : dict K V) k k' :
  dict_get (dict_remove d k) k' = if keqb k' k then None else dict_get d k'.
Proof.
  unfold dict_remove. induction d as [|[a b] d IH]; simpl.
  - destruct (keqb k' k); reflexivity.
  - destruct (keqb k a) eqn:E; simpl.
    + apply keqb_eq in E. subst a. rewrite IH.
      destruct (keqb k' k); reflexivity.
    + rewrite IH. destruct (keqb k' a) eqn:E'; [|reflexivity].
      apply keqb_eq in E'. subst a.
      destruct (keqb k' k) eqn:E''; [|reflexivity].
      apply keqb_eq in E''. subst k'. rewrite keqb_refl in E. discriminate.
Qed.

Lemma dict_get_keys (d : dict K V) k v :
  dict_get d k = Some v -> In k (dict_keys d).
Proof.
  intro G. apply dict_get_In in G. unfold dict_keys.
  change k with (fst (k, v)). now apply in_map.
Qed.

Lemma dict_In_get (d : dict K V) k v :
  NoDup (dict_keys d) -> In (k, v) d -> dict_get d k = Some v.
Proof.
  induction d as [|[a b] d IH]; simpl; intros N I; [contradiction|].
  inversion N as [|? ? Hn N']; subst.
  destruct I as [Q | I].
  - inversion Q; subst. now rewrite keqb_refl.
  - destruct (keqb k a) eqn:E.
    + apply keqb_eq in E. subst a. exfalso. apply Hn.
      change k with (fst (k, v)). now apply in_map.
    + auto.
Qed.

Lemma dict_set_NoDup (d : dict K V) k v :
  NoDup (dict_keys d) -> NoDup (dict_keys (dict_set d k v)).
Proof.
  induction d as [|[a b] d IH]; simpl; intro N.
  - constructor; [intros [] | constructor].
  - inversion N as [|? ? Hn N']; subst.
    destruct (keqb k a) eqn:E; simpl.
    + constructor; assumption.
    + constructor; [|auto]. intro I. apply dict_set_keys in I.
      destruct I as [I | ->]; [contradiction|].
      rewrite keqb_refl in E. discriminate.
Qed.

Lemma dict_remove_NoDup (d : dict K V) k :
  NoDup (dict_keys d) -> NoDup (dict_keys (dict_remove d k)).
Proof.
  unfold dict_remove, dict_keys. induction d as [|[a b] d IH]; simpl; intro N.
  - constructor.
  - inversion N as [|? ? Hn N']; subst.
    destruct (negb (keqb k a)); simpl; auto.
    constructor; auto. intro I. apply Hn.
    apply in_map_iff in I. destruct I as [x [E I]].
    apply filter_In in I. rewrite <- E. apply in_map. tauto.
Qed.

Lemma dict_update_NoDup (kvs : list (K * V)) (d : dict K V) :
  NoDup (dict_keys d) -> NoDup (dict_keys (dict_update d kvs)).
Proof.
  unfold dict_update. revert d. induction kvs as [|kv kvs IH]; simpl; intros d N.
  - exact N.
  - apply IH. now apply dict_set_NoDup.
Qed.

End DictLookups.

Lemma strip_match_keys d tv k :
  In k (dict_keys (strip_match d tv)) -> In k (dict_keys d).
Proof.
  unfold strip_match.
  destruct (dict_get d _) as [[strings fuzzy]|] eqn:G; [|auto].
  destruct (keqb _ _); [|auto].
  destruct (1 <? List.length strings)%nat.
  - intro I. apply dict_set_keys in I. destruct I as [I | ->]; [exact I|].
    now apply dict_get_keys in G.
  - intro I. now apply dict_remove_keys in I.
Qed.

Lemma fold_strip_match_keys rows : forall d k,
  In k (dict_keys (fold_left strip_match rows d)) -> In k (dict_keys d).
Proof.
  induction rows as [|tv rows IH]; simpl; intros d k I; [exact I|].
  apply IH in I. now apply strip_match_keys in I.
Qed.

Section FindUpdates.

Variable join : string -> string -> string.
Variable relpath : string -> string -> string.
Variable parse_android_locale : string -> option string.
Variable parse_target : string -> string -> Locale -> result (list VCSTranslation).

Lemma collect_path_ok locales paths co acc path :
  collected_ok locales acc ->
  collected_ok locales
    (collect_path join relpath parse_android_locale parse_target locales
       paths co acc path).
Proof.
  intros [N O]. unfold collect_path.
  destruct (find_reference paths (join (co_path co) path))
    as [[ref_path path_vars]|]; [|split; assumption].
  destruct (get_path_locale parse_android_locale path_vars) as [code|];
    [|split; assumption].
  destruct (dict_get locales code) as [locale|] eqn:G; [|split; assumption].
  destruct (parse_target _ ref_path locale) as [trs|]; [|split; assumption].
  split; cbn [translations resource_paths translated_resources].
  - now apply dict_update_NoDup.
  - intros p k l I. apply dict_update_keys in I. destruct I as [I | I].
    + destruct (O p k l I) as [O1 [O2 O3]].
      repeat split; [apply set_add_In | apply set_add_In |]; auto.
    + rewrite map_map in I. apply in_map_iff in I.
      destruct I as [tx [Q _]]. simpl in Q. inversion Q; subst.
      repeat split; [apply set_add_In | apply set_add_In |]; eauto.
Qed.

Lemma collect_ok locales checkouts ref_checkout paths :
  collected_ok locales
    (collect join relpath parse_android_locale parse_target locales checkouts
       ref_checkout paths).
Proof.
  unfold collect.
  assert (G : forall cos acc,
            collected_ok locales acc ->
            collected_ok locales
              (fold_left
                 (fun acc co =>
                    if negb (same_checkout co ref_checkout)
                    then fold_left
                           (collect_path join relpath parse_android_locale
                              parse_target locales paths co)
                           (co_changed co) acc
                    else acc)
                 cos acc)).
  { induction cos as [|co cos IH]; simpl; intros acc A; [exact A|].
    apply IH. destruct (negb _); [|exact A].
    generalize (co_changed co). intro ps. revert acc A.
    induction ps as [|p ps IHp]; simpl; intros acc A; [exact A|].
    apply IHp. now apply collect_path_ok. }
  apply G. split; simpl; [constructor | intros p k l []].
Qed.

(** X11. The only exception [find_updates_from_repo_to_db] raises is
    [KeyError], and it raises it for a changed target file whose reference
    path is the path of no resource of the project: [resources[db_path]]
    fails for an entry read from that file. *)
Theorem find_updates_raises_KeyError db project locales checkouts ref_checkout
  paths e :
  find_updates_from_repo_to_db join relpath parse_android_locale parse_target
    db project locales checkouts ref_checkout paths = Raise e ->
  e = KeyError
  /\ exists db_path ent_key locale_id,
       In (db_path, ent_key, locale_id)
         (dict_keys
            (translations
               (collect join relpath parse_android_locale parse_target
                  locales checkouts ref_checkout paths)))
       /\ forall r, In r (project_resources project db) ->
                    res_path r <> db_path.
Proof.
  unfold find_updates_from_repo_to_db.
  pose proof (collect_ok locales checkouts ref_checkout paths) as [_ O].
  set (c := collect _ _ _ _ _ _ _ _) in *.
  destruct (is_nil (translations c)); [discriminate|].
  set (resources := dict_of _).
  match goal with
  | |- (if is_nil ?t then _ else _) = _ -> _ => set (translations1 := t)
  end.
  assert (S1 : forall k, In k (dict_keys translations1) ->
                         In k (dict_keys (translations c))).
  { unfold translations1. destruct (negb (is_nil _)); [|auto].
    intros k. apply fold_strip_match_keys. }
  destruct (is_nil translations1); [discriminate|].
  set (translations2 := fold_left drop_changed _ translations1).
  destruct (is_nil translations2); [discriminate|].
  match goal with
  | |- context [map_result ?f translations2] =>
      destruct (map_result f translations2) as [entity_q|e'] eqn:M; simpl;
        [discriminate|]
  end.
  intro Q. inversion Q; subst e'; clear Q.
  apply map_result_Raise in M.
  destruct M as [[[[p k] l] v] [I F]]. simpl in F.
  unfold dict_item in F. destruct (dict_get resources p) eqn:G; simpl in F;
    inversion F; subst e.
  split; [reflexivity|]. exists p, k, l.
  assert (Ik : In (p, k, l) (dict_keys (translations c))).
  { apply S1. apply (fold_drop_changed_keys (changed_keys db project)).
    unfold dict_keys. change (p, k, l) with (fst ((p, k, l), v)).
    now apply in_map. }
  split; [exact Ik|]. intros r Ir Ep.
  apply dict_get_None in G. apply G. unfold resources.
  apply dict_update_keys. right. rewrite map_map. simpl.
  apply in_map_iff. exists r. split; [exact Ep|].
  apply filter_In. split; [exact Ir|]. apply mem_In.
  rewrite Ep. now destruct (O p k l Ik).
Qed.

End FindUpdates.

(** ** What [find_updates_from_repo_to_db] returns *)

Lemma map_result_each {A B} (f : A -> result B) xs ys x :
  map_result f xs = Ok ys -> In x xs -> exists y, In y ys /\ f x = Ok y.
Proof.
  intros H I. apply map_result_Ok in H.
  induction H as [|x' y' xs ys Hxy _ IH]; simpl in I; [contradiction|].
  destruct I as [-> | I].
  - exists y'. split; [now left | assumption].
  - destruct (IH I) as [y [Iy Hy]]. exists y. split; [now right | assumption].
Qed.

Lemma res_lookup (entities : dict (string * string) Z)
  (translations : dict TxKey RepoTx) : forall (acc : dict (Z * Z) RepoTx) e l v,
  dict_get
    (fold_left
       (fun res kv =>
          let '(db_path, ent_key, locale_id) := fst kv in
          match dict_get entities (db_path, ent_key) with
          | Some entity_id => dict_set res (entity_id, locale_id) (snd kv)
          | None => res
          end)
       translations acc) (e, l) = Some v ->
  dict_get acc (e, l) = Some v
  \/ exists db_path ent_key,
       In ((db_path, ent_key, l), v) translations
       /\ dict_get entities (db_path, ent_key) = Some e.
Proof.
  induction translations as [|[[[db_path ent_key] locale_id] w] trs IH];
    simpl; intros acc e l v G.
  - now left.
  - apply IH in G. destruct G as [G | [p [k [I G]]]].
    + destruct (dict_get entities (db_path, ent_key)) as [id|] eqn:Ge.
      * rewrite dict_get_set in G.
        destruct (keqb (e, l) (id, locale_id)) eqn:K; [|now left].
        apply keqb_eq in K. inversion K; subst. inversion G; subst.
        right. exists db_path, ent_key. auto.
      * now left.
    + right. exists p, k. auto.
Qed.

Lemma strip_match_NoDup d tv :
  NoDup (dict_keys d) -> NoDup (dict_keys (strip_match d tv)).
Proof.
  intro N. unfold strip_match.
  destruct (dict_get d _) as [[strings fuzzy]|]; [|exact N].
  destruct (keqb _ _); [|exact N].
  destruct (1 <? List.length strings)%nat.
  - now apply dict_set_NoDup.
  - now apply dict_remove_NoDup.
Qed.

Lemma fold_strip_match_NoDup rows : forall d,
  NoDup (dict_keys d) -> NoDup (dict_keys (fold_left strip_match rows d)).
Proof.
  induction rows as [|tv rows IH]; simpl; intros d N; [exact N|].
  apply IH. now apply strip_match_NoDup.
Qed.

Lemma fold_drop_changed_In keys : forall (d : dict TxKey RepoTx) kv,
  In kv (fold_left drop_changed keys d) -> In kv d.
Proof.
  induction keys as [|key keys IH]; simpl; intros d kv I; [exact I|].
  apply IH in I. unfold drop_changed in I.
  destruct (dict_has d key); [now apply dict_remove_In in I | exact I].
Qed.

(** After [strip_match] has handled a row, the entry under the key of the
    row no longer holds the string of the row under its plural form. *)
Lemma strip_match_strips d tv strings fuzzy :
  dict_get (strip_match d tv) (tv_path tv, tv_key tv, tv_locale_id tv)
  = Some (strings, fuzzy) ->
  dict_get strings (tv_plural_form tv) <> Some (tv_string tv).
Proof.
  unfold strip_match.
  destruct (dict_get d _) as [[strings0 fuzzy0]|] eqn:G.
  - destruct (keqb _ _) eqn:K.
    + destruct (1 <? List.length strings0)%nat.
      * rewrite dict_get_set, keqb_refl. intro Q. inversion Q; subst.
        rewrite dict_get_remove, keqb_refl. discriminate.
      * rewrite dict_get_remove, keqb_refl. discriminate.
    + rewrite G. intro Q. inversion Q; subst. now apply keqb_neq in K.
  - rewrite G. discriminate.
Qed.

(** [strip_match] only takes away: a string found afterwards was there
    before. *)
Lemma strip_match_shrinks d tv k strings' fuzzy (pf : option Z) s :
  dict_get (strip_match d tv) k = Some (strings', fuzzy) ->
  dict_get strings' pf = Some s ->
  exists strings,
    dict_get d k = Some (strings, fuzzy) /\ dict_get strings pf = Some s.
Proof.
  unfold strip_match.
  destruct (dict_get d (tv_path tv, tv_key tv, tv_locale_id tv))
    as [[strings0 fuzzy0]|] eqn:G; [|eauto].
  destruct (keqb _ _); [|eauto].
  destruct (1 <? List.length strings0)%nat.
  - rewrite dict_get_set.
    destruct (keqb k _) eqn:K; [|eauto].
    apply keqb_eq in K. subst k. intros Q Hs. inversion Q; subst.
    rewrite dict_get_remove in Hs.
    destruct (keqb pf (tv_plural_form tv)); [discriminate|]. eauto.
  - rewrite dict_get_remove. destruct (keqb k _); [discriminate | eauto].
Qed.

Lemma fold_strip_match_shrinks rows : forall d k strings' fuzzy
  (pf : option Z) s,
  dict_get (fold_left strip_match rows d) k = Some (strings', fuzzy) ->
  dict_get strings' pf = Some s ->
  exists strings,
    dict_get d k = Some (strings, fuzzy) /\ dict_get strings pf = Some s.
Proof.
  induction rows as [|tv rows IH]; simpl; intros d k strings' fuzzy pf s G Hs.
  - eauto.
  - destruct (IH _ _ _ _ _ _ G Hs) as [strings1 [G1 H1]].
    apply (strip_match_shrinks _ _ _ _ G1 H1).
Qed.

Lemma fold_strip_match_strips rows : forall d tv strings fuzzy,
  In tv rows ->
  dict_get (fold_left strip_match rows d)
    (tv_path tv, tv_key tv, tv_locale_id tv) = Some (strings, fuzzy) ->
  dict_get strings (tv_plural_form tv) <> Some (tv_string tv).
Proof.
  induction rows as [|r rows IH]; simpl; intros d tv strings fuzzy I G;
    [contradiction|].
  destruct I as [-> | I].
  - intro Hs.
    destruct (fold_strip_match_shrinks _ _ _ _ G Hs) as [strings0 [G0 H0]].
    now apply strip_match_strips in G0.
  - apply (IH _ _ _ _ I G).
Qed.

Section FindUpdatesResult.

Variable join : string -> string -> string.
Variable relpath : string -> string -> string.
Variable parse_android_locale : string -> option string.
Variable parse_target : string -> string -> Locale -> result (list VCSTranslation).

(** X12. Every key [(entity_id, locale_id)] of the update that
    [find_updates_from_repo_to_db] returns names an entity row of the
    database whose resource is a resource of the project, and the id of one
    of the locales passed in: an entry of a file with no matching entity, or
    for another locale, is left out. *)
Theorem find_updates_keys_resolve db project locales checkouts ref_checkout
  paths res e l :
  find_updates_from_repo_to_db join relpath parse_android_locale parse_target
    db project locales checkouts ref_checkout paths = Ok (Some res) ->
  In (e, l) (dict_keys res) ->
  (exists E R,
     In E (db_entities db) /\ ent_id E = Some e
     /\ In R (project_resources project db)
     /\ ent_resource E = res_id R)
  /\ exists code locale,
       dict_get locales code = Some locale /\ loc_id locale = l.
Proof.
  intros F I. unfold find_updates_from_repo_to_db in F.
  pose proof (collect_ok join relpath parse_android_locale parse_target
                locales checkouts ref_checkout paths) as [_ O].
  set (c := collect _ _ _ _ _ _ _ _) in *.
  destruct (is_nil (translations c)); [discriminate|].
  set (resources := dict_of _) in F.
  match type of F with
  | (if is_nil ?t then _ else _) = _ => set (translations1 := t) in F
  end.
  assert (S1 : forall k, In k (dict_keys translations1) ->
                         In k (dict_keys (translations c))).
  { unfold translations1. destruct (negb (is_nil _)); [|auto].
    intros k. apply fold_strip_match_keys. }
  destruct (is_nil translations1); [discriminate|].
  set (translations2 := fold_left drop_changed _ translations1) in F.
  destruct (is_nil translations2); [discriminate|].
  bind_inv F. rename a into entity_q, E into Eq.
  inversion F; subst res; clear F.
  apply res_keys in I. destruct I as [[] | [db_path [ent_key [I G]]]].
  split.
  - apply matching_entities_In in G.
    destruct G as [E [R [q [IE [Hid [Iq [Hq _]]]]]]].
    destruct (map_result_In _ _ _ Eq Iq) as [[[[p k] lo] v] [_ Hq']].
    simpl in Hq'. bind_inv Hq'. inversion Hq'; subst q; clear Hq'.
    simpl in Hq. unfold dict_item in E0.
    destruct (dict_get resources p) eqn:Gr; [|discriminate].
    inversion E0; subst r; clear E0.
    apply dict_get_In in Gr. unfold resources in Gr.
    apply dict_update_In in Gr.
    destruct Gr as [[] | [[p' r'] [Ir [_ Er]]]]. simpl in Er. subst r'.
    apply in_map_iff in Ir. destruct Ir as [r [Qr Ir]].
    inversion Qr; subst r p'. apply filter_In in Ir. destruct Ir as [Ir _].
    exists E, a. apply fk_eq_true in Hq. destruct Hq as [Hq _]. auto.
  - apply fold_drop_changed_keys in I. destruct I as [I _].
    apply S1 in I. now destruct (O _ _ _ I) as [_ [_ Hl]].
Qed.

(** X13. The update that [find_updates_from_repo_to_db] returns leaves out
    what the database already has: where resources have distinct ids and
    the resources of the project distinct paths, no string of the update is
    the string of an approved or pretranslated translation of the same
    entity, locale and plural form. *)
Theorem find_updates_excludes_exact_matches db project locales checkouts
  ref_checkout paths res strings fuzzy t :
  unique_pks (db_resources db) ->
  NoDup (map res_path (project_resources project db)) ->
  find_updates_from_repo_to_db join relpath parse_android_locale parse_target
    db project locales checkouts ref_checkout paths = Ok (Some res) ->
  dict_get res (tr_entity t, tr_locale t) = Some (strings, fuzzy) ->
  In t (db_translations db) ->
  tr_approved t || tr_pretranslated t = true ->
  dict_get strings (tr_plural_form t) <> Some (tr_string t).
Proof.
  intros Nr Np F G It Ha. unfold find_updates_from_repo_to_db in F.
  pose proof (collect_ok join relpath parse_android_locale parse_target
                locales checkouts ref_checkout paths) as [Nc O].
  set (c := collect _ _ _ _ _ _ _ _) in *.
  destruct (is_nil (translations c)); [discriminate|].
  set (resources := dict_of _) in F.
  match type of F with
  | (if is_nil ?t then _ else _) = _ => set (translations1 := t) in F
  end.
  assert (S1 : forall k, In k (dict_keys translations1) ->
                         In k (dict_keys (translations c))).
  { unfold translations1. destruct (negb (is_nil _)); [|auto].
    intros k. apply fold_strip_match_keys. }
  assert (N1 : NoDup (dict_keys translations1)).
  { unfold translations1. destruct (negb (is_nil _)); [|exact Nc].
    now apply fold_strip_match_NoDup. }
  destruct (is_nil translations1); [discriminate|].
  set (translations2 := fold_left drop_changed _ translations1) in F.
  destruct (is_nil translations2); [discriminate|].
  bind_inv F. rename a into entity_q, E into Eq.
  inversion F; subst res; clear F.
  apply res_lookup in G.
  destruct G as [G | [db_path [ent_key [I G]]]]; [discriminate|].
  apply matching_entities_In in G.
  destruct G as [E [R [q [IE [Hid [Iq [Hq [IR [HR Hk]]]]]]]]].
  inversion Hk; subst db_path ent_key; clear Hk.
  (* the resource of the entity is a resource of the project *)
  destruct (map_result_In _ _ _ Eq Iq) as [[[[p k] lo] v] [_ Hq']].
  simpl in Hq'. bind_inv Hq'. inversion Hq'; subst q; clear Hq'.
  simpl in Hq. unfold dict_item in E0.
  destruct (dict_get resources p) eqn:Gr; [|discriminate].
  inversion E0; subst r; clear E0.
  apply dict_get_In in Gr. unfold resources in Gr.
  apply dict_update_In in Gr.
  destruct Gr as [[] | [[p' r'] [Ir [_ Er]]]]. simpl in Er. subst r'.
  apply in_map_iff in Ir. destruct Ir as [r [Qr Ir]].
  inversion Qr; subst r p'; clear Qr. apply filter_In in Ir.
  destruct Ir as [Ia _].
  assert (R = a).
  { apply (NoDup_map_inj_In res_id (db_resources db)); auto.
    - unfold project_resources in Ia. now apply filter_In in Ia.
    - apply fk_eq_true in HR. apply fk_eq_true in Hq.
      destruct HR as [<- _]. destruct Hq as [<- _]. reflexivity. }
  subst a. clear Hq Iq p k lo v.
  (* it is the resource found under the path of the entry *)
  destruct (@map_result_each _ _ _ _ _ _ Eq I) as [q1 [_ H1]].
  simpl in H1. bind_inv H1. clear H1. unfold dict_item in E0.
  destruct (dict_get resources (res_path R)) as [r1|] eqn:G1; [|discriminate].
  inversion E0; subst a; clear E0.
  assert (r1 = R).
  { pose proof G1 as G1'. apply dict_get_In in G1'. unfold resources in G1'.
    apply dict_update_In in G1'.
    destruct G1' as [[] | [[p' r'] [Ir [Ep Er]]]]. simpl in Ep, Er. subst r'.
    apply in_map_iff in Ir. destruct Ir as [r [Qr Ir]].
    inversion Qr; subst r p'; clear Qr. apply filter_In in Ir.
    destruct Ir as [I1 _].
    apply (NoDup_map_inj_In res_path (project_resources project db)); auto. }
  subst r1.
  (* so the translation is one of the rows the second loop goes through *)
  assert (Ik : In (res_path R, str_or (ent_key E) (ent_string E), tr_locale t)
                  (dict_keys (translations c))).
  { apply S1. apply (fold_drop_changed_keys (changed_keys db project)).
    unfold dict_keys.
    change (res_path R, str_or (ent_key E) (ent_string E), tr_locale t)
      with (fst ((res_path R, str_or (ent_key E) (ent_string E), tr_locale t),
                 (strings, fuzzy))).
    now apply in_map. }
  destruct (O _ _ _ Ik) as [_ [Itr _]].
  set (tr_q :=
         flat_map
           (fun dl : string * Z =>
              match dict_get resources (fst dl) with
              | Some res => [(res, snd dl)]
              | None => []
              end)
           (translated_resources c)) in *.
  assert (Iq : In (R, tr_locale t) tr_q).
  { unfold tr_q. apply in_flat_map. exists (res_path R, tr_locale t).
    split; [exact Itr|]. simpl. rewrite G1. now left. }
  assert (Irow : In {| tv_path := res_path R;
                       tv_key := str_or (ent_key E) (ent_string E);
                       tv_locale_id := tr_locale t;
                       tv_plural_form := tr_plural_form t;
                       tv_string := tr_string t |}
                   (approved_or_pretranslated db tr_q)).
  { unfold approved_or_pretranslated. apply in_flat_map. exists t.
    split; [exact It|]. rewrite Ha. apply in_flat_map. exists E. split.
    { unfold entities_with_id. apply filter_In. split; [exact IE|].
      rewrite Hid. simpl. apply Z.eqb_refl. }
    apply in_flat_map. exists R. split.
    { unfold resources_with_id. apply filter_In. auto. }
    assert (X : existsb
                  (fun q => fk_eq (res_id (fst q)) (res_id R)
                            && (snd q =? tr_locale t)) tr_q = true).
    { apply existsb_exists. exists (R, tr_locale t). split; [exact Iq|].
      simpl. rewrite Z.eqb_refl, andb_true_r. apply fk_eq_refl.
      apply fk_eq_true in HR. destruct HR as [<- Hn]. exact Hn. }
    rewrite X. now left. }
  apply fold_drop_changed_In in I.
  apply (dict_In_get _ _ _ N1) in I.
  assert (Nq : negb (is_nil tr_q) = true).
  { destruct tr_q; [contradiction | reflexivity]. }
  unfold translations1 in I. rewrite Nq in I.
  apply (@fold_strip_match_strips _ _ _ _ _ Irow I).
Qed.

End FindUpdatesResult.

(** The target file changed and the project has no resource: the lookup of
    [app.po] fails. *)
Lemma find_updates_raises_KeyError_witness :
  let db := with_db_resources [] (ex_db []) in
  ex_find_updates [(None, "Hallo")] false db = Raise KeyError
  /\ exists db_path ent_key locale_id,
       In (db_path, ent_key, locale_id)
         (dict_keys
            (translations
               (collect ex_join ex_relpath (fun _ => None)
                  (ex_parse_target [(None, "Hallo")] false) [("de", ex_de)]
                  [ex_source_checkout; ex_target_checkout] ex_source_checkout
                  (ex_paths "" None))))
       /\ forall r, In r (project_resources 1 db) -> res_path r <> db_path.
Proof.
  intro db.
  assert (F : ex_find_updates [(None, "Hallo")] false db = Raise KeyError)
    by (vm_compute; reflexivity).
  split; [exact F|].
  exact (proj2 (@find_updates_raises_KeyError ex_join ex_relpath
                  (fun _ => None) (ex_parse_target [(None, "Hallo")] false)
                  db 1 [("de", ex_de)]
                  [ex_source_checkout; ex_target_checkout] ex_source_checkout
                  (ex_paths "" None) KeyError F)).
Defined.

(** The key of the update for [de/app.po] is the entity [hello] and the
    locale [de]. *)
Lemma find_updates_keys_resolve_witness :
  let res := [((1, 1), ([(None, "Hallo")], false))] in
  ex_find_updates [(None, "Hallo")] false (ex_db []) = Ok (Some res)
  /\ (exists E R,
        In E (db_entities (ex_db [])) /\ ent_id E = Some 1
        /\ In R (project_resources 1 (ex_db []))
        /\ ent_resource E = res_id R)
  /\ exists code locale,
       dict_get [("de", ex_de)] code = Some locale /\ loc_id locale = 1.
Proof.
  intro res.
  assert (F : ex_find_updates [(None, "Hallo")] false (ex_db [])
              = Ok (Some res)) by (vm_compute; reflexivity).
  split; [exact F|].
  apply (@find_updates_keys_resolve ex_join ex_relpath (fun _ => None)
           (ex_parse_target [(None, "Hallo")] false) (ex_db []) 1
           [("de", ex_de)] [ex_source_checkout; ex_target_checkout]
           ex_source_checkout (ex_paths "" None) res 1 1 F).
  simpl. now left.
Defined.

(** [Hallo] is approved in the database; the file has it and a plural
    form: only the plural form is in the update. *)
Lemma find_updates_excludes_exact_matches_witness :
  let t := ex_translation 1 None "Hallo" true in
  let strings := [(Some 1, "Hallos")] in
  ex_find_updates [(None, "Hallo"); (Some 1, "Hallos")] false (ex_db [t])
  = Ok (Some [((1, 1), (strings, false))])
  /\ dict_get strings (tr_plural_form t) <> Some (tr_string t).
Proof.
  intros t strings.
  assert (F : ex_find_updates [(None, "Hallo"); (Some 1, "Hallos")] false
                (ex_db [t])
              = Ok (Some [((1, 1), (strings, false))]))
    by (vm_compute; reflexivity).
  split; [exact F|].
  apply (@find_updates_excludes_exact_matches ex_join ex_relpath
           (fun _ => None)
           (ex_parse_target [(None, "Hallo"); (Some 1, "Hallos")] false)
           (ex_db [t]) 1 [("de", ex_de)]
           [ex_source_checkout; ex_target_checkout] ex_source_checkout
           (ex_paths "" None) [((1, 1), (strings, false))] strings false t).
  - unfold unique_pks. simpl. repeat constructor. intros [].
  - vm_compute. repeat constructor. intros [].
  - exact F.
  - reflexivity.
  - simpl. now left.
  - reflexivity.
Defined.

(* ================================================================== *)
(** * Further properties of [update_db_translations] *)
(* ================================================================== *)

Lemma filter_all_false {A} (l : list A) : filter (fun _ => false) l = [].
Proof. induction l; simpl; auto. Qed.

Lemma log_step (db0 : DB) created acts db' :
  (if negb (is_nil acts)
   then Ok (with_db_action_log
              (db_action_log db0 ++ map (resolve_action created) acts)%list
              db0)
   else Ok db0) = Ok db' ->
  db_translations db' = db_translations db0
  /\ db_action_log db'
     = (db_action_log db0 ++ map (resolve_action created) acts)%list
  /\ db_locales db' = db_locales db0
  /\ db_users db' = db_users db0
  /\ db_resources db' = db_resources db0
  /\ db_entities db' = db_entities db0
  /\ db_translated_resources db' = db_translated_resources db0
  /\ db_changed_entity_locales db' = db_changed_entity_locales db0.
Proof.
  destruct acts; simpl; intro Q; inversion Q; subst; simpl;
    rewrite ?app_nil_r; repeat split.
Qed.

(** The steps of a run of [update_db_translations] that returns. *)
Lemma update_db_translations_steps db rt now db' :
  update_db_translations db rt now = Ok db' ->
  exists sync_user st cols,
    orm_get (fun u => String.eqb (username u) "pontoon-sync") (db_users db)
    = Ok sync_user
    /\ for_each (approve_suggestion db sync_user now) (suggestions_of db rt)
         (approve_start rt) = Ok st
    /\ as_dirty_fields st <> []
    /\ existsb (fun o => is_none (tr_id o)) (as_suggestions st) = false
    /\ map_result
         (fun name =>
            match get_field name with
            | Some c => Ok c
            | None => Raise FieldDoesNotExist
            end) (as_dirty_fields st) = Ok cols
    /\ exists rows news created to_reject,
         rows = write_suggestions (as_suggestions st) cols (db_translations db)
         /\ news = new_translations_of (as_repo_translations st) now
         /\ created = assign_pks (next_pk rows) news
         /\ to_reject
            = (as_translations_to_reject st
               ++ map (fun tx =>
                         {| rq_entity := tr_entity tx;
                            rq_locale := tr_locale tx;
                            rq_plural_form := tr_plural_form tx;
                            rq_not_id := tr_id tx |}) created)%list
         /\ db_translations db'
            = map (fun t => if rejected_by to_reject t then reject now t
                            else t) (rows ++ created)
         /\ db_action_log db'
            = (db_action_log db
               ++ map (resolve_action created)
                    (actions_of sync_user now (as_actions st) news
                       (filter (rejected_by to_reject) (rows ++ created))))%list
         /\ db_locales db' = db_locales db
         /\ db_users db' = db_users db
         /\ db_resources db' = db_resources db
         /\ db_entities db' = db_entities db
         /\ db_translated_resources db' = db_translated_resources db
         /\ db_changed_entity_locales db' = db_changed_entity_locales db.
Proof.
  intro U. unfold update_db_translations in U.
  bind_inv U. rename a into sync_user, E into Eu.
  bind_inv U. rename a into st, E into Loop.
  bind_inv U. rename a into translations', E into Upd.
  assert (Hd : as_dirty_fields st <> []).
  { intro Q. unfold bulk_update in Upd. rewrite Q in Upd. discriminate. }
  apply bulk_update_Ok in Upd. destruct Upd as [Hpk [cols [Hc ->]]].
  exists sync_user, st, cols.
  split; [exact Eu|]. split; [exact Loop|]. split; [exact Hd|].
  split; [exact Hpk|]. split; [exact Hc|].
  fold (write_suggestions (as_suggestions st) cols (db_translations db)) in U.
  set (rows := write_suggestions _ _ _) in *.
  exists rows, (new_translations_of (as_repo_translations st) now),
    (assign_pks (next_pk rows)
       (new_translations_of (as_repo_translations st) now)).
  eexists. split; [reflexivity|]. split; [reflexivity|].
  split; [reflexivity|]. split; [reflexivity|].
  simpl in U.
  destruct (negb (is_nil (as_repo_translations st))) eqn:Hrt.
  - match type of U with
    | (let '(_, _) := if negb (is_nil ?q) then _ else _ in _) = _ =>
        set (to_reject := q) in *
    end.
    destruct (negb (is_nil to_reject)) eqn:Hq.
    + apply log_step in U. simpl in U. unfold rejected_by, actions_of.
      rewrite Hq. simpl andb. exact U.
    + apply log_step in U. simpl in U. unfold rejected_by, actions_of.
      rewrite Hq. simpl andb. rewrite filter_all_false, map_id. simpl map.
      rewrite app_nil_r. exact U.
  - assert (Q : as_repo_translations st = []).
    { destruct (as_repo_translations st); [reflexivity | discriminate]. }
    rewrite Q. simpl new_translations_of. simpl assign_pks. simpl map.
    rewrite !app_nil_r.
    destruct (negb (is_nil (as_translations_to_reject st))) eqn:Hq.
    + apply log_step in U. simpl in U. unfold rejected_by, actions_of.
      rewrite Hq. simpl. rewrite app_nil_r. exact U.
    + apply log_step in U. simpl in U. unfold rejected_by, actions_of.
      rewrite Hq. simpl. rewrite filter_all_false, map_id. simpl.
      rewrite !app_nil_r. exact U.
Qed.

Lemma set_update_In {K} `{EqKey K} (xs : list K) : forall s x,
  In x (set_update s xs) <-> In x s \/ In x xs.
Proof.
  unfold set_update. induction xs as [|y xs IH]; simpl; intros s x.
  - tauto.
  - rewrite IH, set_add_In. intuition.
Qed.

Lemma reject_same_text now t : same_text t (reject now t).
Proof. repeat split. Qed.

(** One turn of the first loop: the entry of the key is taken from
    [repo_translations], the suggestion leaves the loop not rejected and
    with its text, and what is logged is logged for [sync_user] and about a
    saved row. *)
Lemma approve_suggestion_step db sync_user now st loaded st' :
  approve_suggestion db sync_user now st loaded = Ok st' ->
  exists strings fuzzy tx acts,
    dict_get (as_repo_translations st) (tr_entity loaded, tr_locale loaded)
    = Some (strings, fuzzy)
    /\ as_repo_translations st'
       = dict_remove (as_repo_translations st)
           (tr_entity loaded, tr_locale loaded)
    /\ as_suggestions st' = (as_suggestions st ++ [tx])%list
    /\ same_text loaded tx
    /\ tr_rejected tx = false
    /\ as_dirty_fields st'
       = set_update (as_dirty_fields st) (get_dirty_fields loaded tx)
    /\ as_actions st' = (as_actions st ++ acts)%list
    /\ forall a, In a acts ->
         al_performed_by a = user_id sync_user
         /\ (exists id, al_translation a = Saved id)
         /\ is_creation a = false.
Proof.
  intro E. unfold approve_suggestion in E.
  bind_inv E. destruct a as [strings fuzzy]. rename E0 into Ei.
  bind_inv E. rename a into rt', E0 into Ed.
  unfold dict_item in Ei.
  destruct (dict_get (as_repo_translations st) _) as [v|] eqn:G;
    [|discriminate].
  inversion Ei; subst v; clear Ei.
  unfold dict_del in Ed. rewrite G in Ed. inversion Ed; subst rt'; clear Ed.
  exists strings, fuzzy.
  destruct (tr_rejected loaded) eqn:Hr; destruct fuzzy; simpl in E.
  all: try (bind_inv E; bind_inv E0; bind_inv E0; inversion E0; subst a;
            simpl in E).
  all: inversion E; subst st'; clear E; simpl.
  all: eexists; eexists.
  all: split; [reflexivity|]; split; [reflexivity|]; split; [reflexivity|].
  all: split; [repeat split|]; split; [simpl; auto|].
  all: split; [reflexivity|].
  all: split;
    [rewrite <- ?app_assoc; try reflexivity;
     try (symmetry; apply app_nil_r)|].
  all: intros a Ia; simpl in Ia;
    repeat match type of Ia with
           | _ \/ _ => destruct Ia as [<- | Ia]
           | False => contradiction
           end;
    simpl; repeat split; eauto.
Qed.

(** What the first loop keeps true, from its start to its end. *)
Lemma approve_loop db sync_user now rt : forall sugg st,
  for_each (approve_suggestion db sync_user now) sugg (approve_start rt)
  = Ok st ->
  (forall kv, In kv (as_repo_translations st) -> In kv rt)
  /\ (forall a, In a (as_actions st) ->
        al_performed_by a = user_id sync_user
        /\ (exists id, al_translation a = Saved id)
        /\ is_creation a = false)
  /\ (forall o, In o (as_suggestions st) ->
        tr_rejected o = false
        /\ exists loaded,
             In loaded sugg /\ same_text loaded o
             /\ (tr_rejected loaded = true ->
                 In "rejected" (as_dirty_fields st)))
  /\ (as_dirty_fields st <> [] -> sugg <> []).
Proof.
  intros sugg st Loop.
  assert (G : forall xs s0 s,
            for_each (approve_suggestion db sync_user now) xs s0 = Ok s ->
            ((forall kv, In kv (as_repo_translations s0) -> In kv rt)
             /\ (forall a, In a (as_actions s0) ->
                   al_performed_by a = user_id sync_user
                   /\ (exists id, al_translation a = Saved id)
                   /\ is_creation a = false)
             /\ (forall o, In o (as_suggestions s0) ->
                   tr_rejected o = false
                   /\ exists loaded,
                        In loaded sugg /\ same_text loaded o
                        /\ (tr_rejected loaded = true ->
                            In "rejected" (as_dirty_fields s0)))) ->
            (forall x, In x xs -> In x sugg) ->
            (forall kv, In kv (as_repo_translations s) -> In kv rt)
            /\ (forall a, In a (as_actions s) ->
                  al_performed_by a = user_id sync_user
                  /\ (exists id, al_translation a = Saved id)
                  /\ is_creation a = false)
            /\ (forall o, In o (as_suggestions s) ->
                  tr_rejected o = false
                  /\ exists loaded,
                       In loaded sugg /\ same_text loaded o
                       /\ (tr_rejected loaded = true ->
                           In "rejected" (as_dirty_fields s)))).
  { induction xs as [|x xs IH]; simpl; intros s0 s E P Sub.
    - inversion E; subst. exact P.
    - bind_inv E. rename a into s1, E0 into Step.
      apply (IH s1 s E); [|intros y Iy; apply Sub; now right].
      destruct P as [P1 [P2 P3]].
      apply approve_suggestion_step in Step.
      destruct Step as [strings [fuzzy [tx [acts
        [_ [Hrt [Hs [Ht [Hr [Hd [Ha Hacts]]]]]]]]]]].
      split; [|split].
      + intros kv I. rewrite Hrt in I. apply dict_remove_In in I. auto.
      + intros a I. rewrite Ha in I. apply in_app_or in I.
        destruct I as [I | I]; auto.
      + intros o I. rewrite Hs in I. apply in_app_or in I.
        destruct I as [I | [<- | []]].
        * destruct (P3 o I) as [Ro [loaded [Il [Tl Dl]]]].
          split; [exact Ro|]. exists loaded. split; [exact Il|].
          split; [exact Tl|]. intro R. rewrite Hd. apply set_update_In.
          left. auto.
        * split; [exact Hr|]. exists x. split; [apply Sub; now left|].
          split; [exact Ht|]. intro R. rewrite Hd. apply set_update_In.
          right. unfold get_dirty_fields. rewrite R, Hr. simpl Bool.eqb.
          cbv iota. do 6 (apply in_or_app; right). apply in_or_app. left.
          now left. }
  destruct (G sugg (approve_start rt) st Loop) as [P1 [P2 P3]].
  - simpl. split; [auto|]. split; intros ? [].
  - auto.
  - split; [exact P1|]. split; [exact P2|]. split; [exact P3|].
    intros D Q. subst sugg. simpl in Loop.
    inversion Loop; subst st. now apply D.
Qed.






(** Every column write keeps the identity and the text of the row. *)
Lemma translation_columns_keep_text fields cols :
  map_result
    (fun name =>
       match get_field name with
       | Some c => Ok c
       | None => Raise FieldDoesNotExist
       end) fields = Ok cols ->
  forall (o r : Translation),
    same_text r (fold_left (fun r c => c o r) cols r).
Proof.
  intros M o. apply map_result_Ok in M. unfold same_text.
  induction M as [|name c fields cols Hc _ IH]; simpl; intro r;
    [repeat split|].
  destruct (IH (c o r)) as [-> [-> [-> [-> [-> ->]]]]].
  simpl in Hc.
  repeat match type of Hc with
         | context [if String.eqb ?a ?b then _ else _] =>
             destruct (String.eqb a b); simpl in Hc
         end;
    inversion Hc; subst c; simpl; repeat split.
Qed.

(** The column [rejected] of a row after the write of an object: the
    object's when the column is listed, the row's otherwise. *)
Lemma translation_columns_rejected fields cols :
  map_result
    (fun name =>
       match get_field name with
       | Some c => Ok c
       | None => Raise FieldDoesNotExist
       end) fields = Ok cols ->
  forall (o r : Translation),
    tr_rejected (fold_left (fun r c => c o r) cols r)
    = if mem "rejected" fields then tr_rejected o else tr_rejected r.
Proof.
  intros M o. apply map_result_Ok in M.
  induction M as [|name c fields cols Hc _ IH]; intro r; [reflexivity|].
  cbn [fold_left]. rewrite IH. unfold mem. cbn [existsb].
  fold (mem "rejected" fields).
  destruct (mem "rejected" fields); [now rewrite orb_true_r|].
  rewrite orb_false_r. simpl in Hc.
  repeat match type of Hc with
         | context [if String.eqb ?a ?b then _ else _] =>
             let Q := fresh "Q" in
             destruct (String.eqb a b) eqn:Q;
             [apply String.eqb_eq in Q; subst a|]; simpl in Hc
         end;
    inversion Hc; subst c; reflexivity.
Qed.

Lemma Forall2_map_self {A} (R : A -> A -> Prop) (f : A -> A) (l : list A) :
  (forall x, In x l -> R x (f x)) -> Forall2 R l (map f l).
Proof.
  induction l as [|x l IH]; simpl; intro H; constructor.
  - apply H. now left.
  - apply IH. intros y I. apply H. now right.
Qed.

Lemma same_text_trans a b c : same_text a b -> same_text b c -> same_text a c.
Proof.
  unfold same_text. intros [A1 [A2 [A3 [A4 [A5 A6]]]]]
    [B1 [B2 [B3 [B4 [B5 B6]]]]].
  repeat split; congruence.
Qed.

Lemma write_suggestions_same_text objs fields cols x :
  map_result
    (fun name =>
       match get_field name with
       | Some c => Ok c
       | None => Raise FieldDoesNotExist
       end) fields = Ok cols ->
  same_text x
    match find (fun o => fk_eq (pk o) (pk x)) objs with
    | Some o => fold_left (fun r c => c o r) cols x
    | None => x
    end.
Proof.
  intro Hc. destruct (find _ objs).
  - now apply (@translation_columns_keep_text _ _ Hc).
  - repeat split.
Qed.

Lemma assign_pks_translation_ids (objs : list Translation) : forall next t,
  In t (assign_pks next objs) -> tr_id t <> None.
Proof.
  induction objs as [|o objs IH]; simpl; intros next t I; [contradiction|].
  destruct (tr_id o) eqn:Ho; simpl in I; destruct I as [<- | I]; eauto;
    simpl; congruence.
Qed.

(** The objects [update_db_translations] builds for what is left of
    [repo_translations]. *)
Lemma new_translations_of_entries rt now t :
  In t (new_translations_of rt now) ->
  tr_date t = now /\ tr_rejected t = false
  /\ exists strings fuzzy,
       In ((tr_entity t, tr_locale t), (strings, fuzzy)) rt
       /\ In (tr_plural_form t, tr_string t) strings
       /\ tr_approved t = negb fuzzy.
Proof.
  unfold new_translations_of. intro I. apply in_flat_map in I.
  destruct I as [[[entity_id locale_id] [strings fuzzy]] [Ik I]].
  apply in_map_iff in I. destruct I as [[pf s] [<- Ips]]. simpl.
  split; [reflexivity|]. split; [reflexivity|].
  exists strings, fuzzy. auto.
Qed.

(** X15. A run of [update_db_translations] that returns deletes no
    translation and rewrites no text: the rows that were there are still
    there, in their order, with their id, entity, locale, plural form,
    string and date. The rows it appends have an id, the date [now] and a
    string of [repo_translations] under their entity, locale and plural
    form. No table but the translations and the action log is written. *)
Theorem update_db_translations_keeps_rows db rt now db' :
  update_db_translations db rt now = Ok db' ->
  (exists kept created,
     db_translations db' = (kept ++ created)%list
     /\ Forall2 same_text (db_translations db) kept
     /\ forall t, In t created ->
          tr_id t <> None /\ tr_date t = now
          /\ exists strings fuzzy,
               In ((tr_entity t, tr_locale t), (strings, fuzzy)) rt
               /\ In (tr_plural_form t, tr_string t) strings)
  /\ db_locales db' = db_locales db
  /\ db_users db' = db_users db
  /\ db_resources db' = db_resources db
  /\ db_entities db' = db_entities db
  /\ db_translated_resources db' = db_translated_resources db
  /\ db_changed_entity_locales db' = db_changed_entity_locales db.
Proof.
  intro U. apply update_db_translations_steps in U.
  destruct U as [sync_user [st [cols [Eu [Loop [_ [_ [Hc
    [rows [news [created [to_reject
      [Hrows [Hnews [Hcreated [_ [Ht [_ Frame]]]]]]]]]]]]]]]]]].
  split; [|exact Frame].
  apply approve_loop in Loop. destruct Loop as [Lrt _].
  rewrite Ht, map_app. eexists. eexists. split; [reflexivity|]. split.
  - rewrite Hrows. unfold write_suggestions. rewrite map_map.
    apply Forall2_map_self. intros x _.
    eapply same_text_trans;
      [apply (@write_suggestions_same_text (as_suggestions st) _ _ x Hc)|].
    destruct (rejected_by to_reject _); [apply reject_same_text|].
    repeat split.
  - intros t I. apply in_map_iff in I. destruct I as [x [Hx I]].
    assert (P : tr_id x <> None /\ tr_date x = now
                /\ exists strings fuzzy,
                     In ((tr_entity x, tr_locale x), (strings, fuzzy)) rt
                     /\ In (tr_plural_form x, tr_string x) strings).
    { rewrite Hcreated in I. split.
      { now apply assign_pks_translation_ids in I. }
      apply assign_pks_In in I. destruct I as [o [Io Ho]].
      rewrite Hnews in Io. apply new_translations_of_entries in Io.
      destruct Io as [Hd [_ [strings [fuzzy [Ie [Is _]]]]]].
      destruct Ho as [-> | [i ->]]; simpl; (split; [exact Hd|]);
        exists strings, fuzzy; auto. }
    destruct (rejected_by to_reject x); subst t; [simpl|]; exact P.
Qed.

(** X16. [update_db_translations] returns only when the database already
    holds a suggestion for the update: a translation that is neither
    approved nor pretranslated, of an entity and locale of
    [repo_translations]. Without one, no column is left to write and
    [bulk_update] refuses the empty list of fields. *)
Theorem update_db_translations_needs_suggestion db rt now db' :
  update_db_translations db rt now = Ok db' ->
  exists t,
    In t (db_translations db)
    /\ tr_approved t = false /\ tr_pretranslated t = false
    /\ In (tr_entity t, tr_locale t) (dict_keys rt).
Proof.
  intro U. apply update_db_translations_steps in U.
  destruct U as [sync_user [st [cols [_ [Loop [Hd _]]]]]].
  pose proof (@approve_loop _ _ _ _ _ _ Loop) as [_ [_ [_ Ne]]].
  specialize (Ne Hd).
  destruct (suggestions_of db rt) as [|t rest] eqn:S; [contradiction|].
  exists t.
  assert (I : In t (suggestions_of db rt)) by (rewrite S; now left).
  unfold suggestions_of in I. apply filter_In in I. destruct I as [I B].
  apply andb_true_iff in B. destruct B as [B Bp].
  apply andb_true_iff in B. destruct B as [_ Ba].
  apply negb_true_iff in Ba, Bp.
  split; [exact I|]. split; [exact Ba|]. split; [exact Bp|].
  simpl in Loop. bind_inv Loop. apply approve_suggestion_step in E.
  destruct E as [strings [fuzzy [tx [acts [G _]]]]].
  simpl in G. now apply dict_get_keys in G.
Qed.

(** X17. [update_db_translations] keeps approval and rejection apart:
    where translations have distinct ids and no approved translation is
    rejected, none is after a run that returns. *)
Theorem update_db_translations_keeps_exclusive db rt now db' :
  unique_pks (db_translations db) ->
  (forall t, In t (db_translations db) ->
             tr_approved t = true -> tr_rejected t = false) ->
  update_db_translations db rt now = Ok db' ->
  forall t, In t (db_translations db') ->
            tr_approved t = true -> tr_rejected t = false.
Proof.
  intros N Old U. apply update_db_translations_steps in U.
  destruct U as [sync_user [st [cols [Eu [Loop [_ [_ [Hc
    [rows [news [created [to_reject
      [Hrows [Hnews [Hcreated [_ [Ht _]]]]]]]]]]]]]]]]].
  apply approve_loop in Loop. destruct Loop as [_ [_ [Ls _]]].
  intros t I A. rewrite Ht in I. apply in_map_iff in I.
  destruct I as [x [Hx I]].
  destruct (rejected_by to_reject x); [subst t; discriminate|]. subst x.
  apply in_app_or in I. destruct I as [I | I].
  - rewrite Hrows in I. unfold write_suggestions in I.
    apply in_map_iff in I. destruct I as [row [Hrow Irow]].
    destruct (find _ (as_suggestions st)) as [o|] eqn:F.
    + apply find_some in F. destruct F as [Io Fo].
      apply fk_eq_true in Fo. destruct Fo as [Fo _]. simpl in Fo.
      destruct (Ls o Io) as [Ro [loaded [Il [Tl Dl]]]].
      assert (loaded = row).
      { apply (NoDup_map_inj_In tr_id (db_translations db)); auto.
        - unfold suggestions_of in Il. now apply filter_In in Il.
        - destruct Tl as [Tl _]. congruence. }
      subst loaded. subst t.
      rewrite (@translation_columns_rejected _ _ Hc).
      destruct (mem "rejected" (as_dirty_fields st)) eqn:M; [exact Ro|].
      destruct (tr_rejected row) eqn:Rr; [|reflexivity].
      specialize (Dl eq_refl). apply mem_In in Dl. congruence.
    + subst t. now apply Old.
  - rewrite Hcreated in I. apply assign_pks_In in I.
    destruct I as [o [Io Ho]]. rewrite Hnews in Io.
    apply new_translations_of_entries in Io. destruct Io as [_ [Hr _]].
    destruct Ho as [-> | [i ->]]; exact Hr.
Qed.


Lemma update_db_translations_keeps_rows_witness :
  exists db',
    update_db_translations ex_db_suggested ex_update 100 = Ok db'
    /\ (exists kept created,
          db_translations db' = (kept ++ created)%list
          /\ Forall2 same_text (db_translations ex_db_suggested) kept
          /\ forall t, In t created ->
               tr_id t <> None /\ tr_date t = 100
               /\ exists strings fuzzy,
                    In ((tr_entity t, tr_locale t), (strings, fuzzy)) ex_update
                    /\ In (tr_plural_form t, tr_string t) strings)
    /\ db_resources db' = db_resources ex_db_suggested.
Proof.
  assert (U : exists db',
             update_db_translations ex_db_suggested ex_update 100 = Ok db')
    by (eexists; vm_compute; reflexivity).
  destruct U as [db' U]. exists db'. split; [exact U|].
  destruct (@update_db_translations_keeps_rows ex_db_suggested ex_update 100
              db' U) as [K [_ [_ [R _]]]].
  split; [exact K | exact R].
Defined.

Lemma update_db_translations_needs_suggestion_witness :
  exists db',
    update_db_translations ex_db_suggested ex_update 100 = Ok db'
    /\ exists t,
         In t (db_translations ex_db_suggested)
         /\ tr_approved t = false /\ tr_pretranslated t = false
         /\ In (tr_entity t, tr_locale t) (dict_keys ex_update).
Proof.
  assert (U : exists db',
             update_db_translations ex_db_suggested ex_update 100 = Ok db')
    by (eexists; vm_compute; reflexivity).
  destruct U as [db' U]. exists db'. split; [exact U|].
  exact (@update_db_translations_needs_suggestion ex_db_suggested ex_update
           100 db' U).
Defined.

Lemma update_db_translations_keeps_exclusive_witness :
  exists db',
    update_db_translations ex_db_suggested ex_update 100 = Ok db'
    /\ unique_pks (db_translations ex_db_suggested)
    /\ forall t, In t (db_translations db') ->
                 tr_approved t = true -> tr_rejected t = false.
Proof.
  assert (U : exists db',
             update_db_translations ex_db_suggested ex_update 100 = Ok db')
    by (eexists; vm_compute; reflexivity).
  destruct U as [db' U]. exists db'. split; [exact U|].
  assert (N : unique_pks (db_translations ex_db_suggested)).
  { unfold unique_pks. simpl. repeat constructor; simpl; intuition discriminate. }
  split; [exact N|].
  apply (@update_db_translations_keeps_exclusive ex_db_suggested ex_update
           100 db' N); [|exact U].
  intros t [<- | [<- | []]]; reflexivity.
Defined.

(* ================================================================== *)
(** * The phases together *)
(* ================================================================== *)

Lemma dict_set_not_nil {K V} `{EqKey K} (d : dict K V) k v :
  dict_set d k v <> [].
Proof.
  destruct d as [|[a b] d]; simpl; [discriminate|].
  destruct (keqb k a); discriminate.
Qed.

Section EntityPhaseOutcome.

Variable relpath : string -> string -> string.
Variable parse_source : string -> Locale -> result SilmeResource.
Variable get_path_format : string -> string.
Variable isfile : string -> bool.
Variable default_order : Z.

Lemma updates_not_nil source_locale ref_root : forall changed acc,
  for_each
    (fun updates path =>
       let db_path := relpath (strip_pot path) ref_root in
       res <- parse_or_None parse_source path source_locale ;;
       Ok (dict_set updates db_path res))
    changed acc = Ok [] ->
  changed = [] /\ acc = [].
Proof.
  induction changed as [|p changed IH]; simpl; intros acc E.
  - inversion E. auto.
  - bind_inv E. bind_inv E0. inversion E0; subst a.
    destruct (IH _ E) as [_ Q]. now apply dict_set_not_nil in Q.
Qed.

(** X18. A run of [sync_entities_from_repo] that returns had no changed
    reference file: a changed file, parsed or not, is an entry of
    [updates], and [update_resources] raises on any entry. Such a run adds
    and changes nothing; what it returns and leaves in the database are
    the paths and the database of [remove_resources]. *)
Theorem sync_entities_from_repo_only_removes db project locale_map paths
  ref_root changed removed now db1 added_paths changed_paths removed_paths :
  sync_entities_from_repo relpath parse_source get_path_format isfile
    default_order db project locale_map paths ref_root changed removed now
  = Ok (db1, (added_paths, changed_paths, removed_paths)) ->
  changed = [] /\ added_paths = [] /\ changed_paths = []
  /\ (db1, removed_paths) = remove_resources relpath db project ref_root removed.
Proof.
  unfold sync_entities_from_repo. intro E.
  bind_inv E. rename a into source_locale.
  bind_inv E. rename a into updates, E1 into Eu.
  destruct (remove_resources relpath db project ref_root removed)
    as [dbr paths_r] eqn:Rm.
  bind_inv E. destruct a as [db2 paths_c].
  apply update_resources_Ok in E1. destruct E1 as [-> Q].
  inversion Q; subst db2 paths_c; clear Q.
  apply updates_not_nil in Eu. destruct Eu as [-> _].
  simpl in E. inversion E; subst. auto.
Qed.

End EntityPhaseOutcome.

Section TranslationPhaseOutcome.

Variable join : string -> string -> string.
Variable relpath : string -> string -> string.
Variable splitext : string -> string * string.
Variable bilingual_extensions : list string.
Variable parse_android_locale : string -> option string.
Variable parse_target : string -> string -> Locale -> result (list VCSTranslation).

(** X19. Whatever its outcome, [sync_translations_from_repo] leaves the
    resources, the entities, the locales, the users and the change markers
    as they were and only appends to the action log. The translated
    resources it leaves are those [delete_removed_translated_resources]
    leaves: no later step writes them, and no transaction takes the
    deletion back when a later step raises. *)
Theorem sync_translations_from_repo_writes db project locales checkouts
  ref_checkout paths now :
  let out :=
    sync_translations_from_repo join relpath splitext bilingual_extensions
      parse_android_locale parse_target db project locales checkouts
      ref_checkout paths now in
  let deleted :=
    delete_removed_translated_resources join relpath splitext
      bilingual_extensions parse_android_locale db project checkouts
      ref_checkout paths in
  db_locales (fst out) = db_locales db
  /\ db_users (fst out) = db_users db
  /\ db_resources (fst out) = db_resources db
  /\ db_entities (fst out) = db_entities db
  /\ db_changed_entity_locales (fst out) = db_changed_entity_locales db
  /\ db_translated_resources (fst out) = db_translated_resources (fst deleted)
  /\ exists news, db_action_log (fst out) = (db_action_log db ++ news)%list.
Proof.
  intros out deleted. unfold out, sync_translations_from_repo.
  fold deleted. destruct deleted as [db1 n] eqn:D. cbn [fst].
  assert (Fr : db_locales db1 = db_locales db
               /\ db_users db1 = db_users db
               /\ db_resources db1 = db_resources db
               /\ db_entities db1 = db_entities db
               /\ db_changed_entity_locales db1 = db_changed_entity_locales db
               /\ db_action_log db1 = db_action_log db).
  { unfold deleted, delete_removed_translated_resources in D.
    destruct (negb (is_nil _)) in D; inversion D; simpl; repeat split. }
  destruct Fr as [F1 [F2 [F3 [F4 [F5 F6]]]]].
  assert (Same : db_locales db1 = db_locales db
                 /\ db_users db1 = db_users db
                 /\ db_resources db1 = db_resources db
                 /\ db_entities db1 = db_entities db
                 /\ db_changed_entity_locales db1
                    = db_changed_entity_locales db
                 /\ db_translated_resources db1 = db_translated_resources db1
                 /\ exists news,
                      db_action_log db1 = (db_action_log db ++ news)%list).
  { repeat split; auto. exists []. now rewrite app_nil_r. }
  destruct (find_updates_from_repo_to_db join relpath parse_android_locale
              parse_target db1 project locales checkouts ref_checkout paths)
    as [[rt|]|e] eqn:Fu; cbn [fst snd]; [|exact Same|exact Same].
  destruct (negb (is_nil rt)); cbn [fst snd]; [|exact Same].
  destruct (update_db_translations db1 rt now) as [db'|e] eqn:U;
    cbn [fst snd]; [|exact Same].
  apply update_db_translations_steps in U.
  destruct U as [sync_user [st [cols [_ [_ [_ [_ [_
    [rows [news [created [to_reject
      [_ [_ [_ [_ [_ [Hl [G1 [G2 [G3 [G4 [G5 G6]]]]]]]]]]]]]]]]]]]]]]].
  split; [congruence|]. split; [congruence|]. split; [congruence|].
  split; [congruence|]. split; [congruence|]. split; [exact G5|].
  rewrite Hl, F6. eauto.
Qed.

End TranslationPhaseOutcome.

Section ProjectOutcome.

Variable join : string -> string -> string.
Variable relpath : string -> string -> string.
Variable normpath : string -> string.
Variable commonpath : string -> string -> string.
Variable splitext : string -> string * string.
Variable format_url : string -> string -> string.
Variable bilingual_extensions : list string.
Variable parse_android_locale : string -> option string.
Variable parse_source : string -> Locale -> result SilmeResource.
Variable parse_target : string -> string -> Locale -> result (list VCSTranslation).
Variable get_path_format : string -> string.
Variable isfile : string -> bool.
Variable default_order : Z.
Variable L10nConfigPaths : string -> Paths.
Variable L10nDiscoverPaths : string -> option string -> Paths.
Variable revision : string -> string -> option string.
Variable changed_files :
  string -> string -> string -> option (list string * list string).
Variable tree : string -> FsTree.

(** X20. When the reference checkout of a project has a changed file,
    [sync_project] raises in [sync_entities_from_repo] and the database is
    as it was: nothing of the entities is kept, and the translations are
    not looked at. *)
Theorem sync_project_raises_on_source_changes db project pull now paths
  ref_checkout :
  get_paths join commonpath L10nConfigPaths L10nDiscoverPaths project
    (get_checkouts join relpath normpath format_url revision changed_files
       tree project pull) = Ok (paths, ref_checkout) ->
  co_changed ref_checkout <> [] ->
  exists e,
    sync_project join relpath normpath commonpath splitext format_url
      bilingual_extensions parse_android_locale parse_source parse_target
      get_path_format isfile default_order L10nConfigPaths L10nDiscoverPaths
      revision changed_files tree db project pull now
    = (db, Raise e).
Proof.
  intros G C. unfold sync_project.
  set (checkouts := get_checkouts _ _ _ _ _ _ _ _ _) in *.
  destruct (is_nil checkouts) eqn:Hn.
  { apply get_paths_In in G. destruct checkouts; [contradiction | discriminate]. }
  rewrite G.
  match goal with
  | |- context [sync_entities_from_repo ?a ?b ?c ?d ?e ?f ?g ?h ?i ?j ?k ?l ?m] =>
      destruct (sync_entities_from_repo a b c d e f g h i j k l m)
        as [[db1 out]|e0] eqn:E
  end.
  - exfalso. unfold sync_entities_from_repo in E.
    bind_inv E. bind_inv E. rename a0 into updates, E1 into Eu.
    destruct (remove_resources _ _ _ _ _) as [dbr paths_r] in E.
    bind_inv E. destruct a0 as [db2 paths_c].
    apply update_resources_Ok in E1. destruct E1 as [-> _].
    apply updates_not_nil in Eu. destruct Eu as [Q _]. contradiction.
  - exists e0. reflexivity.
Qed.

End ProjectOutcome.

(* ================================================================== *)
(** * Checkouts and paths *)
(* ================================================================== *)

Lemma filter_twice {A} (p : A -> bool) (l : list A) :
  filter p (filter p l) = filter p l.
Proof.
  induction l as [|a l IH]; simpl; [reflexivity|].
  destruct (p a) eqn:E; simpl; [rewrite E, IH|]; auto.
Qed.

Lemma dir_name_prune t : dir_name (prune t) = dir_name t.
Proof. destruct t; reflexivity. Qed.

(** Where the repositories of [acc] and those of the checkouts other than
    the reference end up in [target_repos]. *)
Lemma target_repos_covers ref_checkout : forall checkouts acc,
  let step := fun acc co =>
    if negb (same_checkout co ref_checkout)
       && negb (existsb (fun r => repo_id r =? repo_id (co_repo co)) acc)
    then (acc ++ [co_repo co])%list
    else acc in
  (forall r, In r acc -> In r (fold_left step checkouts acc))
  /\ forall co, In co checkouts -> same_checkout co ref_checkout = false ->
       exists r, In r (fold_left step checkouts acc)
                 /\ repo_id r = repo_id (co_repo co).
Proof.
  induction checkouts as [|co cos IH]; intros acc step; simpl.
  - split; [auto | intros co []].
  - destruct (IH (step acc co)) as [Keep Cover]. fold step in Keep, Cover.
    assert (Grow : forall r, In r acc -> In r (step acc co)).
    { intros r I. unfold step. destruct (_ && _); [|exact I].
      apply in_or_app. now left. }
    split; [intros r I; apply Keep, Grow, I|].
    intros co' [<- | I] S; [|now apply Cover].
    unfold step in Keep at 1. rewrite S in Keep. simpl in Keep.
    destruct (existsb _ acc) eqn:X; simpl in Keep.
    + apply existsb_exists in X. destruct X as [r [Ir Er]].
      apply Z.eqb_eq in Er. exists r. split; [apply Keep, Ir | exact Er].
    + exists (co_repo co). split; [|reflexivity].
      apply Keep, in_or_app. right. now left.
Qed.

Section CheckoutsAndPaths.

Variable join : string -> string -> string.
Variable relpath : string -> string -> string.
Variable normpath : string -> string.
Variable commonpath : string -> string -> string.
Variable format_url : string -> string -> string.
Variable L10nConfigPaths : string -> Paths.
Variable L10nDiscoverPaths : string -> option string -> Paths.
Variable revision : string -> string -> option string.
Variable changed_files :
  string -> string -> string -> option (list string * list string).
Variable tree : string -> FsTree.

(** X21. Hidden files and what lies below hidden directories never count
    as changed: the files [walk_changed] lists for a working copy are those
    it lists for the copy without its hidden files and directories. *)
Theorem walk_changed_skips_hidden top : forall t root,
  walk_changed join relpath top root t
  = walk_changed join relpath top root (prune t).
Proof.
  fix IH 1. intros [name dirs files] root. simpl.
  rewrite filter_twice. f_equal.
  induction dirs as [|sub dirs IHd]; simpl; [reflexivity|].
  destruct (dotted (dir_name sub)) eqn:D.
  - exact IHd.
  - simpl. rewrite dir_name_prune, D, <- IH. f_equal. exact IHd.
Qed.

Lemma Checkout_init_fields repo locale_code pull :
  let co :=
    Checkout_init join relpath normpath format_url revision changed_files tree
      repo locale_code pull in
  co_repo co = repo /\ co_locale_code co = locale_code
  /\ co_is_source co
     = match locale_code with
       | Some _ => false
       | None => repo_source_repo repo
       end.
Proof.
  unfold Checkout_init. destruct locale_code; simpl.
  all: match goal with
       | |- context [let '(_, _) := ?d in _] => destruct d
       end; simpl; auto.
Qed.

Lemma get_checkouts_In project pull co :
  In co
    (get_checkouts join relpath normpath format_url revision changed_files
       tree project pull) ->
  In (co_repo co) (proj_repositories project)
  /\ match co_locale_code co with
     | Some lc =>
         contains "{locale_code}" (repo_url (co_repo co)) = true
         /\ In lc (map loc_code (proj_locales project))
         /\ co_is_source co = false
     | None =>
         contains "{locale_code}" (repo_url (co_repo co)) = false
         /\ co_is_source co = repo_source_repo (co_repo co)
     end.
Proof.
  unfold get_checkouts. intro I. apply in_flat_map in I.
  destruct I as [repo [Ir I]].
  destruct (contains "{locale_code}" (repo_url repo)) eqn:C.
  - apply in_map_iff in I. destruct I as [l [<- Il]].
    destruct (Checkout_init_fields repo (Some (loc_code l)) pull)
      as [-> [-> ->]].
    split; [exact Ir|]. split; [exact C|]. split; [now apply in_map | auto].
  - destruct I as [<- | []].
    destruct (Checkout_init_fields repo None pull) as [-> [-> ->]]. auto.
Qed.

Lemma NoDup_map_app {A B} (f : A -> B) (l1 l2 : list A) :
  NoDup (map f l1) -> NoDup (map f l2) ->
  (forall a b, In a l1 -> In b l2 -> f a <> f b) ->
  NoDup (map f (l1 ++ l2)).
Proof.
  induction l1 as [|x l1 IH]; simpl; intros N1 N2 D; [exact N2|].
  inversion N1 as [|? ? Hx N1']; subst. constructor.
  - rewrite map_app, in_app_iff. intros [I | I]; [contradiction|].
    apply in_map_iff in I. destruct I as [b [E I]].
    apply (D x b); auto.
  - apply IH; auto.
Qed.

(** The checkouts of one repository. *)
Lemma repo_checkouts_NoDup repo (locales : list Locale) pull :
  NoDup (map loc_code locales) ->
  NoDup
    (map checkout_key
       (if contains "{locale_code}" (repo_url repo)
        then map (fun l =>
                    Checkout_init join relpath normpath format_url revision
                      changed_files tree repo (Some (loc_code l)) pull)
               locales
        else [Checkout_init join relpath normpath format_url revision
                changed_files tree repo None pull])).
Proof.
  intro Nl. destruct (contains _ _).
  - induction locales as [|l ls IH]; simpl; [constructor|].
    inversion Nl as [|? ? Hl Nl']; subst. constructor; [|now apply IH].
    intro I. apply Hl. rewrite map_map in I. apply in_map_iff in I.
    destruct I as [l' [E I]]. unfold checkout_key in E.
    destruct (Checkout_init_fields repo (Some (loc_code l)) pull)
      as [_ [El _]].
    destruct (Checkout_init_fields repo (Some (loc_code l')) pull)
      as [_ [El' _]].
    rewrite El, El' in E.
    assert (Q : loc_code l = loc_code l') by (inversion E; congruence).
    rewrite Q. now apply in_map.
  - simpl. constructor; [intros [] | constructor].
Qed.

(** X22. [get_checkouts] yields checkouts of the repositories of the
    project, and a checkout that is the source has no locale code and is of
    a repository flagged as the source. Where repositories have distinct
    ids and locales distinct codes, no two checkouts share repository and
    locale code, so that the pair tells the reference checkout from the
    others. *)
Theorem get_checkouts_distinct project pull :
  let checkouts :=
    get_checkouts join relpath normpath format_url revision changed_files
      tree project pull in
  (forall co, In co checkouts ->
     In (co_repo co) (proj_repositories project)
     /\ (co_is_source co = true ->
         co_locale_code co = None /\ repo_source_repo (co_repo co) = true))
  /\ (NoDup (map repo_id (proj_repositories project)) ->
      NoDup (map loc_code (proj_locales project)) ->
      NoDup (map checkout_key checkouts)).
Proof.
  intro checkouts. split.
  - intros co I. apply get_checkouts_In in I. destruct I as [Ir H].
    split; [exact Ir|]. intro S. destruct (co_locale_code co).
    + destruct H as [_ [_ H]]. congruence.
    + destruct H as [_ H]. split; [reflexivity | congruence].
  - intros Nr Nl. unfold checkouts, get_checkouts.
    induction (proj_repositories project) as [|repo repos IH]; simpl;
      [constructor|].
    inversion Nr as [|? ? Hr Nr']; subst.
    apply NoDup_map_app; [now apply repo_checkouts_NoDup | now apply IH|].
    intros a b Ia Ib E. apply Hr.
    assert (Ra : co_repo a = repo).
    { destruct (contains _ (repo_url repo)).
      - apply in_map_iff in Ia. destruct Ia as [l [<- _]].
        now destruct (Checkout_init_fields repo (Some (loc_code l)) pull).
      - destruct Ia as [<- | []].
        now destruct (Checkout_init_fields repo None pull). }
    apply in_flat_map in Ib. destruct Ib as [repo' [Ir' Ib]].
    assert (Rb : co_repo b = repo').
    { destruct (contains _ (repo_url repo')).
      - apply in_map_iff in Ib. destruct Ib as [l [<- _]].
        now destruct (Checkout_init_fields repo' (Some (loc_code l)) pull).
      - destruct Ib as [<- | []].
        now destruct (Checkout_init_fields repo' None pull). }
    unfold checkout_key in E. inversion E as [[Ei El]].
    rewrite Ra, Rb in Ei. rewrite Ei. now apply in_map.
Qed.

(** X23. The reference checkout [get_paths] returns is one of the
    checkouts, and it is a source checkout whenever there is one. With a
    configuration file and more than one checkout, the checkouts other than
    the reference are all of one repository, whose checkout path becomes
    the base of the paths; without a configuration file the base was
    found. *)
Theorem get_paths_reference project checkouts paths ref_checkout :
  get_paths join commonpath L10nConfigPaths L10nDiscoverPaths project checkouts
  = Ok (paths, ref_checkout) ->
  In ref_checkout checkouts
  /\ (forall co, In co checkouts -> co_is_source co = true ->
                 co_is_source ref_checkout = true)
  /\ (proj_configuration_file project <> "" ->
      (1 < List.length checkouts)%nat ->
      exists target_repo,
        base paths = Some (repo_checkout_path target_repo)
        /\ forall co, In co checkouts ->
             same_checkout co ref_checkout = false ->
             repo_id (co_repo co) = repo_id target_repo)
  /\ (proj_configuration_file project = "" -> base paths <> None).
Proof.
  intro G. split; [now apply get_paths_In in G|].
  unfold get_paths in G.
  assert (Src : forall r,
            (match find co_is_source checkouts with
             | Some co => co = r
             | None => True
             end) ->
            forall co, In co checkouts -> co_is_source co = true ->
                       co_is_source r = true).
  { intros r H co I S. destruct (find co_is_source checkouts) as [c|] eqn:F.
    - subst c. now apply find_some in F.
    - now rewrite (find_none _ _ F co I) in S. }
  destruct (String.eqb (proj_configuration_file project) "") eqn:Cf;
    simpl in G.
  - apply String.eqb_eq in Cf. bind_inv G.
    assert (Hr : match find co_is_source checkouts with
                 | Some co => co = a
                 | None => True
                 end).
    { destruct (find co_is_source checkouts); [|exact I].
      now inversion E. }
    destruct (is_none (base _)) eqn:B; [discriminate|].
    inversion G; subst paths ref_checkout; clear G.
    split; [now apply Src|]. split; [congruence|].
    intros _ Q. rewrite Q in B. discriminate.
  - apply String.eqb_neq in Cf. bind_inv G.
    assert (Hr : match find co_is_source checkouts with
                 | Some co => co = a
                 | None => True
                 end).
    { destruct (find co_is_source checkouts); [|exact I].
      now inversion E. }
    destruct (1 <? List.length checkouts)%nat eqn:L.
    + destruct (target_repos checkouts a) as [|target_repo [|? ?]] eqn:T;
        inversion G; subst paths ref_checkout; clear G.
      split; [now apply Src|]. split; [|congruence].
      intros _ _. exists target_repo. split; [reflexivity|].
      intros co Ico S.
      destruct (target_repos_covers a checkouts []) as [_ Cover].
      destruct (Cover co Ico S) as [r [Ir Er]].
      unfold target_repos in T. rewrite T in Ir.
      destruct Ir as [<- | []]. now symmetry.
    + inversion G; subst paths ref_checkout; clear G.
      split; [now apply Src|]. split; [|congruence].
      intros _ L'. apply Nat.ltb_ge in L. lia.
Qed.

End CheckoutsAndPaths.

(* ================================================================== *)
(** * The further properties on the example project *)
(* ================================================================== *)

(** [app.pot] is removed from the reference repository: the resource
    [app.po] goes. *)
Lemma remove_resources_removes_witness :
  let out := remove_resources ex_relpath (ex_db []) 1 "." ["app.pot"] in
  let wanted := removal_paths ex_relpath "." ["app.pot"] in
  snd out = ["app.po"]
  /\ (forall p, In p (snd out) <->
                In p wanted
                /\ exists r, In r (project_resources 1 (ex_db []))
                             /\ res_path r = p)
  /\ (forall r, In r (db_resources (fst out)) ->
                In r (db_resources (ex_db [])))
  /\ (forall r, In r (project_resources 1 (fst out)) ->
                res_id r <> None -> ~ In (res_path r) wanted)
  /\ (wanted = [] -> fst out = ex_db []).
Proof.
  split; [reflexivity|].
  exact (@remove_resources_removes ex_relpath (ex_db []) 1 "." ["app.pot"]).
Defined.

(** [de/app.po] is removed from the target repository: the translated
    resource of [app.po] for [de] is the one row deleted. *)
Lemma delete_removed_translated_resources_counts_witness :
  let out :=
    delete_removed_translated_resources ex_join ex_relpath
      (fun p => (p, ".po")) [".po"] (fun _ => None) ex_db_translated 1
      [ex_source_checkout; ex_target_checkout_removed] ex_source_checkout
      (ex_paths "" None) in
  snd out = 1
  /\ Z.of_nat (List.length (db_translated_resources ex_db_translated))
     = Z.of_nat (List.length (db_translated_resources (fst out))) + snd out
  /\ db_translations (fst out) = db_translations ex_db_translated.
Proof.
  split; [reflexivity|].
  destruct (@delete_removed_translated_resources_counts ex_join ex_relpath
              (fun p => (p, ".po")) [".po"] (fun _ => None) ex_db_translated 1
              [ex_source_checkout; ex_target_checkout_removed]
              ex_source_checkout (ex_paths "" None))
    as [H1 [_ [_ [_ [H2 _]]]]].
  split; [exact H1 | exact H2].
Defined.

(** Only [app.pot] is removed: the run returns, with nothing added and
    nothing changed. *)
Lemma sync_entities_from_repo_only_removes_witness :
  exists db1,
    ex_sync_entities (fun _ _ => Raise ParseError) (ex_db []) [] ["app.pot"]
      100 = Ok (db1, ([], [], ["app.po"]))
    /\ (db1, ["app.po"])
       = remove_resources ex_relpath (ex_db []) 1 "." ["app.pot"].
Proof.
  assert (E : exists db1,
             ex_sync_entities (fun _ _ => Raise ParseError) (ex_db []) []
               ["app.pot"] 100 = Ok (db1, ([], [], ["app.po"])))
    by (eexists; vm_compute; reflexivity).
  destruct E as [db1 E]. exists db1. split; [exact E|].
  exact (proj2 (proj2 (proj2
           (@sync_entities_from_repo_only_removes ex_relpath
              (fun _ _ => Raise ParseError) (fun _ => "po") (fun _ => false)
              0 (ex_db []) 1 [("de", ex_de)] (ex_paths "" None) "." []
              ["app.pot"] 100 db1 [] [] ["app.po"] E)))).
Defined.

(** [de/app.po] was removed and put back with the string [Hallo neu],
    for which the database has a suggestion: the run approves it, rejects
    [Hallo] and logs both, the translated resource of [app.po] for [de] is
    deleted, and the other tables are as they were. *)
Lemma sync_translations_from_repo_writes_witness :
  let out :=
    sync_translations_from_repo ex_join ex_relpath (fun p => (p, ".po"))
      [".po"] (fun _ => None) (ex_parse_target [(None, "Hallo neu")] false)
      ex_db_suggested_translated 1 [("de", ex_de)]
      [ex_source_checkout; ex_target_checkout_removed] ex_source_checkout
      (ex_paths "" None) 100 in
  snd out = Ok tt
  /\ map (fun t => (tr_string t, tr_approved t, tr_rejected t))
       (db_translations (fst out))
     = [("Hallo", false, true); ("Hallo neu", true, false)]
  /\ List.length (db_action_log (fst out)) = 2%nat
  /\ db_translated_resources (fst out) = []
  /\ db_resources (fst out) = db_resources ex_db_suggested_translated
  /\ db_entities (fst out) = db_entities ex_db_suggested_translated
  /\ db_changed_entity_locales (fst out)
     = db_changed_entity_locales ex_db_suggested_translated.
Proof.
  split; [reflexivity|]. split; [reflexivity|]. split; [reflexivity|].
  split; [reflexivity|].
  destruct (@sync_translations_from_repo_writes ex_join ex_relpath
              (fun p => (p, ".po")) [".po"] (fun _ => None)
              (ex_parse_target [(None, "Hallo neu")] false)
              ex_db_suggested_translated 1 [("de", ex_de)]
              [ex_source_checkout; ex_target_checkout_removed]
              ex_source_checkout (ex_paths "" None) 100)
    as [_ [_ [H3 [H4 [H5 _]]]]].
  split; [exact H3|]. split; [exact H4 | exact H5].
Defined.

(** [app.pot] changed in the reference repository of the example
    project. *)
Lemma sync_project_raises_on_source_changes_witness :
  exists e,
    sync_project ex_join ex_relpath (fun p => p) (fun a _ => a)
      (fun p => (p, "")) (fun url _ => url) [".po"] (fun _ => None)
      (fun _ _ => Raise ParseError) (ex_parse_target [(None, "Hallo")] false)
      (fun _ => "po") (fun _ => false) 0 (fun _ => ex_paths "" None) ex_paths
      (fun _ _ => Some "r1") ex_source_changed (fun _ => Dir "" [] [])
      (ex_db []) ex_project true 100
    = (ex_db [], Raise e).
Proof.
  assert (G : exists paths ref_checkout,
             get_paths ex_join (fun a _ => a) (fun _ => ex_paths "" None)
               ex_paths ex_project
               (get_checkouts ex_join ex_relpath (fun p => p)
                  (fun url _ => url) (fun _ _ => Some "r1") ex_source_changed
                  (fun _ => Dir "" [] []) ex_project true)
             = Ok (paths, ref_checkout)
             /\ co_changed ref_checkout <> []).
  { eexists. eexists. split; [vm_compute; reflexivity | discriminate]. }
  destruct G as [paths [ref_checkout [G C]]].
  exact (@sync_project_raises_on_source_changes ex_join ex_relpath
           (fun p => p) (fun a _ => a) (fun p => (p, "")) (fun url _ => url)
           [".po"] (fun _ => None) (fun _ _ => Raise ParseError)
           (ex_parse_target [(None, "Hallo")] false) (fun _ => "po")
           (fun _ => false) 0 (fun _ => ex_paths "" None) ex_paths
           (fun _ _ => Some "r1") ex_source_changed (fun _ => Dir "" [] [])
           (ex_db []) ex_project true 100 paths ref_checkout G C).
Defined.

(** The checkouts of the example project are told apart by repository and
    locale code. *)
Lemma get_checkouts_distinct_witness :
  NoDup
    (map checkout_key
       (get_checkouts ex_join ex_relpath (fun p => p) (fun url _ => url)
          (fun _ _ => Some "r1") ex_changed_files (fun _ => Dir "" [] [])
          ex_project true)).
Proof.
  apply (proj2 (@get_checkouts_distinct ex_join ex_relpath (fun p => p)
                  (fun url _ => url) (fun _ _ => Some "r1") ex_changed_files
                  (fun _ => Dir "" [] []) ex_project true)).
  - simpl. repeat constructor; simpl; intuition discriminate.
  - simpl. repeat constructor; simpl; intuition discriminate.
Defined.

(** With a configuration file, the reference checkout is the source
    checkout and the base is the checkout path of the target repository. *)
Lemma get_paths_reference_witness :
  exists paths,
    get_paths ex_join (fun a _ => a) (fun _ => ex_paths "" None) ex_paths
      ex_project_configured [ex_source_checkout; ex_target_checkout]
    = Ok (paths, ex_source_checkout)
    /\ base paths = Some "/co/l10n"
    /\ exists target_repo,
         base paths = Some (repo_checkout_path target_repo)
         /\ forall co, In co [ex_source_checkout; ex_target_checkout] ->
              same_checkout co ex_source_checkout = false ->
              repo_id (co_repo co) = repo_id target_repo.
Proof.
  assert (G : exists paths,
             get_paths ex_join (fun a _ => a) (fun _ => ex_paths "" None)
               ex_paths ex_project_configured
               [ex_source_checkout; ex_target_checkout]
             = Ok (paths, ex_source_checkout)
             /\ base paths = Some "/co/l10n").
  { eexists. split; [vm_compute; reflexivity | reflexivity]. }
  destruct G as [paths [G B]]. exists paths.
  split; [exact G|]. split; [exact B|].
  destruct (@get_paths_reference ex_join (fun a _ => a)
              (fun _ => ex_paths "" None) ex_paths ex_project_configured
              [ex_source_checkout; ex_target_checkout] paths
              ex_source_checkout G) as [_ [_ [H _]]].
  apply H; [discriminate | simpl; lia].
Defined.
